(** * Real-time MLOps monitor: sliding-window aggregator, alert manager and
    storage manager

    A shallow embedding of
    - [src/components/metrics_event.py]   (the event record),
    - [src/services/metrics_aggregator.py] ([TimeWindow], [MetricsAggregator]),
    - [src/services/alert_manager.py]      ([AlertManager]),
    - [src/services/storage_manager.py]    (the batch buffer of [StorageManager]),
    - [src/services/metrics_processor.py]  (the event handler and the loops),
    followed by the properties of the specification that concern them.

    Conventions of the embedding.
    - A Python [float] is idealised as an exact rational ([Q]); the non-finite
      floats (inf, nan) have no counterpart.  [round(x, 2)] is rounding to the
      nearest hundredth, ties to even; at an exact tie the code, which rounds
      a double, may return the other neighbour (see [Py.round2]).
    - A naive [datetime] is its number of microseconds since the epoch ([Z]);
      [datetime.timestamp()] and [datetime.fromtimestamp] are taken in a zone
      of offset zero, so that both are the identity on whole seconds.  The
      functions that take an event are modelled for a naive [timestamp];
      what an aware one does is [MetricsAggregator.add_aware_event].
    - A [dict] whose iteration order is observable is an association list in
      insertion order ([pydict]); the active-alert dictionary, which is only
      looked up, inserted into and deleted from, is a [gmap].
    - [datetime.utcnow()] reads an external clock: the functions that read it
      take the reading(s) as an argument.
    - Log output is kept only where a property speaks about it. *)

From Stdlib Require Import ZArith QArith Qround Qabs Lia Lqa List Bool Ascii String.
From Stdlib Require Import Sorted Permutation.
From stdpp Require Import gmap strings list.
Import ListNotations.

Local Open Scope Z_scope.

(** ** Python primitives *)

Module Py.

(** [int(x)] on a float: truncation toward zero. *)
Definition int_of_float (x : Q) : Z := Z.quot (Qnum x) (Zpos (Qden x)).

(** [bool(x)] on a float: every value but zero is true. *)
Definition truthy (x : Q) : bool := negb (Qnum x =? 0).

(** [l[i]] with Python's negative indices; [None] stands for [IndexError]. *)
Definition getitem {A} (l : list A) (i : Z) : option A :=
  let n := Z.of_nat (length l) in
  if (0 <=? i) && (i <? n) then nth_error l (Z.to_nat i)
  else if (- n <=? i) && (i <? 0) then nth_error l (Z.to_nat (n + i))
  else None.

(** The last [k] elements of [l] (all of [l] when it is shorter). *)
Definition last_n {A} (k : nat) (l : list A) : list A :=
  skipn (length l - k)%nat l.

(** [l[-k:]] for [k >= 0]: the last [k] elements, except that [l[-0:]] is
    [l[0:]], the whole list. *)
Definition slice_last {A} (k : nat) (l : list A) : list A :=
  match k with
  | O => l
  | S _ => last_n k l
  end.

(** [sorted(l)]: a stable sort; insertion before the first element that is
    not smaller keeps equal elements in their original order. *)
Fixpoint insert_sorted (x : Q) (l : list Q) : list Q :=
  match l with
  | [] => [x]
  | y :: l' => if Qle_bool x y then x :: y :: l' else y :: insert_sorted x l'
  end.

Definition sorted (l : list Q) : list Q := fold_right insert_sorted [] l.

Definition sumQ (l : list Q) : Q := fold_right Qplus (0 # 1)%Q l.

Definition sumZ (l : list Z) : Z := fold_right Z.add 0 l.

(** [statistics.mean(l)] for a non-empty [l] (every call site guards it). *)
Definition mean (l : list Q) : Q :=
  (sumQ l / inject_Z (Z.of_nat (length l)))%Q.

(** Nearest integer, ties to even. *)
Definition round_half_even (x : Q) : Z :=
  let f := Qfloor x in
  match Qcompare (x - inject_Z f)%Q (1 # 2)%Q with
  | Lt => f
  | Gt => f + 1
  | Eq => if Z.even f then f else f + 1
  end.

(** [round(x, 2)] on the exact value of the float: the nearest multiple of
    1/100, an exact tie going to the even neighbour.  Python rounds the
    double that stands for [x]; when the exact value is a tie that double
    may lie on either side of it ([23 / 160 * 100] is 14.374999999999998 and
    rounds to 14.37), so at a tie the code returns one of the two neighbours
    and not always the even one. *)
Definition round2 (x : Q) : Q := Qmake (round_half_even (x * (100 # 1))%Q) 100.

(** An insertion-ordered dictionary with string keys. *)
Definition pydict (V : Type) : Type := list (string * V).

Fixpoint dict_get {V} (d : pydict V) (k : string) : option V :=
  match d with
  | [] => None
  | (k', v) :: d' => if String.eqb k k' then Some v else dict_get d' k
  end.

(** [d[k] = v]: overwrite in place, or append a new key at the end. *)
Fixpoint dict_set {V} (d : pydict V) (k : string) (v : V) : pydict V :=
  match d with
  | [] => [(k, v)]
  | (k', v') :: d' =>
      if String.eqb k k' then (k', v) :: d' else (k', v') :: dict_set d' k v
  end.

(** [d[k] = f(d[k])] on a [defaultdict] with default value [dflt]. *)
Definition dict_update {V} (dflt : V) (f : V -> V) (d : pydict V) (k : string)
  : pydict V :=
  match dict_get d k with
  | Some v => dict_set d k (f v)
  | None => dict_set d k (f dflt)
  end.

(** [collections.deque(maxlen=n).append(x)]: the oldest entries leave on the
    left once the bound is exceeded. *)
Definition deque_append {A} (maxlen : nat) (d : list A) (x : A) : list A :=
  last_n maxlen (d ++ [x]).

(** [del d[k]] for a key that may be absent (the callers test membership). *)
Fixpoint dict_del {V} (d : pydict V) (k : string) : pydict V :=
  match d with
  | [] => []
  | (k', v) :: d' =>
      if String.eqb k k' then d' else (k', v) :: dict_del d' k
  end.

(** [k in d]. *)
Definition dict_mem {V} (d : pydict V) (k : string) : bool :=
  match dict_get d k with
  | Some _ => true
  | None => false
  end.

End Py.

(** ** The event record ([metrics_event.py]) *)

Inductive EventType : Type :=
  | API_REQUEST
  | API_RESPONSE
  | API_ERROR
  | SYSTEM_HEALTH.

Definition EventType_eqb (a b : EventType) : bool :=
  match a, b with
  | API_REQUEST, API_REQUEST
  | API_RESPONSE, API_RESPONSE
  | API_ERROR, API_ERROR
  | SYSTEM_HEALTH, SYSTEM_HEALTH => true
  | _, _ => false
  end.

(** The fields of [MetricsEvent] that the aggregator reads.  The sizes, client
    data, trace id, error text and metadata are carried along by the source
    and never inspected. *)
Record MetricsEvent : Type := mkEvent {
  event_id : string;
  event_type : EventType;
  timestamp : Z;               (* microseconds since the epoch *)
  service_name : string;
  api_endpoint : string;
  http_method : string;
  status_code : Z;
  response_time_ms : Q
}.

(** [bool(s)] on a string. *)
Definition nonempty (s : string) : bool := negb (String.eqb s "").

(** [event.status_code and event.status_code >= 400]. *)
Definition counts_as_error (event : MetricsEvent) : bool :=
  negb (status_code event =? 0) && (400 <=? status_code event).

(** [MetricsEvent.from_request_response].  The identifier and the timestamp,
    which the model draws from [uuid4] and from the clock, are arguments. *)
Definition from_request_response (event_id : string) (now : Z)
    (service_name endpoint method : string) (status_code : Z)
    (response_time_ms : Q) : MetricsEvent :=
  let event_type := if 400 <=? status_code then API_ERROR else API_RESPONSE in
  mkEvent event_id event_type now service_name endpoint method status_code
    response_time_ms.

(** ** Percentiles

    [TimeWindow.get_percentile_response_time] and
    [MetricsAggregator._calculate_percentile] have the same body. *)

Definition calculate_percentile (values : list Q) (percentile : Q) : option Q :=
  match values with
  | [] => Some (0 # 1)%Q
  | _ :: _ =>
      let sorted_values := Py.sorted values in
      let n := Z.of_nat (length sorted_values) in
      let k := (inject_Z (n - 1) * (percentile / (100 # 1)))%Q in
      let floor_k := Py.int_of_float k in
      let ceil_k := floor_k + 1 in
      if n <=? ceil_k then Py.getitem sorted_values (-1)
      else
        lo ← Py.getitem sorted_values floor_k;
        hi ← Py.getitem sorted_values ceil_k;
        Some (lo + (k - inject_Z floor_k) * (hi - lo))%Q
  end.

(** [a / b] on numbers; [None] stands for [ZeroDivisionError]. *)
Definition truediv (a b : Z) : option Q :=
  if b =? 0 then None else Some (inject_Z a / inject_Z b)%Q.

(** ** Per-scope counters of a sub-window

    The dictionaries [{"request_count", "error_count", "total_response_time",
    "response_times"}] created by the [defaultdict]s of [TimeWindow]. *)

Module Stat.

Record t : Type := mk {
  request_count : Z;
  error_count : Z;
  total_response_time : Q;
  response_times : list Q
}.

Definition empty : t := mk 0 0 (0 # 1)%Q [].

(** The three updates that [TimeWindow.add_event] applies to one scope. *)
Definition record_event (event : MetricsEvent) (s : t) : t :=
  let s1 := mk (request_count s + 1) (error_count s)
               (total_response_time s) (response_times s) in
  let s2 := if counts_as_error event
            then mk (request_count s1) (error_count s1 + 1)
                    (total_response_time s1) (response_times s1)
            else s1 in
  if Py.truthy (response_time_ms event)
  then mk (request_count s2) (error_count s2)
          (total_response_time s2 + response_time_ms event)%Q
          (response_times s2 ++ [response_time_ms event])
  else s2.

End Stat.

(** ** [TimeWindow] *)

Module TimeWindow.

Record t : Type := mk {
  window_start : Z;
  window_end : Z;
  duration_seconds : Z;
  events : list MetricsEvent;
  request_count : Z;
  error_count : Z;
  total_response_time : Q;
  response_times : list Q;
  service_stats : Py.pydict Stat.t;
  endpoint_stats : Py.pydict Stat.t
}.

Definition init (window_start duration_seconds : Z) : t :=
  mk window_start (window_start + duration_seconds * 1000000) duration_seconds
     [] 0 0 (0 # 1)%Q [] [] [].

Definition endpoint_key (event : MetricsEvent) : string :=
  service_name event +:+ ":" +:+ api_endpoint event.

(** Returns the flag of the source ([False] when the event lies outside the
    window, in which case nothing is changed) and the window afterwards.  The
    event time is naive, like the bounds of the window; with an aware one
    the range test raises [TypeError] (see
    [MetricsAggregator.add_aware_event]). *)
Definition add_event (event : MetricsEvent) (w : t) : bool * t :=
  let event_time := timestamp event in
  if negb ((window_start w <=? event_time) && (event_time <? window_end w))
  then (false, w)
  else
    let events' := events w ++ [event] in
    let request_count' := request_count w + 1 in
    let error_count' :=
      if counts_as_error event then error_count w + 1 else error_count w in
    let '(total', times') :=
      if Py.truthy (response_time_ms event)
      then ((total_response_time w + response_time_ms event)%Q,
            response_times w ++ [response_time_ms event])
      else (total_response_time w, response_times w) in
    let service_stats' :=
      if nonempty (service_name event)
      then Py.dict_update Stat.empty (Stat.record_event event)
             (service_stats w) (service_name event)
      else service_stats w in
    let endpoint_stats' :=
      if nonempty (api_endpoint event)
      then Py.dict_update Stat.empty (Stat.record_event event)
             (endpoint_stats w) (endpoint_key event)
      else endpoint_stats w in
    (true,
     mk (window_start w) (window_end w) (duration_seconds w)
        events' request_count' error_count' total' times'
        service_stats' endpoint_stats').

Definition get_qps (w : t) : option Q :=
  truediv (request_count w) (duration_seconds w).

Definition get_error_rate (w : t) : Q :=
  if request_count w =? 0 then (0 # 1)%Q
  else (inject_Z (error_count w) / inject_Z (request_count w) * (100 # 1))%Q.

Definition get_avg_response_time (w : t) : Q :=
  match response_times w with
  | [] => (0 # 1)%Q
  | _ :: _ => Py.mean (response_times w)
  end.

Definition get_percentile_response_time (w : t) (percentile : Q) : option Q :=
  calculate_percentile (response_times w) percentile.

Record Summary : Type := mkSummary {
  sum_window_start : Z;
  sum_window_end : Z;
  sum_duration_seconds : Z;
  sum_request_count : Z;
  sum_error_count : Z;
  sum_qps : Q;
  sum_error_rate : Q;
  sum_avg_response_time : Q;
  sum_p95_response_time : Q;
  sum_p99_response_time : Q;
  sum_service_count : nat;
  sum_endpoint_count : nat
}.

Definition get_summary (w : t) : option Summary :=
  qps ← get_qps w;
  p95 ← get_percentile_response_time w (95 # 1)%Q;
  p99 ← get_percentile_response_time w (99 # 1)%Q;
  Some (mkSummary (window_start w) (window_end w) (duration_seconds w)
          (request_count w) (error_count w) qps (get_error_rate w)
          (get_avg_response_time w) p95 p99
          (length (service_stats w)) (length (endpoint_stats w))).

End TimeWindow.

(** ** Snapshots

    The dictionary returned by [get_current_metrics]: one [ScopeMetrics] for
    the whole system, one per service and one per endpoint key. *)

Record ScopeMetrics : Type := mkScope {
  qps : Q;
  error_rate : Q;
  avg_response_time : Q;
  p95_response_time : Q;
  p99_response_time : Q;
  total_requests : Z;
  total_errors : Z
}.

Record Snapshot : Type := mkSnapshot {
  snap_timestamp : Z;          (* the clock reading, rendered by isoformat *)
  snap_window_size_seconds : Z;
  active_windows : nat;
  overall : ScopeMetrics;
  services : Py.pydict ScopeMetrics;
  endpoints : Py.pydict ScopeMetrics;
  window_details : list TimeWindow.Summary
}.

(** ** [MetricsAggregator] *)

Module MetricsAggregator.

Record t : Type := mk {
  window_size_seconds : Z;
  sub_window_seconds : Z;
  num_sub_windows : Z;
  windows : list TimeWindow.t;            (* deque(maxlen=num_sub_windows) *)
  current_window : option TimeWindow.t;
  last_window_start : option Z;
  total_events_processed : Z;
  aggregator_start_time : Z
}.

(** [__init__]: the floor division raises on a zero sub-window length and
    [deque] refuses a negative [maxlen]. *)
Definition init (window_size_seconds sub_window_seconds now : Z) : option t :=
  if sub_window_seconds =? 0 then None
  else
    let num := window_size_seconds / sub_window_seconds in
    if num <? 0 then None
    else Some (mk window_size_seconds sub_window_seconds num [] None None 0 now).

(** [_get_window_start_time]: whole seconds of the event time, aligned down
    to a multiple of the sub-window length. *)
Definition get_window_start_time (self : t) (event_time : Z) : option Z :=
  let timestamp := Z.quot event_time 1000000 in
  if sub_window_seconds self =? 0 then None
  else
    let aligned_timestamp :=
      (timestamp / sub_window_seconds self) * sub_window_seconds self in
    Some (aligned_timestamp * 1000000).

(** [_ensure_current_window] for an already aligned start. *)
Definition ensure_current_window_at (self : t) (window_start : Z) : t :=
  let stale :=
    match current_window self with
    | None => true
    | Some w => negb (TimeWindow.window_start w =? window_start)
    end in
  if stale then
    let windows' :=
      match current_window self with
      | Some w =>
          Py.deque_append (Z.to_nat (num_sub_windows self)) (windows self) w
      | None => windows self
      end in
    mk (window_size_seconds self) (sub_window_seconds self)
       (num_sub_windows self) windows'
       (Some (TimeWindow.init window_start (sub_window_seconds self)))
       (Some window_start)
       (total_events_processed self) (aggregator_start_time self)
  else self.

Definition ensure_current_window (self : t) (event_time : Z) : option t :=
  window_start ← get_window_start_time self event_time;
  Some (ensure_current_window_at self window_start).

Definition set_current (self : t) (w : TimeWindow.t) (processed : Z) : t :=
  mk (window_size_seconds self) (sub_window_seconds self)
     (num_sub_windows self) (windows self) (Some w)
     (last_window_start self) processed (aggregator_start_time self).

(** [add_event] on an event whose [timestamp] is a naive datetime.  Events
    of another type are ignored; an exception (here: the division by a zero
    sub-window length) is swallowed by the handler before anything was
    changed. *)
Definition add_event (event : MetricsEvent) (self : t) : t :=
  if negb (EventType_eqb (event_type event) API_RESPONSE) then self
  else
    match ensure_current_window self (timestamp event) with
    | None => self
    | Some self1 =>
        match current_window self1 with
        | None => self1
        | Some window =>
            let '(ok, window') := TimeWindow.add_event event window in
            if ok
            then set_current self1 window' (total_events_processed self1 + 1)
            else self1
        end
    end.

(** [add_event] on an event whose [timestamp] is an aware datetime (one with
    a [tzinfo], as pydantic builds it from a string that carries an offset);
    [timestamp event] is then the instant it denotes.
    [_ensure_current_window] runs as for a naive time and its window starts
    are naive.  The range test of [TimeWindow.add_event] then compares the
    naive bounds of the window with the aware time, which raises [TypeError];
    the handler swallows it.  So the sub-window has been replaced where it
    was stale, and the event is neither stored nor counted. *)
Definition add_aware_event (event : MetricsEvent) (self : t) : t :=
  if negb (EventType_eqb (event_type event) API_RESPONSE) then self
  else
    match ensure_current_window self (timestamp event) with
    | None => self
    | Some self1 => self1
    end.

Definition all_windows (self : t) : list TimeWindow.t :=
  match current_window self with
  | Some w => windows self ++ [w]
  | None => windows self
  end.

Definition empty_metrics (self : t) (now : Z) : Snapshot :=
  mkSnapshot now (window_size_seconds self) 0
    (mkScope (0 # 1) (0 # 1) (0 # 1) (0 # 1) (0 # 1) 0 0) [] [] [].

(** The accumulator of [_aggregate_service_metrics] and
    [_aggregate_endpoint_metrics]: requests, errors and latencies per key. *)
Record Agg : Type := mkAgg {
  agg_request_count : Z;
  agg_error_count : Z;
  agg_response_times : list Q
}.

Definition agg_empty : Agg := mkAgg 0 0 [].

Definition agg_add (stats : Stat.t) (a : Agg) : Agg :=
  mkAgg (agg_request_count a + Stat.request_count stats)
        (agg_error_count a + Stat.error_count stats)
        (agg_response_times a ++ Stat.response_times stats).

Definition aggregate_stats (per_window : list (Py.pydict Stat.t))
  : Py.pydict Agg :=
  fold_left
    (fun acc d =>
       fold_left
         (fun acc' '(name, stats) =>
            Py.dict_update agg_empty (agg_add stats) acc' name)
         d acc)
    per_window [].

(** The metrics of one scope from its counts and latencies. *)
Definition scope_metrics (self : t) (request_count error_count : Z)
    (response_times : list Q) : option ScopeMetrics :=
  q ← truediv request_count (window_size_seconds self);
  rate ← (if 0 <? request_count
          then r ← truediv error_count request_count; Some (r * (100 # 1))%Q
          else Some (0 # 1)%Q);
  let avg := match response_times with
             | [] => (0 # 1)%Q
             | _ :: _ => Py.mean response_times
             end in
  p95 ← calculate_percentile response_times (95 # 1)%Q;
  p99 ← calculate_percentile response_times (99 # 1)%Q;
  Some (mkScope (Py.round2 q) (Py.round2 rate) (Py.round2 avg)
          (Py.round2 p95) (Py.round2 p99) request_count error_count).

Fixpoint finish_aggregate (self : t) (agg : Py.pydict Agg)
  : option (Py.pydict ScopeMetrics) :=
  match agg with
  | [] => Some []
  | (name, a) :: rest =>
      m ← scope_metrics self (agg_request_count a) (agg_error_count a)
            (agg_response_times a);
      rest' ← finish_aggregate self rest;
      Some ((name, m) :: rest')
  end.

Definition aggregate_service_metrics (self : t) (ws : list TimeWindow.t)
  : option (Py.pydict ScopeMetrics) :=
  finish_aggregate self (aggregate_stats (map TimeWindow.service_stats ws)).

Definition aggregate_endpoint_metrics (self : t) (ws : list TimeWindow.t)
  : option (Py.pydict ScopeMetrics) :=
  finish_aggregate self (aggregate_stats (map TimeWindow.endpoint_stats ws)).

Fixpoint summaries (ws : list TimeWindow.t) : option (list TimeWindow.Summary) :=
  match ws with
  | [] => Some []
  | w :: rest =>
      s ← TimeWindow.get_summary w;
      rest' ← summaries rest;
      Some (s :: rest')
  end.

(** [get_current_metrics]; [now] is the reading of the clock that becomes the
    snapshot's timestamp, [None] an exception that escapes to the caller. *)
Definition get_current_metrics (self : t) (now : Z) : option Snapshot :=
  let all := all_windows self in
  match all with
  | [] => Some (empty_metrics self now)
  | _ :: _ =>
      let total_requests := Py.sumZ (map TimeWindow.request_count all) in
      let total_errors := Py.sumZ (map TimeWindow.error_count all) in
      let all_response_times := concat (map TimeWindow.response_times all) in
      ov ← scope_metrics self total_requests total_errors all_response_times;
      service_metrics ← aggregate_service_metrics self all;
      endpoint_metrics ← aggregate_endpoint_metrics self all;
      details ← summaries (Py.slice_last 5 all);
      Some (mkSnapshot now (window_size_seconds self) (length all) ov
              service_metrics endpoint_metrics details)
  end.

(** The dictionary returned by [get_stats]. *)
Record StatsView : Type := mkStatsView {
  gs_total_events_processed : Z;
  gs_active_windows : nat;
  gs_max_windows : Z;
  gs_total_window_seconds : Z;
  gs_sub_window_seconds : Z;
  gs_num_sub_windows : Z;
  gs_runtime_seconds : Q;
  gs_events_per_second : Q;
  gs_current_window_start : option Z
}.

(** [get_stats]; [now] is the clock reading the run time is measured to. *)
Definition get_stats (self : t) (now : Z) : StatsView :=
  let runtime := (inject_Z (now - aggregator_start_time self) / (1000000 # 1))%Q in
  mkStatsView (total_events_processed self)
    (length (windows self)
     + match current_window self with Some _ => 1 | None => 0 end)%nat
    (num_sub_windows self) (window_size_seconds self)
    (sub_window_seconds self) (num_sub_windows self) runtime
    (if Qle_bool runtime (0 # 1) then (0 # 1)%Q
     else (inject_Z (total_events_processed self) / runtime)%Q)
    (last_window_start self).

End MetricsAggregator.

(** ** Alert rules and alerts ([alert_manager.py]) *)

Inductive AlertSeverity : Type := LOW | MEDIUM | HIGH | CRITICAL.

Inductive AlertStatus : Type := TRIGGERED | RESOLVED | ACKNOWLEDGED.

Definition severity_value (s : AlertSeverity) : string :=
  match s with
  | LOW => "low"
  | MEDIUM => "medium"
  | HIGH => "high"
  | CRITICAL => "critical"
  end.

(** [bool(x)] on an [Optional[str]]: [None] and the empty string are false. *)
Definition opt_truthy (o : option string) : bool :=
  match o with
  | Some s => nonempty s
  | None => false
  end.

Definition opt_string_eqb (a b : option string) : bool :=
  match a, b with
  | Some x, Some y => String.eqb x y
  | None, None => true
  | _, _ => false
  end.

Module AlertRule.

Record t : Type := mk {
  id : string;
  name : string;
  metric_type : string;
  operator : string;
  threshold : Q;
  severity : AlertSeverity;
  service_name : option string;
  endpoint : option string;
  duration_seconds : Z;
  enabled : bool;
  created_at : Z
}.

End AlertRule.

(** The pieces that [_generate_alert_message] formats into one line; the
    rendering of the two numbers is left out. *)
Record AlertMessage : Type := mkMessage {
  msg_scope : list (string * string);   (* ("service", s) and/or ("endpoint", e) *)
  msg_rule_name : string;
  msg_metric_type : string;
  msg_metric_value : Q;
  msg_operator : string;
  msg_threshold : Q;
  msg_severity : string
}.

Module Alert.

Record t : Type := mk {
  id : string;
  rule_id : string;
  rule_name : string;
  severity : AlertSeverity;
  status : AlertStatus;
  message : AlertMessage;
  metric_value : Q;
  threshold : Q;
  service_name : option string;
  endpoint : option string;
  triggered_at : Z;
  resolved_at : option Z;
  acknowledged_at : option Z
}.

Definition set_resolved (a : t) (now : Z) : t :=
  mk (id a) (rule_id a) (rule_name a) (severity a) RESOLVED (message a)
     (metric_value a) (threshold a) (service_name a) (endpoint a)
     (triggered_at a) (Some now) (acknowledged_at a).

Definition set_acknowledged (a : t) (now : Z) : t :=
  mk (id a) (rule_id a) (rule_name a) (severity a) ACKNOWLEDGED (message a)
     (metric_value a) (threshold a) (service_name a) (endpoint a)
     (triggered_at a) (resolved_at a) (Some now).

End Alert.

(** A registered notification callback: its name, whether it is a coroutine
    function (then it is handed to [asyncio.create_task], on the running event
    loop) and on which alerts the call raises; the exception is caught and
    logged by the manager. *)
Record Callback : Type := mkCallback {
  cb_name : string;
  cb_is_coroutine : bool;
  cb_raises : Alert.t -> bool
}.

(** What a run of the callback loop leaves behind, oldest first.  [ref] is the
    alert object passed, [Alert.t] its fields at the time of the call. *)
Inductive Notification : Type :=
  | Called (cb : string) (ref : nat) (a : Alert.t)
  | Scheduled (cb : string) (ref : nat) (a : Alert.t)
  | CallbackFailed (cb : string).

(** The argument of [check_metrics]: the three entries it reads with
    [.get(..., {})], each scope a dictionary from metric name to value. *)
Record MetricsData : Type := mkMetricsData {
  md_overall : Py.pydict Q;
  md_services : Py.pydict (Py.pydict Q);
  md_endpoints : Py.pydict (Py.pydict Q)
}.

Definition scope_dict (m : ScopeMetrics) : Py.pydict Q :=
  [ ("qps", qps m); ("error_rate", error_rate m);
    ("avg_response_time", avg_response_time m);
    ("p95_response_time", p95_response_time m);
    ("p99_response_time", p99_response_time m);
    ("total_requests", inject_Z (total_requests m));
    ("total_errors", inject_Z (total_errors m)) ].

Definition metrics_data_of (s : Snapshot) : MetricsData :=
  mkMetricsData (scope_dict (overall s))
    (map (fun '(k, m) => (k, scope_dict m)) (services s))
    (map (fun '(k, m) => (k, scope_dict m)) (endpoints s)).

(** [key.split(":", 1)] when the key holds a colon. *)
Fixpoint split_colon (s : string) : option (string * string) :=
  match s with
  | EmptyString => None
  | String c rest =>
      if Ascii.eqb c ":"%char then Some (EmptyString, rest)
      else
        match split_colon rest with
        | Some (a, b) => Some (String c a, b)
        | None => None
        end
  end.

(** [":".join(parts)]. *)
Fixpoint join_colon (parts : list string) : string :=
  match parts with
  | [] => ""
  | [p] => p
  | p :: rest => p +:+ ":" +:+ join_colon rest
  end.

(** ** [AlertManager]

    Alert objects are shared: the active-alert dictionary, the history list
    and the callbacks all hold the same object, and resolving or acknowledging
    an alert mutates it in place.  The objects therefore live in a store
    ([alerts], addressed by allocation index), and the dictionary and the
    history hold references.  [clock] is the sequence of readings that
    successive [datetime.utcnow()] calls return; [ticks] counts the readings
    taken so far. *)

Module AlertManager.

Record Stats : Type := mkStats {
  total_alerts_triggered : Z;
  total_alerts_resolved : Z;
  rule_checks_performed : Z;
  last_check_time : option Z;
  start_time : Z
}.

Record t : Type := mk {
  alert_rules : Py.pydict AlertRule.t;
  alerts : list Alert.t;                    (* the object store *)
  active_alerts : gmap string nat;
  alert_history : list nat;
  max_history_size : nat;
  alert_callbacks : list Callback;
  stats : Stats;
  notifications : list Notification;
  ticks : nat
}.

(** The built-in rules; each is stamped with a clock reading of its own. *)
Definition default_rules (clock : nat -> Z) : list AlertRule.t :=
  [ AlertRule.mk "high_error_rate" "高錯誤率告警" "error_rate" ">"
      (5 # 1) HIGH None None 60 true (clock 1%nat);
    AlertRule.mk "critical_error_rate" "嚴重錯誤率告警" "error_rate" ">"
      (10 # 1) CRITICAL None None 30 true (clock 2%nat);
    AlertRule.mk "high_response_time" "高響應時間告警" "p95_response_time"
      ">" (1000 # 1) MEDIUM None None 120 true (clock 3%nat);
    AlertRule.mk "critical_response_time" "嚴重響應時間告警"
      "p99_response_time" ">" (5000 # 1) CRITICAL None None 60 true
      (clock 4%nat);
    AlertRule.mk "low_qps" "低 QPS 告警" "qps" "<"
      (1 # 1) LOW None None 300 true (clock 5%nat) ].

Definition set_rules (self : t) (rules : Py.pydict AlertRule.t) : t :=
  mk rules (alerts self) (active_alerts self) (alert_history self)
     (max_history_size self) (alert_callbacks self) (stats self)
     (notifications self) (ticks self).

(** [add_alert_rule]: a rule with a known id is overwritten. *)
Definition add_alert_rule (rule : AlertRule.t) (self : t) : t :=
  set_rules self (Py.dict_set (alert_rules self) (AlertRule.id rule) rule).

(** [__init__] with [_setup_default_rules]. *)
Definition init (clock : nat -> Z) : t :=
  fold_left (fun self rule => add_alert_rule rule self) (default_rules clock)
    (mk [] [] ∅ [] 1000 [] (mkStats 0 0 0 None (clock 0%nat)) [] 6%nat).

Definition add_alert_callback (cb : Callback) (self : t) : t :=
  mk (alert_rules self) (alerts self) (active_alerts self) (alert_history self)
     (max_history_size self) (alert_callbacks self ++ [cb]) (stats self)
     (notifications self) (ticks self).

Definition evaluate_condition (value : Q) (operator : string) (threshold : Q)
  : bool :=
  if String.eqb operator ">" then negb (Qle_bool value threshold)
  else if String.eqb operator "<" then negb (Qle_bool threshold value)
  else if String.eqb operator ">=" then Qle_bool threshold value
  else if String.eqb operator "<=" then Qle_bool value threshold
  else if String.eqb operator "=="
  then negb (Qle_bool (1 # 1000) (Qabs (value - threshold)))
  else false.

Definition generate_alert_id (rule : AlertRule.t)
    (service_name endpoint : option string) : string :=
  join_colon
    ([AlertRule.id rule]
     ++ (if opt_truthy service_name then [default "" service_name] else [])
     ++ (if opt_truthy endpoint then [default "" endpoint] else [])).

Definition generate_alert_message (rule : AlertRule.t) (metric_value : Q)
    (service_name endpoint : option string) : AlertMessage :=
  mkMessage
    ((if opt_truthy service_name
      then [("service", default "" service_name)] else [])
     ++ (if opt_truthy endpoint
         then [("endpoint", default "" endpoint)] else []))
    (AlertRule.name rule) (AlertRule.metric_type rule) metric_value
    (AlertRule.operator rule) (AlertRule.threshold rule)
    (severity_value (AlertRule.severity rule)).

(** The callback loop shared by [_trigger_alert] and [_resolve_alert]: every
    registered callback is tried in order, a failure is logged and the loop
    goes on. *)
Definition notify_one (ref : nat) (a : Alert.t) (cb : Callback)
  : list Notification :=
  if cb_is_coroutine cb then [Scheduled (cb_name cb) ref a]
  else if cb_raises cb a
       then [Called (cb_name cb) ref a; CallbackFailed (cb_name cb)]
       else [Called (cb_name cb) ref a].

Definition run_callbacks (ref : nat) (a : Alert.t) (cbs : list Callback)
  : list Notification :=
  concat (map (notify_one ref a) cbs).

(** [_trigger_alert] on a freshly built alert. *)
Definition trigger_alert (alert : Alert.t) (self : t) : t :=
  let ref := length (alerts self) in
  let history := alert_history self ++ [ref] in
  let history' :=
    if (max_history_size self <? length history)%nat
    then Py.slice_last (max_history_size self) history
    else history in
  let s := stats self in
  mk (alert_rules self) (alerts self ++ [alert])
     (<[Alert.id alert := ref]> (active_alerts self)) history'
     (max_history_size self) (alert_callbacks self)
     (mkStats (total_alerts_triggered s + 1) (total_alerts_resolved s)
        (rule_checks_performed s) (last_check_time s) (start_time s))
     (notifications self ++ run_callbacks ref alert (alert_callbacks self))
     (ticks self).

(** [_resolve_alert]; reads the clock once when the alert is active. *)
Definition resolve_alert (clock : nat -> Z) (alert_id : string) (self : t) : t :=
  match active_alerts self !! alert_id with
  | None => self
  | Some ref =>
      match alerts self !! ref with
      | None => self
      | Some a =>
          let a' := Alert.set_resolved a (clock (ticks self)) in
          let s := stats self in
          mk (alert_rules self) (<[ref := a']> (alerts self))
             (delete alert_id (active_alerts self)) (alert_history self)
             (max_history_size self) (alert_callbacks self)
             (mkStats (total_alerts_triggered s) (total_alerts_resolved s + 1)
                (rule_checks_performed s) (last_check_time s) (start_time s))
             (notifications self ++ run_callbacks ref a' (alert_callbacks self))
             (S (ticks self))
      end
  end.

(** [acknowledge_alert], with the flag it returns. *)
Definition acknowledge_alert (clock : nat -> Z) (alert_id : string) (self : t)
  : bool * t :=
  match active_alerts self !! alert_id with
  | None => (false, self)
  | Some ref =>
      match alerts self !! ref with
      | None => (false, self)
      | Some a =>
          (true,
           mk (alert_rules self)
              (<[ref := Alert.set_acknowledged a (clock (ticks self))]>
                 (alerts self))
              (active_alerts self) (alert_history self)
              (max_history_size self) (alert_callbacks self) (stats self)
              (notifications self) (S (ticks self)))
      end
  end.

Definition tick (self : t) : t :=
  mk (alert_rules self) (alerts self) (active_alerts self) (alert_history self)
     (max_history_size self) (alert_callbacks self) (stats self)
     (notifications self) (S (ticks self)).

(** [_evaluate_rule]. *)
Definition evaluate_rule (clock : nat -> Z) (rule : AlertRule.t)
    (metrics : Py.pydict Q) (service_name endpoint : option string)
    (self : t) : t :=
  match Py.dict_get metrics (AlertRule.metric_type rule) with
  | None => self
  | Some metric_value =>
      let condition_met :=
        evaluate_condition metric_value (AlertRule.operator rule)
          (AlertRule.threshold rule) in
      let alert_id := generate_alert_id rule service_name endpoint in
      if condition_met then
        match active_alerts self !! alert_id with
        | Some _ => self
        | None =>
            let alert :=
              Alert.mk alert_id (AlertRule.id rule) (AlertRule.name rule)
                (AlertRule.severity rule) TRIGGERED
                (generate_alert_message rule metric_value service_name endpoint)
                metric_value (AlertRule.threshold rule) service_name endpoint
                (clock (ticks self)) None None in
            trigger_alert alert (tick self)
        end
      else
        match active_alerts self !! alert_id with
        | Some _ => resolve_alert clock alert_id self
        | None => self
        end
  end.

(** The guards of the three loops: a rule for which the guard holds is
    passed over ([continue]). *)
Definition skips_overall (rule : AlertRule.t) : bool :=
  negb (AlertRule.enabled rule)
  || opt_truthy (AlertRule.service_name rule)
  || opt_truthy (AlertRule.endpoint rule).

Definition skips_service (rule : AlertRule.t) (service_name : string) : bool :=
  negb (AlertRule.enabled rule)
  || (opt_truthy (AlertRule.service_name rule)
      && negb (opt_string_eqb (AlertRule.service_name rule) (Some service_name)))
  || opt_truthy (AlertRule.endpoint rule).

Definition skips_endpoint (rule : AlertRule.t) (service_name : option string)
    (endpoint : string) : bool :=
  negb (AlertRule.enabled rule)
  || (opt_truthy (AlertRule.service_name rule)
      && negb (opt_string_eqb (AlertRule.service_name rule) service_name))
  || (opt_truthy (AlertRule.endpoint rule)
      && negb (opt_string_eqb (AlertRule.endpoint rule) (Some endpoint))).

Definition check_overall_metrics (clock : nat -> Z)
    (overall_metrics : Py.pydict Q) (self : t) : t :=
  fold_left
    (fun st '(_, rule) =>
       if skips_overall rule then st
       else evaluate_rule clock rule overall_metrics None None st)
    (alert_rules self) self.

Definition check_service_metrics (clock : nat -> Z) (service_name : string)
    (service_metrics : Py.pydict Q) (self : t) : t :=
  fold_left
    (fun st '(_, rule) =>
       if skips_service rule service_name then st
       else evaluate_rule clock rule service_metrics (Some service_name) None st)
    (alert_rules self) self.

(** The service and endpoint that [_check_endpoint_metrics] reads off a key. *)
Definition parse_endpoint_key (endpoint_key : string) : option string * string :=
  match split_colon endpoint_key with
  | Some (s, e) => (Some s, e)
  | None => (None, endpoint_key)
  end.

Definition check_endpoint_metrics (clock : nat -> Z) (endpoint_key : string)
    (endpoint_metrics : Py.pydict Q) (self : t) : t :=
  let '(service_name, endpoint) := parse_endpoint_key endpoint_key in
  fold_left
    (fun st '(_, rule) =>
       if skips_endpoint rule service_name endpoint then st
       else evaluate_rule clock rule endpoint_metrics service_name
              (Some endpoint) st)
    (alert_rules self) self.

(** [check_metrics]. *)
Definition check_metrics (clock : nat -> Z) (metrics_data : MetricsData)
    (self : t) : t :=
  let s := stats self in
  let self0 :=
    mk (alert_rules self) (alerts self) (active_alerts self)
       (alert_history self) (max_history_size self) (alert_callbacks self)
       (mkStats (total_alerts_triggered s) (total_alerts_resolved s)
          (rule_checks_performed s + 1) (Some (clock (ticks self)))
          (start_time s))
       (notifications self) (S (ticks self)) in
  let self1 := check_overall_metrics clock (md_overall metrics_data) self0 in
  let self2 :=
    fold_left
      (fun st '(service_name, service_metrics) =>
         check_service_metrics clock service_name service_metrics st)
      (md_services metrics_data) self1 in
  fold_left
    (fun st '(endpoint_key, endpoint_metrics) =>
       check_endpoint_metrics clock endpoint_key endpoint_metrics st)
    (md_endpoints metrics_data) self2.

(** [remove_alert_rule], with the flag it returns. *)
Definition remove_alert_rule (rule_id : string) (self : t) : bool * t :=
  if Py.dict_mem (alert_rules self) rule_id
  then (true, set_rules self (Py.dict_del (alert_rules self) rule_id))
  else (false, self).

(** The alert objects behind a list of references. *)
Definition objects (self : t) (refs : list nat) : list Alert.t :=
  omap (fun ref => alerts self !! ref) refs.

(** [self.active_alerts.values()], in some order. *)
Definition active_objects (self : t) : list Alert.t :=
  objects self (map snd (map_to_list (active_alerts self))).

Definition severity_eqb (a b : AlertSeverity) : bool :=
  match a, b with
  | LOW, LOW | MEDIUM, MEDIUM | HIGH, HIGH | CRITICAL, CRITICAL => true
  | _, _ => false
  end.

Definition count_severity (sev : AlertSeverity) (l : list Alert.t) : Z :=
  Z.of_nat (length (List.filter (fun a => severity_eqb (Alert.severity a) sev) l)).

(** The dictionary returned by [get_alert_summary]. *)
Record Summary : Type := mkSummary {
  active_alerts_count : nat;
  active_alerts_by_severity : Py.pydict Z;
  total_rules : nat;
  enabled_rules : nat;
  alerts_last_24h : nat;
  sum_last_check_time : option Z;
  sum_total_alerts_triggered : Z;
  sum_total_alerts_resolved : Z
}.

(** [get_alert_summary]; it reads the clock once. *)
Definition get_alert_summary (clock : nat -> Z) (self : t) : Summary * t :=
  let active := active_objects self in
  let severity_counts :=
    map (fun sev => (severity_value sev, count_severity sev active))
      [LOW; MEDIUM; HIGH; CRITICAL] in
  let now := clock (ticks self) in
  let last_24h := now - 24 * 3600 * 1000000 in
  let recent_alerts :=
    List.filter (fun a => last_24h <=? Alert.triggered_at a)
      (objects self (alert_history self)) in
  (mkSummary (size (active_alerts self)) severity_counts
     (length (alert_rules self))
     (length (List.filter (fun '(_, r) => AlertRule.enabled r) (alert_rules self)))
     (length recent_alerts)
     (last_check_time (stats self))
     (total_alerts_triggered (stats self))
     (total_alerts_resolved (stats self)),
   tick self).

End AlertManager.

(** ** The batch buffer of [StorageManager] ([storage_manager.py]) *)

Module StorageManager.

(** A pending record: the dictionary that [_add_to_batch] builds, with the
    scope's metrics spread into it. *)
Record Row : Type := mkRow {
  row_timestamp : Z;
  row_window_start : Z;
  row_window_end : Z;
  row_service_name : option string;
  row_endpoint : option string;
  row_metric_type : string;
  row_metrics : Py.pydict Q;
  row_additional_data : Py.pydict Z
}.

(** The tuple bound to the fourteen parameters of the insert statement. *)
Record BatchTuple : Type := mkTuple {
  t_timestamp : Z;
  t_window_start : Z;
  t_window_end : Z;
  t_service_name : option string;
  t_endpoint : option string;
  t_metric_type : string;
  t_qps : Q;
  t_error_rate : Q;
  t_avg_response_time : Q;
  t_p95_response_time : Q;
  t_p99_response_time : Q;
  t_total_requests : Q;
  t_total_errors : Q;
  t_additional_data : Py.pydict Z
}.

Inductive exn : Type := Exn (msg : string).

Inductive LogEntry : Type :=
  | LogBatchDone (n : nat)          (* info: the batch of n records is written *)
  | LogBatchFailed (e : exn).       (* error: the batch write failed with e *)

(** The connection pool as the manager sees it: borrowing a connection,
    running the multi-row insert and handing the connection back at the end
    of the [async with] block each either succeed or raise. *)
Record Pool : Type := mkPool {
  acquire : option exn;
  executemany : list BatchTuple -> option exn;
  release : option exn
}.

Record Stats : Type := mkStats {
  total_postgres_writes : Z;
  total_redis_writes : Z;
  batch_writes : Z;
  failed_writes : Z;
  last_write_time : option Z;
  start_time : Z
}.

Record t : Type := mk {
  batch_size : Z;
  batch_timeout_seconds : Z;
  redis_ttl_seconds : Z;
  pending_metrics : list Row;
  last_batch_time : Z;
  postgres_pool : option Pool;
  stats : Stats;
  table : list BatchTuple;       (* the rows the store has accepted *)
  log : list LogEntry;
  ticks : nat
}.

Definition init (clock : nat -> Z) (batch_size batch_timeout_seconds
    redis_ttl_seconds : Z) : t :=
  mk batch_size batch_timeout_seconds redis_ttl_seconds [] (clock 0%nat) None
     (mkStats 0 0 0 0 None (clock 1%nat)) [] [] 2%nat.

(** [record[key]] of a metric; [KeyError] is an exception like any other. *)
Definition field (r : Row) (key : string) : exn + Q :=
  match Py.dict_get (row_metrics r) key with
  | Some v => inr v
  | None => inl (Exn key)
  end.

Definition bind_exn {A B} (m : exn + A) (f : A -> exn + B) : exn + B :=
  match m with
  | inl e => inl e
  | inr a => f a
  end.

Definition row_tuple (r : Row) : exn + BatchTuple :=
  bind_exn (field r "qps") (fun q =>
  bind_exn (field r "error_rate") (fun er =>
  bind_exn (field r "avg_response_time") (fun avg =>
  bind_exn (field r "p95_response_time") (fun p95 =>
  bind_exn (field r "p99_response_time") (fun p99 =>
  bind_exn (field r "total_requests") (fun tr =>
  bind_exn (field r "total_errors") (fun te =>
  inr (mkTuple (row_timestamp r) (row_window_start r) (row_window_end r)
         (row_service_name r) (row_endpoint r) (row_metric_type r)
         q er avg p95 p99 tr te (row_additional_data r))))))))).

Fixpoint batch_data (rows : list Row) : exn + list BatchTuple :=
  match rows with
  | [] => inr []
  | r :: rest =>
      bind_exn (row_tuple r) (fun tup =>
      bind_exn (batch_data rest) (fun tups => inr (tup :: tups)))
  end.

(** The body of the [try] block up to and including the insert: the batch
    that was written, or the exception that was raised. *)
Definition try_insert (self : t) : exn + list BatchTuple :=
  match postgres_pool self with
  | None => inl (Exn "'NoneType' object has no attribute 'acquire'")
  | Some pool =>
      match acquire pool with
      | Some e => inl e
      | None =>
          bind_exn (batch_data (pending_metrics self)) (fun batch =>
          match executemany pool batch with
          | Some e => inl e
          | None => inr batch
          end)
      end
  end.

(** The statements that follow a successful insert inside the [try] block. *)
Definition after_insert (clock : nat -> Z) (batch : list BatchTuple)
    (self : t) : t :=
  let s := stats self in
  mk (batch_size self) (batch_timeout_seconds self) (redis_ttl_seconds self)
     []
     (clock (S (ticks self)))
     (postgres_pool self)
     (mkStats (total_postgres_writes s + Z.of_nat (length batch))
        (total_redis_writes s) (batch_writes s + 1) (failed_writes s)
        (Some (clock (ticks self))) (start_time s))
     (table self ++ batch)
     (log self ++ [LogBatchDone (length batch)])
     (S (S (ticks self))).

(** The [try] block as a whole: the state it leaves and the exception it
    raised, if any.  Leaving the [async with] block hands the connection
    back, which is the last thing that can raise. *)
Definition try_block (clock : nat -> Z) (self : t) : t * option exn :=
  match try_insert self with
  | inl e => (self, Some e)
  | inr batch =>
      (after_insert clock batch self,
       match postgres_pool self with
       | Some pool => release pool
       | None => None
       end)
  end.

(** The [except Exception] handler. *)
Definition on_failure (clock : nat -> Z) (e : exn) (self : t) : t :=
  let s := stats self in
  mk (batch_size self) (batch_timeout_seconds self) (redis_ttl_seconds self)
     []
     (clock (ticks self))
     (postgres_pool self)
     (mkStats (total_postgres_writes s) (total_redis_writes s)
        (batch_writes s) (failed_writes s + 1)
        (last_write_time s) (start_time s))
     (table self)
     (log self ++ [LogBatchFailed e])
     (S (ticks self)).

(** [_execute_batch_write]. *)
Definition execute_batch_write (clock : nat -> Z) (self : t) : t :=
  match pending_metrics self with
  | [] => self
  | _ :: _ =>
      match try_block clock self with
      | (self1, None) => self1
      | (self1, Some e) => on_failure clock e self1
      end
  end.

(** [_check_batch_write]: flush on a full buffer or after the timeout. *)
Definition check_batch_write (clock : nat -> Z) (self : t) : t :=
  let now := clock (ticks self) in
  let self1 :=
    mk (batch_size self) (batch_timeout_seconds self) (redis_ttl_seconds self)
       (pending_metrics self) (last_batch_time self) (postgres_pool self)
       (stats self) (table self) (log self) (S (ticks self)) in
  if (batch_size self <=? Z.of_nat (length (pending_metrics self)))
     || (batch_timeout_seconds self * 1000000 <=? now - last_batch_time self)
  then execute_batch_write clock self1
  else self1.

(** The service and endpoint that [_add_to_batch] reads off an endpoint key. *)
Definition split_endpoint_key (endpoint_key : string) : option string * string :=
  match split_colon endpoint_key with
  | Some (s, e) => (Some s, e)
  | None => (None, endpoint_key)
  end.

(** The records that [_add_to_batch] builds from a snapshot: one for the
    whole system, one per service and one per endpoint key. *)
Definition rows_of (metrics_data : Snapshot) : list Row :=
  let timestamp := snap_timestamp metrics_data in
  let window_start :=
    timestamp - snap_window_size_seconds metrics_data * 1000000 in
  let window_end := timestamp in
  [ mkRow timestamp window_start window_end None None "overall"
      (scope_dict (overall metrics_data))
      [ ("active_windows", Z.of_nat (active_windows metrics_data));
        ("window_size_seconds", snap_window_size_seconds metrics_data) ] ]
  ++ map (fun '(service_name, service_metrics) =>
            mkRow timestamp window_start window_end (Some service_name) None
              "service" (scope_dict service_metrics) [])
         (services metrics_data)
  ++ map (fun '(endpoint_key, endpoint_metrics) =>
            let '(service_name, endpoint) := split_endpoint_key endpoint_key in
            mkRow timestamp window_start window_end service_name
              (Some endpoint) "endpoint" (scope_dict endpoint_metrics) [])
         (endpoints metrics_data).

Definition set_pending (rows : list Row) (self : t) : t :=
  mk (batch_size self) (batch_timeout_seconds self) (redis_ttl_seconds self)
     rows (last_batch_time self) (postgres_pool self) (stats self)
     (table self) (log self) (ticks self).

(** [_add_to_batch]. *)
Definition add_to_batch (metrics_data : Snapshot) (self : t) : t :=
  set_pending (pending_metrics self ++ rows_of metrics_data) self.

(** [_init_postgres_pool] when the pool could be created. *)
Definition connect (pool : Pool) (self : t) : t :=
  mk (batch_size self) (batch_timeout_seconds self) (redis_ttl_seconds self)
     (pending_metrics self) (last_batch_time self) (Some pool) (stats self)
     (table self) (log self) (ticks self).

(** What [_update_redis_cache] leaves in the manager.  [redis] is [None]
    without a client, else whether the pipeline went through; a failure is
    caught inside the function. *)
Definition update_redis_cache (redis : option bool) (self : t) : t :=
  match redis with
  | Some true =>
      let s := stats self in
      mk (batch_size self) (batch_timeout_seconds self)
         (redis_ttl_seconds self) (pending_metrics self)
         (last_batch_time self) (postgres_pool self)
         (mkStats (total_postgres_writes s) (total_redis_writes s + 1)
            (batch_writes s) (failed_writes s) (last_write_time s)
            (start_time s))
         (table self) (log self) (ticks self)
  | _ => self
  end.

(** [store_metrics] on a snapshot of the aggregator. *)
Definition store_metrics (clock : nat -> Z) (redis : option bool)
    (metrics_data : Snapshot) (self : t) : t :=
  check_batch_write clock
    (add_to_batch metrics_data (update_redis_cache redis self)).

(** [force_batch_write]. *)
Definition force_batch_write (clock : nat -> Z) (self : t) : t :=
  execute_batch_write clock self.

End StorageManager.

(** ** The event handler and the loops of [MetricsProcessor]
    ([metrics_processor.py])

    The processor owns one aggregator, one storage manager and one alert
    manager, each absent until [initialize] has run.  A loop is modelled by
    one pass through its body, after the sleep. *)

Module MetricsProcessor.

Record Stats : Type := mkStats {
  total_events_processed : Z;
  total_aggregations : Z;
  total_storage_operations : Z;
  total_alert_checks : Z;
  start_time : option Z;
  last_processing_time : option Z;
  errors_count : Z
}.

Record t : Type := mk {
  metrics_aggregator : option MetricsAggregator.t;
  storage_manager : option StorageManager.t;
  alert_manager : option AlertManager.t;
  stats : Stats
}.

Definition init : t := mk None None None (mkStats 0 0 0 0 None None 0).

Definition count_error (self : t) : t :=
  let s := stats self in
  mk (metrics_aggregator self) (storage_manager self) (alert_manager self)
     (mkStats (total_events_processed s) (total_aggregations s)
        (total_storage_operations s) (total_alert_checks s) (start_time s)
        (last_processing_time s) (errors_count s + 1)).

(** [_handle_event]: the event goes to the aggregator, if there is one, and
    is counted in any case. *)
Definition handle_event (event : MetricsEvent) (self : t) : t :=
  let s := stats self in
  mk (option_map (MetricsAggregator.add_event event) (metrics_aggregator self))
     (storage_manager self) (alert_manager self)
     (mkStats (total_events_processed s + 1) (total_aggregations s)
        (total_storage_operations s) (total_alert_checks s) (start_time s)
        (last_processing_time s) (errors_count s)).

(** [_handle_event] on an event with an aware time stamp: the aggregator
    swallows the [TypeError] itself, so the processor counts the event like
    any other. *)
Definition handle_aware_event (event : MetricsEvent) (self : t) : t :=
  let s := stats self in
  mk (option_map (MetricsAggregator.add_aware_event event)
        (metrics_aggregator self))
     (storage_manager self) (alert_manager self)
     (mkStats (total_events_processed s + 1) (total_aggregations s)
        (total_storage_operations s) (total_alert_checks s) (start_time s)
        (last_processing_time s) (errors_count s)).

(** One pass of [_storage_loop]: a snapshot is stored only when it reports
    requests.  [now] is the reading that stamps the snapshot, [clock] the
    readings of the storage manager; an exception of [get_current_metrics]
    ends the pass in the handler of the loop. *)
Definition storage_step (clock : nat -> Z) (redis : option bool) (now : Z)
    (self : t) : t :=
  match metrics_aggregator self with
  | None => self
  | Some aggregator =>
      match MetricsAggregator.get_current_metrics aggregator now with
      | None => count_error self
      | Some current_metrics =>
          if 0 <? total_requests (overall current_metrics) then
            match storage_manager self with
            | None => self
            | Some storage =>
                let s := stats self in
                mk (metrics_aggregator self)
                   (Some (StorageManager.store_metrics clock redis
                            current_metrics storage))
                   (alert_manager self)
                   (mkStats (total_events_processed s) (total_aggregations s)
                      (total_storage_operations s + 1) (total_alert_checks s)
                      (start_time s) (last_processing_time s) (errors_count s))
            end
          else self
      end
  end.

(** One pass of [_alert_check_loop]: every snapshot is checked, the empty
    one of an idle aggregator included. *)
Definition alert_check_step (clock : nat -> Z) (now : Z) (self : t) : t :=
  match metrics_aggregator self, alert_manager self with
  | Some aggregator, Some alerts =>
      match MetricsAggregator.get_current_metrics aggregator now with
      | None => count_error self
      | Some current_metrics =>
          let s := stats self in
          mk (metrics_aggregator self) (storage_manager self)
             (Some (AlertManager.check_metrics clock
                      (metrics_data_of current_metrics) alerts))
             (mkStats (total_events_processed s) (total_aggregations s)
                (total_storage_operations s) (total_alert_checks s + 1)
                (start_time s) (last_processing_time s) (errors_count s))
      end
  | _, _ => self
  end.

End MetricsProcessor.

(** ** Vocabulary of the properties *)

(** The aggregator after a sequence of events, oldest first. *)
Definition ingest (events : list MetricsEvent) (a : MetricsAggregator.t)
  : MetricsAggregator.t :=
  fold_left (fun a e => MetricsAggregator.add_event e a) events a.

(** An aggregator as the constructor leaves it, fed with events. *)
Definition reachable (a : MetricsAggregator.t) : Prop :=
  exists window_size sub_window t0 a0 events,
    MetricsAggregator.init window_size sub_window t0 = Some a0 /\
    a = ingest events a0.

(** Starts of the live sub-windows, the sealed ones first, the current last. *)
Definition starts (a : MetricsAggregator.t) : list Z :=
  map TimeWindow.window_start (MetricsAggregator.all_windows a).

(** A start on a sub-window boundary: a whole number of seconds that is a
    multiple of the sub-window length. *)
Definition on_boundary (sub_window_seconds start : Z) : Prop :=
  exists q, start = q * sub_window_seconds * 1000000.

Definition aligned_starts (a : MetricsAggregator.t) : Prop :=
  Forall (on_boundary (MetricsAggregator.sub_window_seconds a)) (starts a).

Definition increasing_starts (a : MetricsAggregator.t) : Prop :=
  StronglySorted Z.lt (starts a).

(** A response event of the test service. *)
Definition response_event (t status : Z) (latency : Q) : MetricsEvent :=
  mkEvent "evt" API_RESPONSE t "model-api" "/predict" "POST" status latency.

Definition seconds (n : Z) : Z := n * 1000000.

(** The default aggregator: a 60 s window of 5 s sub-windows. *)
Definition default_aggregator : MetricsAggregator.t :=
  MetricsAggregator.mk 60 5 12 [] None None 0 0.

(** What one [MetricsAggregator.add_event] does to the live sub-windows: it
    leaves the aggregator alone, feeds the current window, or seals the
    current window and opens a new one. *)
Inductive step_shape (e : MetricsEvent) (a a' : MetricsAggregator.t) : Prop :=
  | shape_ignored :
      a' = a -> step_shape e a a'
  | shape_same_window ws w ok w' :
      MetricsAggregator.get_window_start_time a (timestamp e) = Some ws ->
      MetricsAggregator.current_window a = Some w ->
      TimeWindow.window_start w = ws ->
      TimeWindow.add_event e w = (ok, w') ->
      MetricsAggregator.windows a' = MetricsAggregator.windows a ->
      MetricsAggregator.current_window a' = Some w' ->
      step_shape e a a'
  | shape_new_window ws ok w' :
      MetricsAggregator.get_window_start_time a (timestamp e) = Some ws ->
      (forall w, MetricsAggregator.current_window a = Some w ->
                 TimeWindow.window_start w <> ws) ->
      TimeWindow.add_event e
        (TimeWindow.init ws (MetricsAggregator.sub_window_seconds a))
      = (ok, w') ->
      MetricsAggregator.windows a' =
        match MetricsAggregator.current_window a with
        | Some w =>
            Py.deque_append (Z.to_nat (MetricsAggregator.num_sub_windows a))
              (MetricsAggregator.windows a) w
        | None => MetricsAggregator.windows a
        end ->
      MetricsAggregator.current_window a' = Some w' ->
      step_shape e a a'.

(** Counters of a sub-window: errors never outnumber requests. *)
Definition counts_ok (w : TimeWindow.t) : Prop :=
  0 <= TimeWindow.error_count w <= TimeWindow.request_count w.

(** The error rate before rounding, as [get_current_metrics] computes it. *)
Definition expected_error_rate (requests errors : Z) : Q :=
  if 0 <? requests
  then (inject_Z errors / inject_Z requests * (100 # 1))%Q
  else (0 # 1)%Q.

(** [v] is [x] rounded to two decimal places, whichever way an exact tie
    goes: a multiple of 1/100 at most 1/200 away from [x]. *)
Definition rounds_to_cents (x v : Q) : Prop :=
  (exists k : Z, v == k # 100)%Q /\
  (x - (1 # 200) <= v)%Q /\ (v <= x + (1 # 200))%Q.

(** A snapshot with its timestamp replaced. *)
Definition with_timestamp (t : Z) (s : Snapshot) : Snapshot :=
  mkSnapshot t (snap_window_size_seconds s) (active_windows s) (overall s)
    (services s) (endpoints s) (window_details s).

(** What one event adds to an error counter. *)
Definition error_increment (e : MetricsEvent) : Z :=
  if 400 <=? status_code e then 1 else 0.

(** The counters of a scope before an event: those stored under the key, or
    the [defaultdict]'s fresh ones. *)
Definition scope_before (d : Py.pydict Stat.t) (k : string) : Stat.t :=
  default Stat.empty (Py.dict_get d k).

(** Response events stamped with the epoch. *)
Definition at_epoch (e : MetricsEvent) : Prop :=
  event_type e = API_RESPONSE /\ timestamp e = 0.

(** The default aggregator while all it has seen are [n] events of the
    bucket that starts at the epoch. *)
Definition first_bucket (n : Z) (a : MetricsAggregator.t) : Prop :=
  MetricsAggregator.window_size_seconds a = 60 /\
  MetricsAggregator.sub_window_seconds a = 5 /\
  MetricsAggregator.num_sub_windows a = 12 /\
  MetricsAggregator.windows a = [] /\
  match MetricsAggregator.current_window a with
  | None => n = 0
  | Some w =>
      TimeWindow.window_start w = 0 /\ TimeWindow.window_end w = 5000000 /\
      TimeWindow.duration_seconds w = 5 /\ TimeWindow.request_count w = n
  end.

(** Example inputs. *)
Definition one_error_in_three : list MetricsEvent :=
  [ response_event 0 200 (100 # 1); response_event 0 200 (100 # 1);
    response_event 0 500 (100 # 1) ].

Definition negative_latency_event : MetricsEvent :=
  response_event 0 200 (-50 # 1).

Definition zero_latency_event : MetricsEvent :=
  response_event 0 500 (0 # 1).

Definition decile_latencies : list Q :=
  map inject_Z [10; 20; 30; 40; 50; 60; 70; 80; 90; 100].

Definition mixed_errors (ok errors : nat) : list MetricsEvent :=
  repeat (response_event 0 200 (100 # 1)) ok
  ++ repeat (response_event 0 500 (100 # 1)) errors.

Definition example_clock : nat -> Z := fun n => 1000 + Z.of_nat n.

(** The scope and the identity of an alert. *)
Definition alert_scope (a : Alert.t) : option string * option string :=
  (Alert.service_name a, Alert.endpoint a).

Definition alert_identity (a : Alert.t)
  : string * option string * option string :=
  (Alert.rule_id a, Alert.service_name a, Alert.endpoint a).

(** A rule without service and without endpoint. *)
Definition unscoped (rule : AlertRule.t) : Prop :=
  opt_truthy (AlertRule.service_name rule) = false /\
  opt_truthy (AlertRule.endpoint rule) = false.

(** The scopes that a [check_metrics] call visits. *)
Definition scopes_of (md : MetricsData) : list (option string * option string) :=
  (None, None)
  :: map (fun '(s, _) => (Some s, None)) (md_services md)
  ++ map (fun '(k, _) =>
            (fst (AlertManager.parse_endpoint_key k),
             Some (snd (AlertManager.parse_endpoint_key k))))
         (md_endpoints md).

(** A snapshot reduced to its overall entry. *)
Definition overall_only (s : Snapshot) : MetricsData :=
  mkMetricsData (scope_dict (overall s)) [] [].

(** [self'] holds the alert objects of [self], each with its scope kept, and
    every object allocated since has its scope in [S]. *)
Definition grows (S : list (option string * option string))
    (self self' : AlertManager.t) : Prop :=
  (length (AlertManager.alerts self) <= length (AlertManager.alerts self'))%nat /\
  (forall i a, AlertManager.alerts self !! i = Some a ->
     exists a', AlertManager.alerts self' !! i = Some a' /\
                alert_scope a' = alert_scope a) /\
  (forall i a', AlertManager.alerts self' !! i = Some a' ->
     (length (AlertManager.alerts self) <= i)%nat -> In (alert_scope a') S).

(** The dictionary key that belongs to the identity of an alert. *)
Definition alert_key (a : Alert.t) : string :=
  join_colon
    ([Alert.rule_id a]
     ++ (if opt_truthy (Alert.service_name a)
         then [default "" (Alert.service_name a)] else [])
     ++ (if opt_truthy (Alert.endpoint a)
         then [default "" (Alert.endpoint a)] else [])).

(** Every reference of the active-alert dictionary points to an alert of the
    store, and each alert is filed under the key of its own identity. *)
Definition store_ok (self : AlertManager.t) : Prop :=
  forall id ref, AlertManager.active_alerts self !! id = Some ref ->
                 exists a, AlertManager.alerts self !! ref = Some a /\
                           alert_key a = id.

Definition pager : Callback := mkCallback "pager" false (fun _ => false).
Definition mailer : Callback := mkCallback "mailer" true (fun _ => false).
Definition flaky : Callback := mkCallback "flaky" false (fun _ => true).

Definition error_rate_rule : AlertRule.t :=
  AlertRule.mk "high_error_rate" "高錯誤率告警" "error_rate" ">" (5 # 1) HIGH
    None None 60 true 1001.

(** A manager with three callbacks in which [high_error_rate] is active. *)
Definition alarmed_manager : AlertManager.t :=
  AlertManager.check_metrics example_clock
    (mkMetricsData [("error_rate", (6 # 1)%Q)] [] [])
    (AlertManager.add_alert_callback mailer
       (AlertManager.add_alert_callback flaky
          (AlertManager.add_alert_callback pager
             (AlertManager.init example_clock)))).


(** A pool whose insert is refused, and a storage manager with two rows
    waiting for it. *)
Definition refusing_pool : StorageManager.Pool :=
  StorageManager.mkPool None
    (fun _ => Some (StorageManager.Exn "connection reset")) None.

Definition overall_row : StorageManager.Row :=
  StorageManager.mkRow 1000 940 1000 None None "overall"
    (scope_dict (mkScope (1 # 1) (0 # 1) (100 # 1) (100 # 1) (100 # 1) 60 0))
    [("active_windows", 1); ("window_size_seconds", 60)].

Definition with_pending (rows : list StorageManager.Row)
    (pool : option StorageManager.Pool) (self : StorageManager.t)
  : StorageManager.t :=
  StorageManager.mk (StorageManager.batch_size self)
    (StorageManager.batch_timeout_seconds self)
    (StorageManager.redis_ttl_seconds self) rows
    (StorageManager.last_batch_time self) pool (StorageManager.stats self)
    (StorageManager.table self) (StorageManager.log self)
    (StorageManager.ticks self).

Definition loaded_manager : StorageManager.t :=
  with_pending [overall_row; overall_row] (Some refusing_pool)
    (StorageManager.init example_clock 100 5 300).

(** ** Vocabulary of the further properties *)

(** The events that [MetricsAggregator.add_event] looks at. *)
Definition is_response (e : MetricsEvent) : bool :=
  EventType_eqb (event_type e) API_RESPONSE.

(** [bool(event.response_time_ms)]. *)
Definition has_latency (e : MetricsEvent) : bool :=
  Py.truthy (response_time_ms e).

(** The counters of a sub-window say what its event list says, and every
    event of the list lies inside the window. *)
Definition window_consistent (w : TimeWindow.t) : Prop :=
  TimeWindow.request_count w = Z.of_nat (length (TimeWindow.events w)) /\
  TimeWindow.error_count w
  = Z.of_nat (length (List.filter counts_as_error (TimeWindow.events w))) /\
  TimeWindow.response_times w
  = map response_time_ms (List.filter has_latency (TimeWindow.events w)) /\
  (TimeWindow.total_response_time w == Py.sumQ (TimeWindow.response_times w))%Q /\
  Forall (fun e => TimeWindow.window_start w <= timestamp e
                   < TimeWindow.window_end w) (TimeWindow.events w).

(** A sub-window of [sub] seconds. *)
Definition window_shape (sub : Z) (w : TimeWindow.t) : Prop :=
  TimeWindow.duration_seconds w = sub /\
  TimeWindow.window_end w = TimeWindow.window_start w + sub * 1000000.

Definition percentiles_in_order (m : ScopeMetrics) : Prop :=
  (p95_response_time m <= p99_response_time m)%Q.

(** What an in-order stream keeps: [bound] is a time that no later response
    event precedes, and the current sub-window is the bucket of [bound]. *)
Definition ordered_state (bound : option Z) (a : MetricsAggregator.t) : Prop :=
  0 < MetricsAggregator.sub_window_seconds a /\
  (MetricsAggregator.current_window a = None -> MetricsAggregator.windows a = []) /\
  increasing_starts a /\
  forall w, MetricsAggregator.current_window a = Some w ->
    exists b, bound = Some b /\
      MetricsAggregator.get_window_start_time a b
      = Some (TimeWindow.window_start w).

(** The requests held by the live sub-windows. *)
Definition live_requests (a : MetricsAggregator.t) : Z :=
  Py.sumZ (map TimeWindow.request_count (MetricsAggregator.all_windows a)).

(** The live sub-windows hold no more requests than were processed, and all
    of them as long as the deque has not been filled. *)
Definition accounted (a : MetricsAggregator.t) : Prop :=
  Forall (fun w => 0 <= TimeWindow.request_count w)
    (MetricsAggregator.all_windows a) /\
  live_requests a <= MetricsAggregator.total_events_processed a /\
  ((length (MetricsAggregator.windows a)
    < Z.to_nat (MetricsAggregator.num_sub_windows a))%nat ->
   live_requests a = MetricsAggregator.total_events_processed a).

(** The events that [MetricsEvent.from_request_response] builds. *)
Definition factory_built (e : MetricsEvent) : Prop :=
  exists id now service endpoint method status latency,
    e = from_request_response id now service endpoint method status latency.

(** The total of a counter over the entries of a dictionary. *)
Definition dict_sum {V} (f : V -> Z) (d : Py.pydict V) : Z :=
  Py.sumZ (map (fun kv => f (snd kv)) d).

Definition values_satisfy {V} (P : V -> Prop) (d : Py.pydict V) : Prop :=
  Forall (fun kv => P (snd kv)) d.

(** The breakdown of a snapshot by [scopes] accounts for every request and
    every error of the overall entry. *)
Definition breakdown_complete (scopes : Py.pydict ScopeMetrics)
    (total : ScopeMetrics) : Prop :=
  dict_sum total_requests scopes = total_requests total /\
  dict_sum total_errors scopes = total_errors total.

Definition has_service (e : MetricsEvent) : Prop :=
  nonempty (service_name e) = true.

Definition has_endpoint (e : MetricsEvent) : Prop :=
  nonempty (api_endpoint e) = true.

(** The counters that a sub-window keeps per scope add up to its own. *)
Definition scope_totals (d : Py.pydict Stat.t) (w : TimeWindow.t) : Prop :=
  dict_sum Stat.request_count d = TimeWindow.request_count w /\
  dict_sum Stat.error_count d = TimeWindow.error_count w.

(** A scope of a snapshot that reports no error. *)
Definition error_free (m : ScopeMetrics) : Prop :=
  total_errors m = 0 /\ (error_rate m == 0 # 1)%Q.

(** A sub-window in which no counter has seen an error. *)
Definition no_errors (w : TimeWindow.t) : Prop :=
  TimeWindow.error_count w = 0 /\
  values_satisfy (fun st => Stat.error_count st = 0) (TimeWindow.service_stats w) /\
  values_satisfy (fun st => Stat.error_count st = 0) (TimeWindow.endpoint_stats w).

(** An event as the consumer hands it over: its time stamp is a naive
    datetime or an aware one. *)
Inductive Received : Type :=
  | NaiveStamped (event : MetricsEvent)
  | AwareStamped (event : MetricsEvent).

Definition receive (r : Received) (a : MetricsAggregator.t)
  : MetricsAggregator.t :=
  match r with
  | NaiveStamped e => MetricsAggregator.add_event e a
  | AwareStamped e => MetricsAggregator.add_aware_event e a
  end.

Definition ingest_received (received : list Received)
    (a : MetricsAggregator.t) : MetricsAggregator.t :=
  fold_left (fun a r => receive r a) received a.

(** The received events that count: the responses with a naive stamp. *)
Definition counted (r : Received) : bool :=
  match r with
  | NaiveStamped e => is_response e
  | AwareStamped _ => false
  end.

(** A naive time stamp is at or after the epoch; an aware one is not
    constrained. *)
Definition naive_since_epoch (r : Received) : Prop :=
  match r with
  | NaiveStamped e => 0 <= timestamp e
  | AwareStamped _ => True
  end.

(** Example streams. *)
Definition two_buckets : list MetricsEvent :=
  [ response_event 0 200 (100 # 1); response_event (seconds 7) 500 (250 # 1) ].

Definition factory_stream : list MetricsEvent :=
  [ from_request_response "e1" 0 "model-api" "/predict" "POST" 200 (100 # 1);
    from_request_response "e2" 1 "model-api" "/predict" "POST" 500 (250 # 1);
    from_request_response "e3" 2 "model-api" "/health" "GET" 404 (5 # 1) ].

(** Three responses, the second one with an aware stamp that opens the
    next bucket. *)
Definition mixed_stamps : list Received :=
  [ NaiveStamped (response_event 0 200 (100 # 1));
    AwareStamped (response_event (seconds 7) 200 (100 # 1));
    NaiveStamped (response_event (seconds 7) 500 (250 # 1)) ].

Definition pre_epoch_event : MetricsEvent :=
  response_event (-500000) 200 (100 # 1).

(** ** Vocabulary of the alert manager's life cycle *)

(** The public operations of an alert manager. *)
Inductive ManagerOp : Type :=
  | OpCheckMetrics (metrics_data : MetricsData)
  | OpAcknowledge (alert_id : string)
  | OpAddRule (rule : AlertRule.t)
  | OpRemoveRule (rule_id : string)
  | OpAddCallback (cb : Callback)
  | OpSummary.

Definition apply_op (clock : nat -> Z) (op : ManagerOp) (self : AlertManager.t)
  : AlertManager.t :=
  match op with
  | OpCheckMetrics md => AlertManager.check_metrics clock md self
  | OpAcknowledge id => snd (AlertManager.acknowledge_alert clock id self)
  | OpAddRule rule => AlertManager.add_alert_rule rule self
  | OpRemoveRule id => snd (AlertManager.remove_alert_rule id self)
  | OpAddCallback cb => AlertManager.add_alert_callback cb self
  | OpSummary => snd (AlertManager.get_alert_summary clock self)
  end.

Definition run_ops (clock : nat -> Z) (ops : list ManagerOp)
    (self : AlertManager.t) : AlertManager.t :=
  fold_left (fun st op => apply_op clock op st) ops self.

(** A manager as the constructor leaves it, driven through its operations. *)
Definition managed (clock : nat -> Z) (self : AlertManager.t) : Prop :=
  exists ops, self = run_ops clock ops (AlertManager.init clock).

(** The state in which [check_metrics] starts to evaluate the rules. *)
Definition begin_check (clock : nat -> Z) (self : AlertManager.t)
  : AlertManager.t :=
  let s := AlertManager.stats self in
  AlertManager.mk (AlertManager.alert_rules self) (AlertManager.alerts self)
    (AlertManager.active_alerts self) (AlertManager.alert_history self)
    (AlertManager.max_history_size self) (AlertManager.alert_callbacks self)
    (AlertManager.mkStats (AlertManager.total_alerts_triggered s)
       (AlertManager.total_alerts_resolved s)
       (AlertManager.rule_checks_performed s + 1)
       (Some (clock (AlertManager.ticks self))) (AlertManager.start_time s))
    (AlertManager.notifications self) (S (AlertManager.ticks self)).

(** The counters agree with the store and the dictionary of active alerts. *)
Definition ledger (self : AlertManager.t) : Prop :=
  AlertManager.total_alerts_triggered (AlertManager.stats self)
  = Z.of_nat (length (AlertManager.alerts self)) /\
  Z.of_nat (size (AlertManager.active_alerts self))
  = AlertManager.total_alerts_triggered (AlertManager.stats self)
    - AlertManager.total_alerts_resolved (AlertManager.stats self) /\
  0 <= AlertManager.total_alerts_resolved (AlertManager.stats self).

(** An alert is active exactly as long as it is not resolved. *)
Definition lifecycle (self : AlertManager.t) : Prop :=
  (forall id ref, AlertManager.active_alerts self !! id = Some ref ->
     exists a, AlertManager.alerts self !! ref = Some a /\ Alert.id a = id /\
               Alert.status a <> RESOLVED /\ Alert.resolved_at a = None) /\
  (forall ref a, AlertManager.alerts self !! ref = Some a ->
     AlertManager.active_alerts self !! Alert.id a = Some ref \/
     (Alert.status a = RESOLVED /\ is_Some (Alert.resolved_at a))).

(** The history holds the most recent alerts, oldest first. *)
Definition recent_history (self : AlertManager.t) : Prop :=
  AlertManager.max_history_size self = 1000%nat /\
  AlertManager.alert_history self
  = Py.last_n 1000 (seq 0 (length (AlertManager.alerts self))).

Definition unique_rules (self : AlertManager.t) : Prop :=
  NoDup (map fst (AlertManager.alert_rules self)).

Definition manager_ok (self : AlertManager.t) : Prop :=
  ledger self /\ lifecycle self /\ recent_history self /\ unique_rules self.

(** A clock that never runs backwards. *)
Definition monotone (clock : nat -> Z) : Prop :=
  forall i j, (i <= j)%nat -> clock i <= clock j.

(** The time stamps of an alert are in the order of its life, and none lies
    after [bound]. *)
Definition stamps_ordered (bound : Z) (a : Alert.t) : Prop :=
  Alert.triggered_at a <= bound /\
  (forall t, Alert.acknowledged_at a = Some t ->
             Alert.triggered_at a <= t <= bound) /\
  (forall t, Alert.resolved_at a = Some t ->
             Alert.triggered_at a <= t <= bound /\
             forall t', Alert.acknowledged_at a = Some t' -> t' <= t).

Definition stamped (clock : nat -> Z) (self : AlertManager.t) : Prop :=
  Forall (stamps_ordered (clock (AlertManager.ticks self)))
    (AlertManager.alerts self).

(** The scopes that a [check_metrics] call visits, each with its metrics. *)
Definition visited (md : MetricsData)
  : list (option string * option string * Py.pydict Q) :=
  (None, None, md_overall md)
  :: map (fun '(s, m) => (Some s, None, m)) (md_services md)
  ++ map (fun '(k, m) =>
            (fst (AlertManager.parse_endpoint_key k),
             Some (snd (AlertManager.parse_endpoint_key k)), m))
         (md_endpoints md).

(** An alert that an enabled rule of the table asks for on the metrics of
    its scope. *)
Definition justified (rules : Py.pydict AlertRule.t) (md : MetricsData)
    (a : Alert.t) : Prop :=
  exists k rule metrics,
    In (k, rule) rules /\ AlertRule.enabled rule = true /\
    In (Alert.service_name a, Alert.endpoint a, metrics) (visited md) /\
    Py.dict_get metrics (AlertRule.metric_type rule)
    = Some (Alert.metric_value a) /\
    AlertManager.evaluate_condition (Alert.metric_value a)
      (AlertRule.operator rule) (AlertRule.threshold rule) = true /\
    Alert.rule_id a = AlertRule.id rule /\
    Alert.threshold a = AlertRule.threshold rule /\
    Alert.severity a = AlertRule.severity rule.

(** The rule table is [rules], and every alert allocated from [n] on is
    justified. *)
Definition raised_since (n : nat) (rules : Py.pydict AlertRule.t)
    (md : MetricsData) (self : AlertManager.t) : Prop :=
  AlertManager.alert_rules self = rules /\
  forall i a, AlertManager.alerts self !! i = Some a -> (n <= i)%nat ->
              justified rules md a.

(** A string without a colon. *)
Fixpoint colon_free (s : string) : bool :=
  match s with
  | EmptyString => true
  | String c rest => negb (Ascii.eqb c ":"%char) && colon_free rest
  end.

Definition all_disabled (self : AlertManager.t) : Prop :=
  Forall (fun kr => AlertRule.enabled (snd kr) = false)
    (AlertManager.alert_rules self).

(** A rule switched off. *)
Definition disabled (rule : AlertRule.t) : AlertRule.t :=
  AlertRule.mk (AlertRule.id rule) (AlertRule.name rule)
    (AlertRule.metric_type rule) (AlertRule.operator rule)
    (AlertRule.threshold rule) (AlertRule.severity rule)
    (AlertRule.service_name rule) (AlertRule.endpoint rule)
    (AlertRule.duration_seconds rule) false (AlertRule.created_at rule).

(** Metrics on which every default rule fires. *)
Definition hot_metrics : Py.pydict Q :=
  [ ("qps", (0 # 1)%Q); ("error_rate", (20 # 1)%Q);
    ("p95_response_time", (2000 # 1)%Q);
    ("p99_response_time", (6000 # 1)%Q) ].

(** A manager whose five default rules have been replaced, through
    [add_alert_rule], by switched-off copies. *)
Definition mute_ops : list ManagerOp :=
  map (fun rule => OpAddRule (disabled rule))
    (AlertManager.default_rules example_clock).

Definition muted_manager : AlertManager.t :=
  run_ops example_clock mute_ops (AlertManager.init example_clock).

(** A snapshot of [n] services, all of them hot, and the manager after one
    check of 201 of them: 1005 alerts, more than the history holds. *)
Fixpoint crowd_name (n : nat) : string :=
  match n with
  | O => "s"
  | S k => "s" +:+ crowd_name k
  end.

Definition crowd (n : nat) : MetricsData :=
  mkMetricsData [] (map (fun i => (crowd_name i, hot_metrics)) (seq 0 n)) [].

Definition crowded_manager : AlertManager.t :=
  AlertManager.check_metrics example_clock (crowd 201)
    (AlertManager.init example_clock).

(** The operations that lead to [alarmed_manager]. *)
Definition alarm_ops : list ManagerOp :=
  [ OpAddCallback pager; OpAddCallback flaky; OpAddCallback mailer;
    OpCheckMetrics (mkMetricsData [("error_rate", (6 # 1)%Q)] [] []) ].

(** The alert of [alarmed_manager] acknowledged, then resolved by a check
    with a low error rate. *)
Definition settled_ops : list ManagerOp :=
  alarm_ops
  ++ [ OpAcknowledge "high_error_rate";
       OpCheckMetrics (mkMetricsData [("error_rate", (2 # 1)%Q)] [] []) ].

Definition settled_manager : AlertManager.t :=
  run_ops example_clock settled_ops (AlertManager.init example_clock).

(** ** Vocabulary of the storage manager's batches *)

(** The tuple that stands for one scope of a snapshot in the table. *)
Definition scope_tuple (s : Snapshot) (service endpoint : option string)
    (metric_type : string) (m : ScopeMetrics) (additional : Py.pydict Z)
  : StorageManager.BatchTuple :=
  StorageManager.mkTuple (snap_timestamp s)
    (snap_timestamp s - snap_window_size_seconds s * 1000000)
    (snap_timestamp s) service endpoint metric_type
    (qps m) (error_rate m) (avg_response_time m) (p95_response_time m)
    (p99_response_time m) (inject_Z (total_requests m))
    (inject_Z (total_errors m)) additional.

Definition snapshot_tuples (s : Snapshot) : list StorageManager.BatchTuple :=
  [ scope_tuple s None None "overall" (overall s)
      [ ("active_windows", Z.of_nat (active_windows s));
        ("window_size_seconds", snap_window_size_seconds s) ] ]
  ++ map (fun '(name, m) => scope_tuple s (Some name) None "service" m [])
         (services s)
  ++ map (fun '(key, m) =>
            scope_tuple s (fst (StorageManager.split_endpoint_key key))
              (Some (snd (StorageManager.split_endpoint_key key)))
              "endpoint" m [])
         (endpoints s).

(** A pool on which every step of a batch write goes through. *)
Definition healthy (pool : StorageManager.Pool) : Prop :=
  StorageManager.acquire pool = None /\
  (forall batch, StorageManager.executemany pool batch = None) /\
  StorageManager.release pool = None.

(** The operations on a storage manager. *)
Inductive StorageOp : Type :=
  | OpStore (redis : option bool) (metrics_data : Snapshot)
  | OpFlush
  | OpConnect (pool : StorageManager.Pool).

Definition apply_storage_op (clock : nat -> Z) (op : StorageOp)
    (self : StorageManager.t) : StorageManager.t :=
  match op with
  | OpStore redis s => StorageManager.store_metrics clock redis s self
  | OpFlush => StorageManager.force_batch_write clock self
  | OpConnect pool => StorageManager.connect pool self
  end.

Definition run_storage_ops (clock : nat -> Z) (ops : list StorageOp)
    (self : StorageManager.t) : StorageManager.t :=
  fold_left (fun st op => apply_storage_op clock op st) ops self.

Definition batches_done (log : list StorageManager.LogEntry) : list nat :=
  omap (fun entry => match entry with
                     | StorageManager.LogBatchDone n => Some n
                     | StorageManager.LogBatchFailed _ => None
                     end) log.

Definition batches_failed (log : list StorageManager.LogEntry) : nat :=
  length (List.filter (fun entry => match entry with
                                    | StorageManager.LogBatchFailed _ => true
                                    | StorageManager.LogBatchDone _ => false
                                    end) log).

(** The counters of the manager agree with the table and with the log. *)
Definition storage_ledger (self : StorageManager.t) : Prop :=
  let s := StorageManager.stats self in
  StorageManager.total_postgres_writes s
  = Z.of_nat (length (StorageManager.table self)) /\
  StorageManager.batch_writes s
  = Z.of_nat (length (batches_done (StorageManager.log self))) /\
  StorageManager.failed_writes s
  = Z.of_nat (batches_failed (StorageManager.log self)) /\
  length (StorageManager.table self)
  = foldr Nat.add 0%nat (batches_done (StorageManager.log self)).

(** A pool that accepts everything, and a manager connected to it. *)
Definition healthy_pool : StorageManager.Pool :=
  StorageManager.mkPool None (fun _ => None) None.

Definition connected_manager : StorageManager.t :=
  StorageManager.connect healthy_pool
    (StorageManager.init example_clock 100 5 300).

(** Responses of two services on three endpoints. *)
Definition two_services : list MetricsEvent :=
  [ from_request_response "e1" 0 "model-api" "/predict" "POST" 200 (100 # 1);
    from_request_response "e2" 1 "model-api" "/health" "GET" 200 (5 # 1);
    from_request_response "e3" 2 "auth" "/login" "POST" 200 (50 # 1) ].

(** ** Vocabulary of the window details and of the processor *)

(** What every entry of [window_details] satisfies. *)
Definition summary_sound (sub : Z) (d : TimeWindow.Summary) : Prop :=
  TimeWindow.sum_duration_seconds d = sub /\
  TimeWindow.sum_window_end d = TimeWindow.sum_window_start d + sub * 1000000 /\
  0 <= TimeWindow.sum_error_count d <= TimeWindow.sum_request_count d /\
  (0 # 1 <= TimeWindow.sum_error_rate d)%Q /\
  (TimeWindow.sum_error_rate d <= 100 # 1)%Q /\
  (TimeWindow.sum_p95_response_time d <= TimeWindow.sum_p99_response_time d)%Q.

(** What the processor does between its start and its stop. *)
Inductive ProcessorStep : Type :=
  | StepEvent (event : MetricsEvent)
  | StepAwareEvent (event : MetricsEvent)
  | StepStorage (redis : option bool) (now : Z)
  | StepAlertCheck (now : Z).

Definition apply_step (storage_clock alert_clock : nat -> Z)
    (step : ProcessorStep) (self : MetricsProcessor.t) : MetricsProcessor.t :=
  match step with
  | StepEvent event => MetricsProcessor.handle_event event self
  | StepAwareEvent event => MetricsProcessor.handle_aware_event event self
  | StepStorage redis now =>
      MetricsProcessor.storage_step storage_clock redis now self
  | StepAlertCheck now =>
      MetricsProcessor.alert_check_step alert_clock now self
  end.

Definition run_steps (storage_clock alert_clock : nat -> Z)
    (steps : list ProcessorStep) (self : MetricsProcessor.t)
  : MetricsProcessor.t :=
  fold_left (fun st step => apply_step storage_clock alert_clock step st)
    steps self.

(** The events among the steps, in order, each with the kind of its time
    stamp. *)
Definition handled (steps : list ProcessorStep) : list Received :=
  omap (fun step => match step with
                    | StepEvent event => Some (NaiveStamped event)
                    | StepAwareEvent event => Some (AwareStamped event)
                    | _ => None
                    end) steps.




(** A processor after [initialize], its storage manager flushing every
    record at once, and a short run of it. *)
Definition eager_storage : StorageManager.t :=
  StorageManager.connect healthy_pool
    (StorageManager.init example_clock 1 5 300).

Definition running_processor : MetricsProcessor.t :=
  MetricsProcessor.mk (Some default_aggregator) (Some eager_storage)
    (Some (AlertManager.init example_clock))
    (MetricsProcessor.stats MetricsProcessor.init).

Definition short_run : list ProcessorStep :=
  [ StepEvent (response_event 0 200 (100 # 1));
    StepStorage None 1000;
    StepEvent (from_request_response "e2" 1 "model-api" "/predict" "POST" 500
                 (250 # 1));
    StepAlertCheck 2000 ].

(** The same run followed by a response whose time stamp is aware. *)
Definition stamped_run : list ProcessorStep :=
  short_run ++ [ StepAwareEvent (response_event (seconds 7) 200 (100 # 1)) ].

(** * Properties *)

(** ** Sorting, indexing and rounding *)

Section Primitives.

Lemma insert_sorted_length x l :
  length (Py.insert_sorted x l) = S (length l).
Proof.
  induction l as [|y l IH]; simpl; [reflexivity|].
  destruct (Qle_bool x y); simpl; [reflexivity | now rewrite IH].
Qed.

Lemma sorted_length l : length (Py.sorted l) = length l.
Proof.
  induction l as [|x l IH]; simpl; [reflexivity|].
  unfold Py.sorted in *. now rewrite insert_sorted_length, IH.
Qed.

Lemma insert_sorted_perm x l : Permutation (Py.insert_sorted x l) (x :: l).
Proof.
  induction l as [|y l IH]; simpl; [reflexivity|].
  destruct (Qle_bool x y); [reflexivity|].
  rewrite IH. apply perm_swap.
Qed.

Lemma sorted_perm l : Permutation (Py.sorted l) l.
Proof.
  induction l as [|x l IH]; simpl; [reflexivity|].
  change (Permutation (Py.insert_sorted x (Py.sorted l)) (x :: l)).
  rewrite insert_sorted_perm. now constructor.
Qed.

Lemma insert_sorted_ascending x l :
  Sorted Qle l -> Sorted Qle (Py.insert_sorted x l).
Proof.
  induction 1 as [|y l Hs IH Hhd]; simpl.
  - repeat constructor.
  - destruct (Qle_bool x y) eqn:E.
    + apply Qle_bool_iff in E. constructor; now constructor.
    + assert (Hyx : (y <= x)%Q).
      { destruct (Qlt_le_dec y x) as [H|H]; [now apply Qlt_le_weak|].
        apply Qle_bool_iff in H. congruence. }
      constructor; [exact IH|].
      destruct Hhd as [|z l' Hz]; simpl.
      * now constructor.
      * destruct (Qle_bool x z); now constructor.
Qed.

Lemma sorted_ascending l : Sorted Qle (Py.sorted l).
Proof.
  induction l as [|x l IH]; [constructor|].
  now apply insert_sorted_ascending.
Qed.

Lemma int_of_float_floor q : (0 <= q)%Q -> Py.int_of_float q = Qfloor q.
Proof.
  destruct q as [n d]. unfold Qle, Py.int_of_float, Qfloor. simpl.
  intros H. apply Z.quot_div_nonneg; lia.
Qed.

Lemma getitem_nonneg {A} (l : list A) i :
  0 <= i < Z.of_nat (length l) -> Py.getitem l i = nth_error l (Z.to_nat i).
Proof.
  intros H. unfold Py.getitem.
  replace ((0 <=? i) && (i <? Z.of_nat (length l))) with true; [reflexivity|].
  symmetry. apply andb_true_iff. split; [apply Z.leb_le | apply Z.ltb_lt]; lia.
Qed.

Lemma getitem_last {A} (l : list A) :
  l <> [] -> Py.getitem l (-1) = nth_error l (length l - 1)%nat.
Proof.
  intros H. unfold Py.getitem. destruct l as [|a l]; [congruence|].
  cbn [andb Z.leb Z.compare].
  replace ((- Z.of_nat (length (a :: l)) <=? -1) && (-1 <? 0)) with true.
  - f_equal. simpl length. lia.
  - symmetry. apply andb_true_iff.
    split; [apply Z.leb_le | apply Z.ltb_lt]; simpl length; lia.
Qed.

Lemma nth_error_in_range {A} (l : list A) (i : nat) :
  (i < length l)%nat -> exists x, nth_error l i = Some x.
Proof.
  intros H. destruct (nth_error l i) eqn:E; [eauto|].
  apply nth_error_None in E. lia.
Qed.

Lemma round_half_even_bounds x :
  Qfloor x <= Py.round_half_even x <= Qfloor x + 1.
Proof.
  unfold Py.round_half_even.
  destruct (Qcompare _ _); [destruct (Z.even _)| |]; lia.
Qed.

Lemma round_half_even_Z z : Py.round_half_even (inject_Z z) = z.
Proof.
  unfold Py.round_half_even. rewrite Qfloor_Z.
  replace (Qcompare (inject_Z z - inject_Z z) (1 # 2)) with Lt; [reflexivity|].
  symmetry. apply Qlt_alt.
  assert (E : (inject_Z z - inject_Z z == 0 # 1)%Q) by ring.
  rewrite E. reflexivity.
Qed.

Lemma round_half_even_comp x y :
  (x == y)%Q -> Py.round_half_even x = Py.round_half_even y.
Proof.
  intros H. unfold Py.round_half_even.
  rewrite (Qfloor_comp x y H).
  assert (E : (x - inject_Z (Qfloor y) == y - inject_Z (Qfloor y))%Q)
    by now rewrite H.
  now rewrite (Qcompare_comp _ _ E _ _ (Qeq_refl (1 # 2))).
Qed.

Lemma round2_comp x y : (x == y)%Q -> Py.round2 x = Py.round2 y.
Proof.
  intros H. unfold Py.round2. f_equal. apply round_half_even_comp. now rewrite H.
Qed.

Lemma round_half_even_near x :
  (x - (1 # 2) <= inject_Z (Py.round_half_even x))%Q /\
  (inject_Z (Py.round_half_even x) <= x + (1 # 2))%Q.
Proof.
  unfold Py.round_half_even.
  pose proof (Qfloor_le x) as Hlo. pose proof (Qlt_floor x) as Hhi.
  rewrite inject_Z_plus in Hhi. change (inject_Z 1) with (1 # 1)%Q in Hhi.
  destruct (Qcompare_spec (x - inject_Z (Qfloor x)) (1 # 2)) as [E|E|E];
    [destruct (Z.even (Qfloor x))| |];
    rewrite ?inject_Z_plus; change (inject_Z 1) with (1 # 1)%Q;
    split; lra.
Qed.

Lemma round2_near x : rounds_to_cents x (Py.round2 x).
Proof.
  unfold rounds_to_cents, Py.round2.
  split; [eexists; reflexivity|].
  destruct (round_half_even_near (x * (100 # 1))) as [Hlo Hhi].
  set (k := Py.round_half_even (x * (100 # 1))) in *.
  assert (E : (k # 100 == inject_Z k * (1 # 100))%Q).
  { unfold Qeq, inject_Z. simpl. lia. }
  rewrite E. split; lra.
Qed.

Lemma round2_bounds x lo hi :
  (inject_Z lo <= x)%Q -> (x <= inject_Z hi)%Q ->
  (inject_Z lo <= Py.round2 x)%Q /\ (Py.round2 x <= inject_Z hi)%Q.
Proof.
  intros Hlo Hhi. unfold Py.round2.
  set (y := (x * (100 # 1))%Q).
  assert (Hy1 : (inject_Z (lo * 100) <= y)%Q).
  { unfold y. rewrite inject_Z_mult. change (inject_Z 100) with (100 # 1)%Q. lra. }
  assert (Hy2 : (y <= inject_Z (hi * 100))%Q).
  { unfold y. rewrite inject_Z_mult. change (inject_Z 100) with (100 # 1)%Q. lra. }
  pose proof (round_half_even_bounds y) as [Hb1 Hb2].
  apply Qfloor_resp_le in Hy1. rewrite Qfloor_Z in Hy1.
  assert (Hr2 : Py.round_half_even y <= hi * 100).
  { pose proof (Qfloor_resp_le _ _ Hy2) as Hf. rewrite Qfloor_Z in Hf.
    destruct (Z.eq_dec (Qfloor y) (hi * 100)) as [E|E]; [|lia].
    assert (Hyy : (y == inject_Z (hi * 100))%Q).
    { apply Qle_antisym; [assumption|]. rewrite <- E. apply Qfloor_le. }
    rewrite (round_half_even_comp _ _ Hyy), round_half_even_Z. lia. }
  unfold Qle. simpl. split; lia.
Qed.

Lemma Forall_skipn {A} (P : A -> Prop) n (l : list A) :
  Forall P l -> Forall P (skipn n l).
Proof.
  revert l. induction n as [|n IH]; intros l H; simpl; [assumption|].
  destruct H; [constructor | now apply IH].
Qed.

Lemma last_n_length {A} k (l : list A) :
  length (Py.last_n k l) = Nat.min k (length l).
Proof. unfold Py.last_n. rewrite length_skipn. lia. Qed.

Lemma dict_get_set_eq {V} (d : Py.pydict V) k v :
  Py.dict_get (Py.dict_set d k v) k = Some v.
Proof.
  induction d as [|[k' v'] d IH]; simpl.
  - now rewrite String.eqb_refl.
  - destruct (String.eqb k k') eqn:E; simpl; rewrite E; [reflexivity | exact IH].
Qed.

Lemma dict_get_update_eq {V} (dflt : V) f d k :
  Py.dict_get (Py.dict_update dflt f d k) k
  = Some (f (default dflt (Py.dict_get d k))).
Proof.
  unfold Py.dict_update. destruct (Py.dict_get d k); simpl; apply dict_get_set_eq.
Qed.

Lemma truthy_false_iff x : Py.truthy x = false <-> (x == 0 # 1)%Q.
Proof.
  unfold Py.truthy, Qeq. simpl. rewrite negb_false_iff, Z.eqb_eq. lia.
Qed.

Lemma truthy_true_iff x : Py.truthy x = true <-> ~ (x == 0 # 1)%Q.
Proof.
  rewrite <- truthy_false_iff. destruct (Py.truthy x); split; congruence.
Qed.

End Primitives.

(** ** Percentiles *)

Section Percentiles.

(** For a percentile between 0 and 100 the computation interpolates between
    the elements of the sorted sample at the floor and at the ceiling of
    [k = (n - 1) * p / 100]. *)
Lemma percentile_interpolates (L : list Q) (p : Q) :
  L <> [] -> (0 <= p)%Q -> (p <= 100 # 1)%Q ->
  let S := Py.sorted L in
  let k := (inject_Z (Z.of_nat (length L) - 1) * (p / (100 # 1)))%Q in
  exists lo hi v,
    nth_error S (Z.to_nat (Qfloor k)) = Some lo /\
    nth_error S (Z.to_nat (Qceiling k)) = Some hi /\
    calculate_percentile L p = Some v /\
    (v == lo + (k - inject_Z (Qfloor k)) * (hi - lo))%Q.
Proof.
  intros HL Hp0 Hp1 S k.
  assert (Hn : (1 <= length L)%nat) by (destruct L; [congruence | simpl; lia]).
  assert (HlenS : length S = length L) by apply sorted_length.
  set (n := Z.of_nat (length L)) in *.
  assert (Hn1 : (0 <= inject_Z (n - 1))%Q) by (rewrite <- (Zle_Qle 0); lia).
  assert (Hq : (0 <= p / (100 # 1) <= 1)%Q).
  { unfold Qdiv. change (/ (100 # 1))%Q with (1 # 100)%Q. split; lra. }
  assert (Hk0 : (0 <= k)%Q).
  { unfold k. apply Qmult_le_0_compat; [exact Hn1 | apply Hq]. }
  assert (Hk1 : (k <= inject_Z n - 1)%Q).
  { assert (Hk : (k <= inject_Z (n - 1))%Q).
    { unfold k. destruct Hq as [Hq0 Hq1]. revert Hq0 Hq1 Hn1.
      generalize (p / (100 # 1))%Q (inject_Z (n - 1)). intros a b ? ? ?. nra. }
    unfold Z.sub in Hk. rewrite inject_Z_plus in Hk. exact Hk. }
  pose proof (Qfloor_le k) as Hf1. pose proof (Qlt_floor k) as Hf2.
  pose proof (Qle_ceiling k) as Hc1. pose proof (Qceiling_lt k) as Hc2.
  pose proof (Qle_floor_ceiling k) as Hfc.
  set (f := Qfloor k) in *. set (c := Qceiling k) in *.
  rewrite <- Zle_Qle in Hfc.
  assert (Hf2' : (k < inject_Z f + 1)%Q).
  { rewrite inject_Z_plus in Hf2. exact Hf2. }
  assert (Hc2' : (inject_Z c - 1 < k)%Q).
  { unfold Z.sub in Hc2. rewrite inject_Z_plus in Hc2. exact Hc2. }
  assert (Hf0 : 0 <= f) by (apply (Qfloor_resp_le 0 k) in Hk0; exact Hk0).
  assert (Hfn : f < n) by (rewrite Zlt_Qlt; lra).
  assert (Hcf : c <= f + 1).
  { assert (c < f + 2); [|lia]. rewrite Zlt_Qlt, inject_Z_plus.
    change (inject_Z 2) with (2 # 1)%Q. lra. }
  assert (Hcn : c < n) by (rewrite Zlt_Qlt; lra).
  destruct (nth_error_in_range S (Z.to_nat f)) as [lo Hlo]; [lia|].
  destruct (nth_error_in_range S (Z.to_nat c)) as [hi Hhi]; [lia|].
  assert (Hcalc : calculate_percentile L p =
           if n <=? f + 1 then Py.getitem S (-1)
           else lo' ← Py.getitem S f; hi' ← Py.getitem S (f + 1);
                Some (lo' + (k - inject_Z f) * (hi' - lo'))%Q).
  { unfold calculate_percentile. destruct L as [|x L']; [congruence|].
    fold S. rewrite HlenS. fold n. fold k.
    rewrite (int_of_float_floor k Hk0). reflexivity. }
  destruct (Z.leb_spec n (f + 1)) as [Hlast|Hmid].
  - (* both indices are the last one *)
    assert (f = n - 1) by lia. assert (c = n - 1) by lia.
    exists lo, hi, lo. repeat split; try assumption.
    + rewrite Hcalc, getitem_last.
      * rewrite <- Hlo. f_equal. lia.
      * intros E. rewrite E in HlenS. simpl in HlenS. lia.
    + assert (hi = lo) as -> by congruence. ring.
  - destruct (nth_error_in_range S (Z.to_nat (f + 1))) as [hi' Hhi']; [lia|].
    exists lo, hi, (lo + (k - inject_Z f) * (hi' - lo))%Q.
    repeat split; try assumption.
    + rewrite Hcalc, !getitem_nonneg by lia. rewrite Hlo, Hhi'. reflexivity.
    + assert (Hc : c = f + 1 \/ c = f) by lia. destruct Hc as [Hc|Hc].
      * assert (hi = hi') as -> by congruence. reflexivity.
      * assert (Hkf : (k == inject_Z f)%Q) by (rewrite Hc in Hc1; lra).
        rewrite Hkf. ring.
Qed.

Lemma calculate_percentile_total L p :
  (0 <= p)%Q -> (p <= 100 # 1)%Q -> exists v, calculate_percentile L p = Some v.
Proof.
  intros H0 H1. destruct L as [|x L].
  - now exists (0 # 1)%Q.
  - destruct (percentile_interpolates (x :: L) p) as (lo & hi & v & _ & _ & Hv & _);
      [discriminate | assumption | assumption | eauto].
Qed.

(** C4.  The percentile of an empty sample is zero and that of a one-element
    sample is the element.  For every non-empty sample [L] and every
    percentile [p] from 0 to 100 (95 and 99 among them) the computation
    returns [S[floor k] + (k - floor k) * (S[ceil k] - S[floor k])], where [S]
    is [L] in ascending order and [k = (n - 1) * p / 100].  For the latencies
    10, 20, ..., 100 the 95th percentile is 95.5 and the 99th is 99.1. *)
Theorem percentile_linear_interpolation :
  (forall p, calculate_percentile [] p = Some (0 # 1)%Q) /\
  (forall x p, calculate_percentile [x] p = Some x) /\
  (forall (L : list Q) (p : Q),
     L <> [] -> (0 <= p)%Q -> (p <= 100 # 1)%Q ->
     let S := Py.sorted L in
     let k := (inject_Z (Z.of_nat (length L) - 1) * (p / (100 # 1)))%Q in
     Sorted Qle S /\ Permutation S L /\
     exists lo hi v,
       nth_error S (Z.to_nat (Qfloor k)) = Some lo /\
       nth_error S (Z.to_nat (Qceiling k)) = Some hi /\
       calculate_percentile L p = Some v /\
       (v == lo + (k - inject_Z (Qfloor k)) * (hi - lo))%Q) /\
  (exists v, calculate_percentile decile_latencies (95 # 1) = Some v /\
             (v == 955 # 10)%Q) /\
  (exists v, calculate_percentile decile_latencies (99 # 1) = Some v /\
             (v == 991 # 10)%Q).
Proof.
  split; [reflexivity|]. split; [|split; [|split]].
  - intros x p. unfold calculate_percentile. simpl.
    unfold Py.int_of_float. simpl. reflexivity.
  - intros L p HL Hp0 Hp1 S k.
    split; [apply sorted_ascending|]. split; [apply sorted_perm|].
    now apply percentile_interpolates.
  - eexists. split; [vm_compute; reflexivity | reflexivity].
  - eexists. split; [vm_compute; reflexivity | reflexivity].
Qed.

Lemma percentile_linear_interpolation_witness :
  decile_latencies <> [] /\ (0 <= 95 # 1)%Q /\ (95 # 1 <= 100 # 1)%Q /\
  exists lo hi v,
    nth_error (Py.sorted decile_latencies) 8 = Some lo /\
    nth_error (Py.sorted decile_latencies) 9 = Some hi /\
    calculate_percentile decile_latencies (95 # 1) = Some v /\
    (v == lo + ((855 # 100) - (8 # 1)) * (hi - lo))%Q.
Proof.
  split; [discriminate|]. split; [discriminate|]. split; [discriminate|].
  destruct (proj1 (proj2 (proj2 percentile_linear_interpolation))
              decile_latencies (95 # 1)
              ltac:(discriminate) ltac:(discriminate) ltac:(discriminate))
    as (_ & _ & lo & hi & v & Hlo & Hhi & Hv & Heq).
  exists lo, hi, v. repeat split; assumption.
Defined.

End Percentiles.

(** ** One step of the aggregator *)

Section AggregatorSteps.

Import MetricsAggregator.

Lemma TimeWindow_add_event_frame e w ok w' :
  TimeWindow.add_event e w = (ok, w') ->
  TimeWindow.window_start w' = TimeWindow.window_start w /\
  TimeWindow.window_end w' = TimeWindow.window_end w /\
  TimeWindow.duration_seconds w' = TimeWindow.duration_seconds w.
Proof.
  unfold TimeWindow.add_event.
  destruct (negb _); [intros [= <- <-]; auto|].
  destruct (if Py.truthy _ then _ else _) as [tot tms].
  intros [= <- <-]. auto.
Qed.

Lemma TimeWindow_add_event_rejected e w w' :
  TimeWindow.add_event e w = (false, w') -> w' = w.
Proof.
  unfold TimeWindow.add_event.
  destruct (negb _); [intros [= <-]; auto|].
  destruct (if Py.truthy _ then _ else _) as [tot tms].
  intros [=].
Qed.

Lemma TimeWindow_add_event_counts e w ok w' :
  TimeWindow.add_event e w = (ok, w') -> counts_ok w -> counts_ok w'.
Proof.
  unfold TimeWindow.add_event, counts_ok.
  destruct (negb _); [intros [= <- <-]; auto|].
  destruct (if Py.truthy _ then _ else _) as [tot tms].
  intros [= <- <-]. simpl. destruct (counts_as_error e); lia.
Qed.

Lemma TimeWindow_add_event_accepts e ws d :
  ws <= timestamp e < ws + d * 1000000 ->
  exists w', TimeWindow.add_event e (TimeWindow.init ws d) = (true, w') /\
             TimeWindow.window_start w' = ws /\ TimeWindow.events w' = [e] /\
             TimeWindow.request_count w' = 1.
Proof.
  intros [H1 H2]. unfold TimeWindow.add_event. simpl.
  destruct (Z.leb_spec ws (timestamp e)); [|lia].
  destruct (Z.ltb_spec (timestamp e) (ws + d * 1000000)); [|lia]. simpl.
  destruct (Py.truthy (response_time_ms e)); eexists; split; try reflexivity; auto.
Qed.

Lemma add_event_config e a :
  window_size_seconds (add_event e a) = window_size_seconds a /\
  sub_window_seconds (add_event e a) = sub_window_seconds a /\
  num_sub_windows (add_event e a) = num_sub_windows a.
Proof.
  unfold add_event. destruct (negb _); [auto|].
  unfold ensure_current_window, get_window_start_time.
  destruct (sub_window_seconds a =? 0); simpl; [auto|].
  unfold ensure_current_window_at.
  destruct (match current_window a with Some w => _ | None => true end); simpl.
  - destruct (TimeWindow.add_event _ _) as [[] w']; simpl; auto.
  - destruct (current_window a) as [w|]; [|auto].
    destruct (TimeWindow.add_event _ _) as [[] w']; simpl; auto.
Qed.

Lemma add_event_shape e a : step_shape e a (add_event e a).
Proof.
  unfold add_event.
  destruct (negb _); [now apply shape_ignored|].
  unfold ensure_current_window.
  destruct (get_window_start_time a (timestamp e)) as [ws|] eqn:Hws; simpl;
    [|now apply shape_ignored].
  unfold ensure_current_window_at.
  destruct (current_window a) as [w|] eqn:Hcur.
  - destruct (Z.eqb_spec (TimeWindow.window_start w) ws) as [Heq|Hne]; simpl.
    + rewrite Hcur.
      destruct (TimeWindow.add_event e w) as [ok w'] eqn:Hadd.
      destruct ok; simpl.
      * eapply shape_same_window; eauto.
      * apply TimeWindow_add_event_rejected in Hadd. subst w'.
        now apply shape_ignored.
    + destruct (TimeWindow.add_event e _) as [ok w'] eqn:Hadd.
      assert (Hw' : ok = false -> w' = TimeWindow.init ws (sub_window_seconds a)).
      { intros ->. now apply TimeWindow_add_event_rejected in Hadd. }
      eapply (shape_new_window e a _ ws ok w'); eauto.
      * intros w0 Hw0. congruence.
      * rewrite Hcur. destruct ok; simpl; reflexivity.
      * destruct ok; simpl; [reflexivity|]. now rewrite Hw'.
  - simpl.
    destruct (TimeWindow.add_event e _) as [ok w'] eqn:Hadd.
    assert (Hw' : ok = false -> w' = TimeWindow.init ws (sub_window_seconds a)).
    { intros ->. now apply TimeWindow_add_event_rejected in Hadd. }
    eapply (shape_new_window e a _ ws ok w'); eauto.
    * intros w0 Hw0. congruence.
    * rewrite Hcur. destruct ok; simpl; reflexivity.
    * destruct ok; simpl; [reflexivity|]. now rewrite Hw'.
Qed.

(** The live sub-windows after one event: unchanged but for the current
    window, or a suffix of the old ones followed by a fresh current window. *)
Lemma all_windows_step e a :
  all_windows (add_event e a) = all_windows a \/
  (exists pre w ok w',
      all_windows a = pre ++ [w] /\
      TimeWindow.add_event e w = (ok, w') /\
      all_windows (add_event e a) = pre ++ [w']) \/
  (exists j ws ok w',
      get_window_start_time a (timestamp e) = Some ws /\
      (forall w, current_window a = Some w -> TimeWindow.window_start w <> ws) /\
      TimeWindow.add_event e (TimeWindow.init ws (sub_window_seconds a))
      = (ok, w') /\
      all_windows (add_event e a) = skipn j (all_windows a) ++ [w']).
Proof.
  destruct (add_event_shape e a)
    as [Heq | ws w ok w' Hws Hcur Hstart Hadd Hwin Hcur'
        | ws ok w' Hws Hne Hadd Hwin Hcur'].
  - left. now rewrite Heq.
  - right; left. exists (windows a), w, ok, w'. unfold all_windows.
    rewrite Hcur, Hcur', Hwin. auto.
  - right; right. unfold all_windows at 1. rewrite Hcur', Hwin.
    destruct (current_window a) as [w|] eqn:Hcur.
    + exists (length (windows a ++ [w]) - Z.to_nat (num_sub_windows a))%nat,
        ws, ok, w'.
      unfold all_windows. rewrite Hcur. auto.
    + exists 0%nat, ws, ok, w'. unfold all_windows. rewrite Hcur. auto.
Qed.

Lemma windows_step e a :
  windows (add_event e a) = windows a \/
  exists w, current_window a = Some w /\
            windows (add_event e a)
            = Py.last_n (Z.to_nat (num_sub_windows a)) (windows a ++ [w]).
Proof.
  destruct (add_event_shape e a)
    as [-> | ? ? ? ? _ _ _ _ Hw _ | ? ? ? _ _ _ Hw _].
  - now left.
  - now left.
  - destruct (current_window a) as [w|]; [right; exists w | left]; auto.
Qed.

Lemma starts_step e a :
  starts (add_event e a) = starts a \/
  exists j ws,
    get_window_start_time a (timestamp e) = Some ws /\
    (forall w, current_window a = Some w -> TimeWindow.window_start w <> ws) /\
    starts (add_event e a) = skipn j (starts a) ++ [ws].
Proof.
  unfold starts.
  destruct (all_windows_step e a)
    as [-> | [(pre & w & ok & w' & Hpre & Hadd & ->)
            | (j & ws & ok & w' & Hws & Hne & Hadd & ->)]].
  - now left.
  - left. rewrite Hpre, !map_app. simpl.
    now apply TimeWindow_add_event_frame in Hadd as (-> & _).
  - right. exists j, ws. repeat split; try assumption.
    rewrite map_app, <- skipn_map. simpl.
    now apply TimeWindow_add_event_frame in Hadd as (-> & _).
Qed.

Lemma all_windows_Forall (P : TimeWindow.t -> Prop) e a :
  (forall ws, P (TimeWindow.init ws (sub_window_seconds a))) ->
  (forall w ok w', P w -> TimeWindow.add_event e w = (ok, w') -> P w') ->
  Forall P (all_windows a) -> Forall P (all_windows (add_event e a)).
Proof.
  intros Hinit Hstep Hall.
  destruct (all_windows_step e a)
    as [-> | [(pre & w & ok & w' & Hpre & Hadd & ->)
            | (j & ws & ok & w' & _ & _ & Hadd & ->)]].
  - assumption.
  - rewrite Hpre in Hall. apply Forall_app in Hall as [Hp Hw].
    apply Forall_app. split; [assumption|].
    constructor; [|constructor]. inversion Hw; subst. eauto.
  - apply Forall_app. split; [now apply Forall_skipn|].
    constructor; [|constructor]. eauto.
Qed.

(** An event that the aggregator counts went through [TimeWindow.add_event]
    on the current sub-window, the old one or one opened for it. *)
Lemma accepted_event_window e a :
  total_events_processed (add_event e a) = total_events_processed a + 1 ->
  exists w w',
    TimeWindow.add_event e w = (true, w') /\
    current_window (add_event e a) = Some w' /\
    (current_window a = Some w \/
     exists ws, w = TimeWindow.init ws (sub_window_seconds a)).
Proof.
  unfold add_event. destruct (negb _); [lia|].
  unfold ensure_current_window.
  destruct (get_window_start_time a (timestamp e)) as [ws|]; simpl; [|lia].
  unfold ensure_current_window_at.
  destruct (current_window a) as [w|] eqn:Hcur.
  - destruct (Z.eqb_spec (TimeWindow.window_start w) ws) as [Heq|Hne]; simpl.
    + rewrite Hcur.
      destruct (TimeWindow.add_event e w) as [[] w'] eqn:Hadd; simpl; [|lia].
      intros _. exists w, w'. auto.
    + destruct (TimeWindow.add_event e _) as [[] w'] eqn:Hadd; simpl; [|lia].
      intros _. eexists. exists w'. split; [exact Hadd|]. eauto.
  - simpl.
    destruct (TimeWindow.add_event e _) as [[] w'] eqn:Hadd; simpl; [|lia].
    intros _. eexists. exists w'. split; [exact Hadd|]. eauto.
Qed.

End AggregatorSteps.

(** ** Invariants of the reachable aggregator states *)

Section AggregatorInvariants.

Import MetricsAggregator.

Lemma ingest_app es1 es2 a : ingest (es1 ++ es2) a = ingest es2 (ingest es1 a).
Proof. unfold ingest. apply fold_left_app. Qed.

Lemma ingest_invariant (I : t -> Prop) :
  (forall e a, I a -> I (add_event e a)) ->
  forall events a, I a -> I (ingest events a).
Proof.
  intros Hstep events. induction events as [|e es IH]; intros a Ha; simpl; auto.
Qed.

Lemma init_fields ws sub t0 a0 :
  init ws sub t0 = Some a0 ->
  window_size_seconds a0 = ws /\ sub_window_seconds a0 = sub /\ sub <> 0 /\
  0 <= num_sub_windows a0 /\ all_windows a0 = [].
Proof.
  unfold init. destruct (Z.eqb_spec sub 0) as [|Hs]; [discriminate|].
  destruct (Z.ltb_spec (ws / sub) 0); [discriminate|].
  intros [= <-]. simpl. auto.
Qed.

Lemma default_reachable events : reachable (ingest events default_aggregator).
Proof. exists 60, 5, 0, default_aggregator, events. split; reflexivity. Qed.

Lemma reachable_add_event e a : reachable a -> reachable (add_event e a).
Proof.
  intros (ws & sub & t0 & a0 & events & Hinit & ->).
  exists ws, sub, t0, a0, (events ++ [e]). split; [assumption|].
  now rewrite ingest_app.
Qed.

Lemma reachable_counts a : reachable a -> Forall counts_ok (all_windows a).
Proof.
  intros (ws & sub & t0 & a0 & events & Hinit & ->).
  apply ingest_invariant.
  - intros e a Ha. apply all_windows_Forall; [| |assumption].
    + intros s. unfold counts_ok. simpl. lia.
    + intros w ok w' Hw Hadd. eapply TimeWindow_add_event_counts; eauto.
  - apply init_fields in Hinit as (_ & _ & _ & _ & ->). constructor.
Qed.

Lemma reachable_bound a :
  reachable a -> (length (windows a) <= Z.to_nat (num_sub_windows a))%nat.
Proof.
  intros (ws & sub & t0 & a0 & events & Hinit & ->).
  apply (ingest_invariant
           (fun a => (length (windows a) <= Z.to_nat (num_sub_windows a))%nat)).
  - intros e a Ha. rewrite (proj2 (proj2 (add_event_config e a))).
    destruct (windows_step e a) as [-> | (w & _ & ->)]; [assumption|].
    rewrite last_n_length. lia.
  - apply init_fields in Hinit as (_ & _ & _ & _ & Hall).
    unfold all_windows in Hall.
    destruct (current_window a0);
      [now destruct (windows a0) | rewrite Hall; simpl; lia].
Qed.

(** Sealed sub-windows are only there next to a current one. *)
Lemma reachable_current a :
  reachable a -> current_window a = None -> windows a = [].
Proof.
  intros (ws & sub & t0 & a0 & events & Hinit & ->).
  apply (ingest_invariant (fun a => current_window a = None -> windows a = [])).
  - intros e a Ha.
    destruct (add_event_shape e a) as [-> | | ]; [assumption | congruence..].
  - apply init_fields in Hinit as (_ & _ & _ & _ & Hall).
    unfold all_windows in Hall. intros Hc. now rewrite Hc in Hall.
Qed.

Lemma window_start_on_boundary a t ws :
  get_window_start_time a t = Some ws -> on_boundary (sub_window_seconds a) ws.
Proof.
  unfold get_window_start_time.
  destruct (sub_window_seconds a =? 0); [discriminate|].
  intros [= <-]. now exists (Z.quot t 1000000 / sub_window_seconds a).
Qed.

(** For a positive sub-window length and a time from the epoch on, the
    aligned start is at most the time and less than a sub-window before it. *)
Lemma window_start_bounds a t :
  0 < sub_window_seconds a -> 0 <= t ->
  exists ws, get_window_start_time a t = Some ws /\
             ws <= t < ws + sub_window_seconds a * 1000000.
Proof.
  intros Hsub Ht. unfold get_window_start_time.
  destruct (Z.eqb_spec (sub_window_seconds a) 0) as [|_]; [lia|].
  eexists. split; [reflexivity|].
  rewrite Z.quot_div_nonneg by lia.
  set (s := t / 1000000). set (d := sub_window_seconds a) in *.
  pose proof (Z.mod_pos_bound t 1000000 ltac:(lia)) as Hm.
  pose proof (Z.div_mod t 1000000 ltac:(lia)) as Hdm.
  pose proof (Z.mod_pos_bound s d Hsub) as Hm'.
  pose proof (Z.div_mod s d ltac:(lia)) as Hdm'.
  fold s in Hdm. nia.
Qed.

Lemma reachable_aligned a : reachable a -> aligned_starts a.
Proof.
  intros (ws & sub & t0 & a0 & events & Hinit & ->).
  apply ingest_invariant.
  - intros e a Ha. unfold aligned_starts in *.
    rewrite (proj1 (proj2 (add_event_config e a))).
    destruct (starts_step e a) as [-> | (j & s & Hs & _ & ->)]; [assumption|].
    apply Forall_app. split; [now apply Forall_skipn|].
    constructor; [|constructor]. eapply window_start_on_boundary; eauto.
  - apply init_fields in Hinit as (_ & _ & _ & _ & Hall).
    unfold aligned_starts, starts. rewrite Hall. constructor.
Qed.

Lemma reachable_durations a :
  reachable a ->
  Forall (fun w => TimeWindow.duration_seconds w <> 0) (all_windows a).
Proof.
  intros (ws & sub & t0 & a0 & events & Hinit & ->).
  apply init_fields in Hinit as (_ & Hsub & Hnz & _ & Hall).
  assert (H : sub_window_seconds (ingest events a0) <> 0 /\
              Forall (fun w => TimeWindow.duration_seconds w <> 0)
                (all_windows (ingest events a0))); [|apply H].
  apply (ingest_invariant (fun a => sub_window_seconds a <> 0 /\
           Forall (fun w => TimeWindow.duration_seconds w <> 0) (all_windows a))).
  - intros e a [Ha1 Ha2]. split.
    + now rewrite (proj1 (proj2 (add_event_config e a))).
    + apply all_windows_Forall; [| |assumption].
      * intros s. simpl. assumption.
      * intros w ok w' Hw Hadd.
        apply TimeWindow_add_event_frame in Hadd as (_ & _ & ->). assumption.
  - split; [congruence|]. rewrite Hall. constructor.
Qed.

Lemma sum_counts_ok ws :
  Forall counts_ok ws ->
  0 <= Py.sumZ (map TimeWindow.error_count ws)
    <= Py.sumZ (map TimeWindow.request_count ws).
Proof.
  induction 1 as [|w ws Hw _ IH]; simpl; [lia|]. unfold counts_ok in Hw. lia.
Qed.

Lemma StronglySorted_skipn j (l : list Z) :
  StronglySorted Z.lt l -> StronglySorted Z.lt (skipn j l).
Proof.
  revert l. induction j as [|j IH]; intros l H; simpl; [assumption|].
  destruct H; [constructor | now apply IH].
Qed.

Lemma StronglySorted_snoc (l : list Z) x :
  StronglySorted Z.lt l -> Forall (fun y => y < x) l ->
  StronglySorted Z.lt (l ++ [x]).
Proof.
  induction 1 as [|y l Hs IH Hy]; intros Hall; simpl.
  - repeat constructor.
  - inversion Hall; subst. constructor; [now apply IH|].
    apply Forall_app. split; [assumption | now repeat constructor].
Qed.

Lemma StronglySorted_below_last (l : list Z) x :
  StronglySorted Z.lt (l ++ [x]) -> Forall (fun y => y < x) l.
Proof.
  induction l as [|y l IH]; simpl; intros H; [constructor|].
  inversion H; subst. constructor; [|now apply IH].
  match goal with Hf : Forall _ (l ++ [x]) |- _ =>
    apply Forall_app in Hf as [_ Hx]; now inversion Hx end.
Qed.

End AggregatorInvariants.

(** ** Snapshots *)

Section Snapshots.

Import MetricsAggregator.

Lemma scope_metrics_fields self r e ts m :
  scope_metrics self r e ts = Some m ->
  total_requests m = r /\ total_errors m = e /\
  error_rate m = Py.round2 (expected_error_rate r e).
Proof.
  unfold scope_metrics, expected_error_rate.
  destruct (truediv r (window_size_seconds self)) as [q|]; simpl; [|discriminate].
  destruct (0 <? r) eqn:Hr; simpl.
  - unfold truediv. destruct (Z.eqb_spec r 0) as [->|_]; [discriminate|]. simpl.
    destruct (calculate_percentile ts (95 # 1)); simpl; [|discriminate].
    destruct (calculate_percentile ts (99 # 1)); simpl; [|discriminate].
    intros [= <-]. auto.
  - destruct (calculate_percentile ts (95 # 1)); simpl; [|discriminate].
    destruct (calculate_percentile ts (99 # 1)); simpl; [|discriminate].
    intros [= <-]. auto.
Qed.

Lemma scope_metrics_total self r e ts :
  window_size_seconds self <> 0 -> exists m, scope_metrics self r e ts = Some m.
Proof.
  intros Hw. unfold scope_metrics, truediv.
  destruct (Z.eqb_spec (window_size_seconds self) 0) as [|_]; [contradiction|].
  simpl.
  destruct (calculate_percentile_total ts (95 # 1)) as [p95 ->]; [lra | lra |].
  destruct (calculate_percentile_total ts (99 # 1)) as [p99 ->]; [lra | lra |].
  destruct (0 <? r) eqn:Hr; simpl.
  - destruct (Z.eqb_spec r 0) as [->|_]; [discriminate|]. simpl. eauto.
  - eauto.
Qed.

Lemma finish_aggregate_total self agg :
  window_size_seconds self <> 0 -> exists d, finish_aggregate self agg = Some d.
Proof.
  intros Hw. induction agg as [|[name a] rest [d IH]]; simpl; [eauto|].
  destruct (scope_metrics_total self (agg_request_count a) (agg_error_count a)
              (agg_response_times a) Hw) as [m ->]. simpl.
  rewrite IH. simpl. eauto.
Qed.

Lemma summaries_total ws :
  Forall (fun w => TimeWindow.duration_seconds w <> 0) ws ->
  exists l, summaries ws = Some l.
Proof.
  induction 1 as [|w ws Hw _ [l IH]]; simpl; [eauto|].
  unfold TimeWindow.get_summary, TimeWindow.get_qps, truediv,
    TimeWindow.get_percentile_response_time.
  destruct (Z.eqb_spec (TimeWindow.duration_seconds w) 0) as [|_];
    [contradiction|].
  simpl.
  destruct (calculate_percentile_total (TimeWindow.response_times w) (95 # 1))
    as [p95 ->]; [lra | lra |].
  destruct (calculate_percentile_total (TimeWindow.response_times w) (99 # 1))
    as [p99 ->]; [lra | lra |].
  simpl. rewrite IH. simpl. eauto.
Qed.

(** The overall entry of a snapshot: count conservation and the error rate. *)
Lemma get_current_metrics_overall a now s :
  get_current_metrics a now = Some s ->
  let r := Py.sumZ (map TimeWindow.request_count (all_windows a)) in
  let e := Py.sumZ (map TimeWindow.error_count (all_windows a)) in
  snap_timestamp s = now /\
  active_windows s = length (all_windows a) /\
  total_requests (overall s) = r /\ total_errors (overall s) = e /\
  (error_rate (overall s) == Py.round2 (expected_error_rate r e))%Q.
Proof.
  unfold get_current_metrics.
  destruct (all_windows a) as [|w ws] eqn:Hall.
  - intros [= <-]. simpl. repeat split; reflexivity.
  - destruct (scope_metrics a _ _ _) as [ov|] eqn:Hov; simpl; [|discriminate].
    destruct (aggregate_service_metrics a _); simpl; [|discriminate].
    destruct (aggregate_endpoint_metrics a _); simpl; [|discriminate].
    destruct (summaries _); simpl; [|discriminate].
    intros [= <-]. simpl.
    apply scope_metrics_fields in Hov as (Hr & He & Hrate).
    rewrite Hr, He, Hrate. repeat split; reflexivity.
Qed.

(** A snapshot is produced whenever the window length is not zero and no live
    sub-window has a zero duration. *)
Lemma get_current_metrics_total a now :
  window_size_seconds a <> 0 ->
  Forall (fun w => TimeWindow.duration_seconds w <> 0) (all_windows a) ->
  exists s, get_current_metrics a now = Some s.
Proof.
  intros Hw Hd. unfold get_current_metrics.
  destruct (all_windows a) as [|w ws] eqn:Hall; [eauto|].
  destruct (scope_metrics_total a
              (Py.sumZ (map TimeWindow.request_count (w :: ws)))
              (Py.sumZ (map TimeWindow.error_count (w :: ws)))
              (concat (map TimeWindow.response_times (w :: ws))) Hw) as [ov ->].
  simpl.
  unfold aggregate_service_metrics, aggregate_endpoint_metrics.
  destruct (finish_aggregate_total a
              (aggregate_stats (map TimeWindow.service_stats (w :: ws))) Hw)
    as [sv ->].
  destruct (finish_aggregate_total a
              (aggregate_stats (map TimeWindow.endpoint_stats (w :: ws))) Hw)
    as [ep ->].
  simpl.
  change (Py.slice_last 5 (w :: ws)) with (Py.last_n 5 (w :: ws)).
  destruct (summaries_total (Py.last_n 5 (w :: ws))) as [dt ->].
  { unfold Py.last_n. now apply Forall_skipn. }
  simpl. eauto.
Qed.

Lemma reachable_snapshot a now :
  reachable a -> window_size_seconds a <> 0 ->
  exists s, get_current_metrics a now = Some s.
Proof.
  intros Hr Hw. apply get_current_metrics_total; [assumption|].
  now apply reachable_durations.
Qed.

Lemma expected_error_rate_bounds r e :
  0 <= e <= r ->
  (inject_Z 0 <= expected_error_rate r e)%Q /\
  (expected_error_rate r e <= inject_Z 100)%Q.
Proof.
  intros [He Her]. unfold expected_error_rate.
  destruct (Z.ltb_spec 0 r) as [Hr|Hr]; [|split; unfold Qle; simpl; lia].
  assert (Hrq : (0 < inject_Z r)%Q) by (rewrite <- (Zlt_Qlt 0); lia).
  assert (Heq : (0 <= inject_Z e)%Q) by (rewrite <- (Zle_Qle 0); lia).
  assert (Herq : (inject_Z e <= inject_Z r)%Q) by (rewrite <- Zle_Qle; lia).
  assert (H0 : (0 <= inject_Z e / inject_Z r)%Q).
  { apply Qle_shift_div_l; [assumption | lra]. }
  assert (H1 : (inject_Z e / inject_Z r <= 1)%Q).
  { apply Qle_shift_div_r; [assumption | lra]. }
  change (inject_Z 0) with (0 # 1)%Q. change (inject_Z 100) with (100 # 1)%Q.
  split; lra.
Qed.

(** C5, as the specification states it, at one error in three requests: the
    snapshot reports 33.33, which is not 100 * 1 / 3. *)
Lemma snapshot_error_rate_counterexample :
  exists s,
    get_current_metrics (ingest one_error_in_three default_aggregator) 0
    = Some s /\
    total_requests (overall s) = 3 /\ total_errors (overall s) = 1 /\
    ~ (error_rate (overall s) == (100 # 1) * inject_Z 1 / inject_Z 3)%Q.
Proof.
  eexists. split; [vm_compute; reflexivity|].
  repeat split. vm_compute. discriminate.
Qed.

(** At 23 errors in 160 requests the exact rate 14.375 is a tie: 14.37 and
    14.38 both round it to two decimal places. *)
Lemma rounding_at_a_tie :
  rounds_to_cents ((100 # 1) * inject_Z 23 / inject_Z 160) (1437 # 100) /\
  rounds_to_cents ((100 # 1) * inject_Z 23 / inject_Z 160) (1438 # 100).
Proof.
  split; (split; [eexists; reflexivity|]);
    split; unfold Qle; simpl; lia.
Qed.

(** C5, amended.  In every snapshot of a reachable aggregator the overall
    error rate is, when there are requests, a number of two decimal places
    at most 0.005 away from [100 * total_errors / total_requests]: that
    quotient rounded to two decimal places, either neighbour being allowed
    at an exact tie, so that the statement does not depend on the way the
    floating-point rounding breaks ties.  It is zero when there are no
    requests, and in all cases between 0 and 100; the errors never outnumber
    the requests. *)
Theorem snapshot_error_rate_rounded a now s :
  reachable a ->
  get_current_metrics a now = Some s ->
  let r := total_requests (overall s) in
  let e := total_errors (overall s) in
  (0 < r -> rounds_to_cents ((100 # 1) * inject_Z e / inject_Z r)
              (error_rate (overall s))) /\
  (r = 0 -> (error_rate (overall s) == 0 # 1)%Q) /\
  (0 # 1 <= error_rate (overall s))%Q /\
  (error_rate (overall s) <= 100 # 1)%Q /\
  0 <= e <= r.
Proof.
  intros Hreach Hsnap r e.
  destruct (get_current_metrics_overall a now s Hsnap)
    as (_ & _ & Hr & He & Hrate).
  fold r in Hr. fold e in He. rewrite <- Hr, <- He in Hrate.
  assert (Hcounts : 0 <= e <= r).
  { rewrite Hr, He. apply sum_counts_ok, reachable_counts, Hreach. }
  destruct (expected_error_rate_bounds r e Hcounts) as [Hb0 Hb1].
  destruct (round2_bounds _ 0 100 Hb0 Hb1) as [Hr0 Hr1].
  destruct (round2_near (expected_error_rate r e)) as ((k & Hk) & Hlo & Hhi).
  assert (Hexp : 0 < r ->
                 ((100 # 1) * inject_Z e / inject_Z r
                  == expected_error_rate r e)%Q).
  { intros Hpos. unfold expected_error_rate.
    destruct (Z.ltb_spec 0 r); [|lia].
    field. intros E. unfold Qeq in E. simpl in E. lia. }
  repeat split; try lia.
  - exists k. now rewrite Hrate.
  - rewrite Hrate, (Hexp H). exact Hlo.
  - rewrite Hrate, (Hexp H). exact Hhi.
  - intros Hz. rewrite Hrate. unfold expected_error_rate.
    destruct (Z.ltb_spec 0 r); [lia|]. reflexivity.
  - rewrite Hrate. exact Hr0.
  - rewrite Hrate. exact Hr1.
Qed.

Lemma snapshot_error_rate_rounded_witness :
  reachable (ingest (mixed_errors 137 23) default_aggregator) /\
  exists s,
    get_current_metrics (ingest (mixed_errors 137 23) default_aggregator) 0
    = Some s /\
    total_requests (overall s) = 160 /\ total_errors (overall s) = 23 /\
    rounds_to_cents ((100 # 1) * inject_Z 23 / inject_Z 160)
      (error_rate (overall s)) /\
    (0 # 1 <= error_rate (overall s))%Q /\
    (error_rate (overall s) <= 100 # 1)%Q.
Proof.
  split; [apply default_reachable|].
  destruct (get_current_metrics
              (ingest (mixed_errors 137 23) default_aggregator) 0)
    as [s|] eqn:E; [|vm_compute in E; discriminate].
  exists s. split; [reflexivity|].
  assert (Hr : total_requests (overall s) = 160).
  { vm_compute in E. injection E as <-. reflexivity. }
  assert (He : total_errors (overall s) = 23).
  { vm_compute in E. injection E as <-. reflexivity. }
  destruct (snapshot_error_rate_rounded _ 0 s
              (default_reachable (mixed_errors 137 23)) E)
    as (H1 & _ & H3 & H4 & _).
  rewrite Hr, He in H1.
  split; [exact Hr|]. split; [exact He|].
  split; [apply H1; lia|]. split; assumption.
Defined.

End Snapshots.

(** ** Snapshots taken twice *)

Section Idempotence.

Import MetricsAggregator.

(** C9, as the specification states it: two snapshots of the same state,
    taken while the clock moves from 0 to 1, differ. *)
Lemma snapshot_timestamp_counterexample :
  get_current_metrics (ingest one_error_in_three default_aggregator) 0
  <> get_current_metrics (ingest one_error_in_three default_aggregator) 1.
Proof. vm_compute. discriminate. Qed.

(** C9, amended.  [get_current_metrics] leaves the aggregator as it is, and
    two calls with no event in between return snapshots that agree on every
    field of every scope except the top-level timestamp, which is the clock
    reading of each call; the snapshots are equal when the readings are. *)
Theorem snapshot_equal_up_to_timestamp (a : t) (now1 now2 : Z) :
  get_current_metrics a now2
  = option_map (with_timestamp now2) (get_current_metrics a now1) /\
  option_map (with_timestamp 0) (get_current_metrics a now1)
  = option_map (with_timestamp 0) (get_current_metrics a now2).
Proof.
  unfold get_current_metrics.
  destruct (all_windows a) as [|w ws]; [split; reflexivity|].
  destruct (scope_metrics a _ _ _); simpl; [|split; reflexivity].
  destruct (aggregate_service_metrics a _); simpl; [|split; reflexivity].
  destruct (aggregate_endpoint_metrics a _); simpl; [|split; reflexivity].
  destruct (summaries _); simpl; split; reflexivity.
Qed.

End Idempotence.

(** ** Eviction and ordering of the sub-windows *)

Section WindowClaims.

Import MetricsAggregator.

Lemma first_bucket_step e n a :
  at_epoch e -> first_bucket n a -> first_bucket (n + 1) (add_event e a).
Proof.
  intros [Hty Ht] (Hws & Hsub & Hnum & Hwin & Hcur).
  destruct a as [ws sub num wins cur lws tot st0]. simpl in *. subst.
  unfold first_bucket, add_event, ensure_current_window, get_window_start_time,
    ensure_current_window_at. simpl. rewrite Hty, Ht. simpl.
  destruct cur as [w|]; simpl.
  - destruct Hcur as (Hs & He & Hd & Hc). rewrite Hs. simpl.
    unfold TimeWindow.add_event. rewrite Ht, Hs, He. simpl.
    destruct (Py.truthy (response_time_ms e)); simpl; repeat split; auto; lia.
  - unfold TimeWindow.add_event. rewrite Ht. simpl.
    destruct (Py.truthy (response_time_ms e)); simpl; repeat split; auto; lia.
Qed.

Lemma first_bucket_ingest events n a :
  Forall at_epoch events -> first_bucket n a ->
  first_bucket (n + Z.of_nat (length events)) (ingest events a).
Proof.
  intros Hev. revert n a. induction Hev as [|e es He _ IH]; intros n a Ha; simpl.
  - now rewrite Z.add_0_r.
  - change (length (e :: es)) with (S (length es)).
    replace (n + Z.of_nat (S (length es)))
      with ((n + 1) + Z.of_nat (length es)) by lia.
    apply IH. now apply first_bucket_step.
Qed.

Lemma later_bucket_step n a latency :
  0 < n -> first_bucket n a ->
  exists w0 w1,
    all_windows (add_event (response_event (seconds 65) 200 latency) a)
    = [w0; w1] /\
    TimeWindow.request_count w0 = n /\ TimeWindow.request_count w1 = 1 /\
    TimeWindow.window_start w0 = 0 /\ TimeWindow.window_start w1 = seconds 65 /\
    TimeWindow.duration_seconds w0 = 5 /\ TimeWindow.duration_seconds w1 = 5.
Proof.
  intros Hn (Hws & Hsub & Hnum & Hwin & Hcur).
  destruct a as [ws sub num wins cur lws tot st0]. simpl in *. subst.
  destruct cur as [w|]; [|lia]. destruct Hcur as (Hs & He & Hd & Hc).
  unfold add_event, ensure_current_window, get_window_start_time,
    ensure_current_window_at, all_windows. simpl. rewrite Hs. simpl.
  unfold TimeWindow.add_event. simpl.
  destruct (Py.truthy latency); simpl; exists w; eexists;
    (split; [reflexivity|]); simpl; repeat split; auto.
Qed.

(** C1, as the specification states it, in its own scenario: after the event
    at 65 s the sub-window that starts at 0 is still live although
    [0 + 5 > 65 - 60] fails, and the snapshot counts 51 requests. *)
Lemma eviction_by_age_counterexample :
  let e := response_event (seconds 65) 200 (200 # 1) in
  let a := ingest (repeat (response_event 0 200 (100 # 1)) 50 ++ [e])
             default_aggregator in
  (exists b, In b (all_windows a) /\
     ~ (TimeWindow.window_start b + seconds (sub_window_seconds a)
        > timestamp e - seconds (window_size_seconds a))) /\
  exists s, get_current_metrics a 0 = Some s /\
            total_requests (overall s) = 51 /\
            avg_response_time (overall s) = (10196 # 100)%Q.
Proof.
  cbv zeta. split.
  - eexists. split; [vm_compute; left; reflexivity|].
    vm_compute. intros H. discriminate.
  - eexists. split; [vm_compute; reflexivity|]. split; reflexivity.
Qed.

(** C1, amended.  Eviction is by count, not by age: after an event the
    aggregator holds at most [num_sub_windows] sealed sub-windows, and the
    sealed ones are those from before or, when the current sub-window was
    sealed, the last [num_sub_windows] of the old ones followed by it.  When
    50 response events stamped 0 are followed by one at 65 s (window 60 s,
    sub-window 5 s), the next snapshot has two live sub-windows and reports
    [total_requests = 51]. *)
Theorem eviction_is_by_count :
  (forall e a, reachable a ->
     (length (windows (add_event e a)) <= Z.to_nat (num_sub_windows a))%nat /\
     (windows (add_event e a) = windows a \/
      exists w, current_window a = Some w /\
                windows (add_event e a)
                = Py.last_n (Z.to_nat (num_sub_windows a)) (windows a ++ [w]))) /\
  (forall events t0 now,
     length events = 50%nat -> Forall at_epoch events ->
     exists s,
       get_current_metrics
         (ingest (events ++ [response_event (seconds 65) 200 (200 # 1)])
            (mk 60 5 12 [] None None 0 t0)) now = Some s /\
       total_requests (overall s) = 51 /\ active_windows s = 2%nat).
Proof.
  split.
  - intros e a Hreach. split; [|apply windows_step].
    rewrite <- (proj2 (proj2 (add_event_config e a))).
    apply reachable_bound, reachable_add_event, Hreach.
  - intros events t0 now Hlen Hev.
    set (a0 := mk 60 5 12 [] None None 0 t0).
    assert (H0 : first_bucket 0 a0) by (unfold first_bucket; simpl; auto).
    pose proof (first_bucket_ingest events 0 a0 Hev H0) as H50.
    rewrite Hlen in H50. simpl in H50.
    destruct (later_bucket_step 50 (ingest events a0) (200 # 1) ltac:(lia) H50)
      as (w0 & w1 & Hall & Hc0 & Hc1 & _ & _ & Hd0 & Hd1).
    rewrite ingest_app. simpl.
    set (a := add_event _ (ingest events a0)) in *.
    assert (Hws : window_size_seconds a = 60).
    { unfold a. rewrite (proj1 (add_event_config _ _)). apply H50. }
    destruct (get_current_metrics_total a now) as [s Hs].
    + rewrite Hws. discriminate.
    + rewrite Hall. repeat constructor; lia.
    + exists s. split; [exact Hs|].
      destruct (get_current_metrics_overall a now s Hs) as (_ & Ha & Hr & _).
      rewrite Ha, Hr, Hall. simpl. rewrite Hc0, Hc1. split; reflexivity.
Qed.

Lemma eviction_is_by_count_witness :
  reachable default_aggregator /\
  (length (windows (add_event (response_event 0 200 (100 # 1))
                      default_aggregator)) <= 12)%nat /\
  length (repeat (response_event 0 200 (100 # 1)) 50) = 50%nat /\
  Forall at_epoch (repeat (response_event 0 200 (100 # 1)) 50) /\
  exists s,
    get_current_metrics
      (ingest (repeat (response_event 0 200 (100 # 1)) 50
               ++ [response_event (seconds 65) 200 (200 # 1)])
         default_aggregator) 0 = Some s /\
    total_requests (overall s) = 51 /\ active_windows s = 2%nat.
Proof.
  assert (Hev : Forall at_epoch (repeat (response_event 0 200 (100 # 1)) 50)).
  { apply List.Forall_forall. intros x Hx. apply repeat_spec in Hx. subst x.
    split; reflexivity. }
  split; [apply (default_reachable [])|].
  split; [apply (proj1 eviction_is_by_count (response_event 0 200 (100 # 1))
                   default_aggregator (default_reachable []))|].
  split; [reflexivity|]. split; [exact Hev|].
  exact (proj2 eviction_is_by_count
           (repeat (response_event 0 200 (100 # 1)) 50) 0 0
           (repeat_length _ 50) Hev).
Defined.

End WindowClaims.

Section OrderClaims.

Import MetricsAggregator.

(** C3, as the specification states it: with a live sub-window at 10 s, an
    event stamped 0 has its aligned start before the oldest live start, yet
    it is counted and opens a bucket of its own, and the starts are no longer
    increasing. *)
Lemma late_event_counterexample :
  let a := ingest [response_event (seconds 10) 200 (100 # 1)]
             default_aggregator in
  let e := response_event 0 200 (100 # 1) in
  increasing_starts a /\
  get_window_start_time a (timestamp e) = Some 0 /\
  starts a = [seconds 10] /\
  starts (add_event e a) = [seconds 10; 0] /\
  ~ increasing_starts (add_event e a) /\
  total_events_processed (add_event e a) = total_events_processed a + 1.
Proof.
  cbv zeta. repeat split.
  - unfold increasing_starts. vm_compute. repeat constructor.
  - unfold increasing_starts.
    change (starts _) with [seconds 10; 0].
    intros H. inversion H as [|? ? _ Hall]; subst.
    inversion Hall as [|? ? Hlt _]; subst. vm_compute in Hlt. discriminate.
Qed.

(** C3, amended.  On every reachable aggregator the starts of the live
    sub-windows are on sub-window boundaries, before and after [add_event].
    That they are strictly increasing is preserved by [add_event] whenever the
    aligned start of the event is not earlier than the start of the current
    sub-window.  An accepted event whose aligned start is earlier is not
    dropped: it seals the current sub-window and opens a new current one at
    its own aligned start. *)
Theorem add_event_alignment_and_order (e : MetricsEvent) (a : t) :
  reachable a ->
  (aligned_starts a /\ aligned_starts (add_event e a)) /\
  (increasing_starts a ->
   (forall w ws, current_window a = Some w ->
                 get_window_start_time a (timestamp e) = Some ws ->
                 TimeWindow.window_start w <= ws) ->
   increasing_starts (add_event e a)) /\
  (forall w ws,
     event_type e = API_RESPONSE -> 0 < sub_window_seconds a ->
     0 <= timestamp e -> current_window a = Some w ->
     get_window_start_time a (timestamp e) = Some ws ->
     ws < TimeWindow.window_start w ->
     exists w',
       current_window (add_event e a) = Some w' /\
       TimeWindow.window_start w' = ws /\ TimeWindow.events w' = [e] /\
       windows (add_event e a)
       = Py.deque_append (Z.to_nat (num_sub_windows a)) (windows a) w /\
       total_events_processed (add_event e a) = total_events_processed a + 1).
Proof.
  intros Hreach. split; [|split].
  - split; apply reachable_aligned; [|apply reachable_add_event]; assumption.
  - intros Hinc Hlate. unfold increasing_starts in *.
    destruct (starts_step e a) as [-> | (j & ws & Hws & Hne & ->)]; [assumption|].
    apply StronglySorted_snoc; [now apply StronglySorted_skipn|].
    apply Forall_skipn.
    unfold starts, all_windows in *.
    destruct (current_window a) as [w|] eqn:Hcur.
    + rewrite map_app in *. simpl in *.
      pose proof (StronglySorted_below_last _ _ Hinc) as Hbelow.
      specialize (Hlate w ws eq_refl Hws). specialize (Hne w eq_refl).
      apply Forall_app. split.
      * eapply List.Forall_impl; [|exact Hbelow]. simpl. intros; lia.
      * constructor; [lia | constructor].
    + rewrite (reachable_current a Hreach Hcur). constructor.
  - intros w ws Hty Hsub Ht Hcur Hws Hlt.
    destruct (window_start_bounds a (timestamp e) Hsub Ht) as (ws' & Hws' & Hb).
    assert (ws' = ws) as -> by congruence.
    destruct (TimeWindow_add_event_accepts e ws (sub_window_seconds a) Hb)
      as (w' & Hadd & Hstart & Hev & _).
    exists w'. unfold add_event, ensure_current_window.
    rewrite Hty, Hws. simpl. unfold ensure_current_window_at. rewrite Hcur.
    destruct (Z.eqb_spec (TimeWindow.window_start w) ws) as [|_]; [lia|]. simpl.
    rewrite Hadd. simpl. auto.
Qed.

Lemma add_event_alignment_and_order_witness :
  let a := ingest [response_event (seconds 10) 200 (100 # 1)]
             default_aggregator in
  let later := response_event (seconds 17) 200 (100 # 1) in
  let earlier := response_event 0 200 (100 # 1) in
  reachable a /\
  aligned_starts (add_event later a) /\
  increasing_starts (add_event later a) /\
  exists w', current_window (add_event earlier a) = Some w' /\
             TimeWindow.window_start w' = 0 /\
             TimeWindow.events w' = [earlier].
Proof.
  cbv zeta.
  pose (a := ingest [response_event (seconds 10) 200 (100 # 1)]
               default_aggregator).
  pose (later := response_event (seconds 17) 200 (100 # 1)).
  pose (earlier := response_event 0 200 (100 # 1)).
  destruct (add_event_alignment_and_order later a (default_reachable _))
    as ((_ & Hal) & Hinc & _).
  destruct (add_event_alignment_and_order earlier a (default_reachable _))
    as (_ & _ & Hopen).
  split; [apply default_reachable|]. split; [exact Hal|]. split.
  - apply Hinc.
    + unfold increasing_starts. vm_compute. repeat constructor.
    + intros w ws Hw Hws. vm_compute in Hw, Hws.
      injection Hw as <-. injection Hws as <-. vm_compute. discriminate.
  - destruct (Hopen (TimeWindow.add_event
                       (response_event (seconds 10) 200 (100 # 1))
                       (TimeWindow.init (seconds 10) 5)).2 0
                eq_refl eq_refl ltac:(vm_compute; discriminate) eq_refl
                eq_refl eq_refl)
      as (w' & Hc & Hs & Hev & _).
    exists w'. repeat split; assumption.
Defined.

End OrderClaims.

(** ** Latencies that are zero or negative *)

Section Latencies.

Lemma counts_as_error_iff e : counts_as_error e = (400 <=? status_code e).
Proof.
  unfold counts_as_error. destruct (Z.leb_spec 400 (status_code e)) as [H|H].
  - destruct (Z.eqb_spec (status_code e) 0); [lia | reflexivity].
  - apply andb_false_r.
Qed.

Lemma record_event_zero e s :
  (response_time_ms e == 0 # 1)%Q ->
  Stat.record_event e s =
    Stat.mk (Stat.request_count s + 1) (Stat.error_count s + error_increment e)
      (Stat.total_response_time s) (Stat.response_times s).
Proof.
  intros Hz. unfold Stat.record_event, error_increment.
  rewrite (proj2 (truthy_false_iff _) Hz), counts_as_error_iff.
  destruct (400 <=? status_code e); simpl; [reflexivity|].
  now rewrite Z.add_0_r.
Qed.

Lemma record_event_nonzero e s :
  ~ (response_time_ms e == 0 # 1)%Q ->
  Stat.record_event e s =
    Stat.mk (Stat.request_count s + 1) (Stat.error_count s + error_increment e)
      (Stat.total_response_time s + response_time_ms e)%Q
      (Stat.response_times s ++ [response_time_ms e]).
Proof.
  intros Hz. unfold Stat.record_event, error_increment.
  rewrite (proj2 (truthy_true_iff _) Hz), counts_as_error_iff.
  destruct (400 <=? status_code e); simpl; [reflexivity|].
  now rewrite Z.add_0_r.
Qed.

(** C10.  An accepted event whose latency is exactly zero adds one to the
    request count, and one to the error count when its status is 400 or more,
    but leaves the latency sum and the latency samples as they were, so that
    the mean and the percentiles of the sub-window do not move; the same holds
    for the counters of its service and of its endpoint. *)
Theorem zero_latency_counts_request_only (e : MetricsEvent) (w w' : TimeWindow.t) :
  (response_time_ms e == 0 # 1)%Q ->
  TimeWindow.add_event e w = (true, w') ->
  (TimeWindow.request_count w' = TimeWindow.request_count w + 1 /\
   TimeWindow.error_count w' = TimeWindow.error_count w + error_increment e /\
   TimeWindow.total_response_time w' = TimeWindow.total_response_time w /\
   TimeWindow.response_times w' = TimeWindow.response_times w /\
   TimeWindow.get_avg_response_time w' = TimeWindow.get_avg_response_time w /\
   (forall p, TimeWindow.get_percentile_response_time w' p
              = TimeWindow.get_percentile_response_time w p)) /\
  (nonempty (service_name e) = true ->
   Py.dict_get (TimeWindow.service_stats w') (service_name e)
   = let s := scope_before (TimeWindow.service_stats w) (service_name e) in
     Some (Stat.mk (Stat.request_count s + 1)
             (Stat.error_count s + error_increment e)
             (Stat.total_response_time s) (Stat.response_times s))) /\
  (nonempty (api_endpoint e) = true ->
   Py.dict_get (TimeWindow.endpoint_stats w') (TimeWindow.endpoint_key e)
   = let s := scope_before (TimeWindow.endpoint_stats w)
                (TimeWindow.endpoint_key e) in
     Some (Stat.mk (Stat.request_count s + 1)
             (Stat.error_count s + error_increment e)
             (Stat.total_response_time s) (Stat.response_times s))).
Proof.
  intros Hz. unfold TimeWindow.add_event.
  destruct (negb _); [discriminate|].
  rewrite (proj2 (truthy_false_iff _) Hz), counts_as_error_iff.
  intros [= <-]. split; [|split].
  - unfold TimeWindow.get_avg_response_time,
      TimeWindow.get_percentile_response_time, error_increment. simpl.
    repeat split. destruct (400 <=? status_code e); [reflexivity | lia].
  - intros Hs. simpl. rewrite Hs. unfold scope_before.
    rewrite dict_get_update_eq. now rewrite record_event_zero.
  - intros He. simpl. rewrite He. unfold scope_before.
    rewrite dict_get_update_eq. now rewrite record_event_zero.
Qed.

Lemma zero_latency_counts_request_only_witness :
  let w := (TimeWindow.add_event (response_event 0 200 (100 # 1))
              (TimeWindow.init 0 5)).2 in
  let w' := (TimeWindow.add_event zero_latency_event w).2 in
  (response_time_ms zero_latency_event == 0 # 1)%Q /\
  TimeWindow.add_event zero_latency_event w = (true, w') /\
  TimeWindow.request_count w' = 2 /\ TimeWindow.error_count w' = 1 /\
  TimeWindow.response_times w' = [(100 # 1)%Q] /\
  TimeWindow.get_avg_response_time w' = TimeWindow.get_avg_response_time w.
Proof.
  cbv zeta.
  destruct (zero_latency_counts_request_only zero_latency_event
              (TimeWindow.add_event (response_event 0 200 (100 # 1))
                 (TimeWindow.init 0 5)).2
              (TimeWindow.add_event zero_latency_event
                 (TimeWindow.add_event (response_event 0 200 (100 # 1))
                    (TimeWindow.init 0 5)).2).2
              ltac:(reflexivity) ltac:(reflexivity))
    as ((Hr & He & _ & Ht & Ha & _) & _).
  split; [reflexivity|]. split; [reflexivity|].
  split; [exact Hr|]. split; [exact He|]. split; [exact Ht | exact Ha].
Defined.

(** C7, as the specification states it, at a latency of -50 ms: the value is
    appended to the samples and added to the sum, and with one earlier sample
    of 100 ms the snapshot's mean is 25 and its 95th percentile 92.5. *)
Lemma negative_latency_counterexample :
  (response_time_ms negative_latency_event < 0 # 1)%Q /\
  exists w' s,
    TimeWindow.add_event negative_latency_event (TimeWindow.init 0 5)
    = (true, w') /\
    TimeWindow.request_count w' = 1 /\
    TimeWindow.response_times w' = [(-50 # 1)%Q] /\
    TimeWindow.total_response_time w' = (0 + (-50 # 1))%Q /\
    MetricsAggregator.get_current_metrics
      (ingest [response_event 0 200 (100 # 1); negative_latency_event]
         default_aggregator) 0 = Some s /\
    avg_response_time (overall s) = (2500 # 100)%Q /\
    p95_response_time (overall s) = (9250 # 100)%Q.
Proof.
  split; [reflexivity|]. eexists. eexists.
  split; [vm_compute; reflexivity|].
  repeat split; vm_compute; reflexivity.
Qed.

(** C7, amended.  An accepted event with a negative latency adds one to the
    request count and its latency takes part in the latency math like any
    other non-zero value: it is added to the latency sum and appended to the
    latency samples, for the sub-window as a whole and for the counters of
    its service and of its endpoint. *)
Theorem negative_latency_is_recorded (e : MetricsEvent) (w w' : TimeWindow.t) :
  (response_time_ms e < 0 # 1)%Q ->
  TimeWindow.add_event e w = (true, w') ->
  (TimeWindow.request_count w' = TimeWindow.request_count w + 1 /\
   TimeWindow.total_response_time w'
   = (TimeWindow.total_response_time w + response_time_ms e)%Q /\
   TimeWindow.response_times w'
   = TimeWindow.response_times w ++ [response_time_ms e]) /\
  (nonempty (service_name e) = true ->
   Py.dict_get (TimeWindow.service_stats w') (service_name e)
   = let s := scope_before (TimeWindow.service_stats w) (service_name e) in
     Some (Stat.mk (Stat.request_count s + 1)
             (Stat.error_count s + error_increment e)
             (Stat.total_response_time s + response_time_ms e)%Q
             (Stat.response_times s ++ [response_time_ms e]))) /\
  (nonempty (api_endpoint e) = true ->
   Py.dict_get (TimeWindow.endpoint_stats w') (TimeWindow.endpoint_key e)
   = let s := scope_before (TimeWindow.endpoint_stats w)
                (TimeWindow.endpoint_key e) in
     Some (Stat.mk (Stat.request_count s + 1)
             (Stat.error_count s + error_increment e)
             (Stat.total_response_time s + response_time_ms e)%Q
             (Stat.response_times s ++ [response_time_ms e]))).
Proof.
  intros Hneg.
  assert (Hnz : ~ (response_time_ms e == 0 # 1)%Q)
    by (intros E; rewrite E in Hneg; lra).
  unfold TimeWindow.add_event.
  destruct (negb _); [discriminate|].
  rewrite (proj2 (truthy_true_iff _) Hnz).
  intros [= <-]. split; [|split].
  - simpl. repeat split.
  - intros Hs. simpl. rewrite Hs. unfold scope_before.
    rewrite dict_get_update_eq. now rewrite record_event_nonzero.
  - intros He. simpl. rewrite He. unfold scope_before.
    rewrite dict_get_update_eq. now rewrite record_event_nonzero.
Qed.

Lemma negative_latency_is_recorded_witness :
  let w' := (TimeWindow.add_event negative_latency_event
               (TimeWindow.init 0 5)).2 in
  (response_time_ms negative_latency_event < 0 # 1)%Q /\
  TimeWindow.add_event negative_latency_event (TimeWindow.init 0 5)
  = (true, w') /\
  TimeWindow.request_count w' = 0 + 1 /\
  TimeWindow.response_times w' = [] ++ [(-50 # 1)%Q].
Proof.
  cbv zeta.
  destruct (negative_latency_is_recorded negative_latency_event
              (TimeWindow.init 0 5)
              (TimeWindow.add_event negative_latency_event
                 (TimeWindow.init 0 5)).2
              ltac:(reflexivity) ltac:(reflexivity))
    as ((Hr & _ & Ht) & _).
  split; [reflexivity|]. split; [reflexivity|]. split; [exact Hr | exact Ht].
Defined.

End Latencies.

(** ** The alert store under rule evaluation *)

Section AlertSteps.

Import AlertManager.

Lemma fold_left_invariant {A B} (I : B -> Prop) (f : B -> A -> B) (l : list A) :
  (forall b x, I b -> I (f b x)) -> forall b, I b -> I (fold_left f l b).
Proof.
  intros Hf. induction l as [|x l IH]; intros b Hb; simpl; auto.
Qed.

Lemma grows_refl S self : grows S self self.
Proof.
  repeat split; [lia | eauto |].
  intros i a' Hi Hlen. apply lookup_lt_Some in Hi. lia.
Qed.

Lemma grows_trans S self1 self2 self3 :
  grows S self1 self2 -> grows S self2 self3 -> grows S self1 self3.
Proof.
  intros (Hl1 & Hk1 & Hn1) (Hl2 & Hk2 & Hn2). repeat split; [lia | |].
  - intros i a Hi. destruct (Hk1 i a Hi) as (a' & Hi' & Hs').
    destruct (Hk2 i a' Hi') as (a'' & Hi'' & Hs''). exists a''. split; congruence.
  - intros i a3 Hi3 Hlen.
    destruct (Nat.le_gt_cases (length (alerts self2)) i) as [Hge|Hlt]; [eauto|].
    destruct (lookup_lt_is_Some_2 (alerts self2) i Hlt) as [a2 Hi2].
    destruct (Hk2 i a2 Hi2) as (a3' & Hi3' & Hs).
    assert (a3' = a3) as -> by congruence. rewrite Hs. eauto.
Qed.

Lemma grows_mono S S' self self' :
  incl S S' -> grows S self self' -> grows S' self self'.
Proof. intros Hincl (Hl & Hk & Hn). repeat split; eauto. Qed.

Lemma fold_left_grows {A} S (f : t -> A -> t) (l : list A) :
  (forall st x, In x l -> grows S st (f st x)) ->
  forall st, grows S st (fold_left f l st).
Proof.
  induction l as [|x l IH]; intros Hf st; simpl; [apply grows_refl|].
  eapply grows_trans; [apply Hf; now left|].
  apply IH. intros st' y Hy. apply Hf. now right.
Qed.

Lemma trigger_alert_grows alert self self0 :
  alerts self0 = alerts self ->
  grows [alert_scope alert] self (trigger_alert alert self0).
Proof.
  intros Heq. unfold trigger_alert. rewrite Heq.
  repeat split; simpl.
  - rewrite length_app. lia.
  - intros i a Hi. exists a. split; [|reflexivity].
    now apply lookup_app_l_Some.
  - intros i a' Hi Hlen.
    rewrite lookup_app_r in Hi by assumption.
    destruct (i - length (alerts self))%nat; simpl in Hi; [|discriminate].
    injection Hi as <-. now left.
Qed.

Lemma resolve_alert_grows S clock alert_id self :
  grows S self (resolve_alert clock alert_id self).
Proof.
  unfold resolve_alert.
  destruct (active_alerts self !! alert_id) as [ref|]; [|apply grows_refl].
  destruct (alerts self !! ref) as [a|] eqn:Href; [|apply grows_refl].
  repeat split; simpl.
  - rewrite length_insert. lia.
  - intros i b Hi. destruct (decide (i = ref)) as [->|Hne].
    + exists (Alert.set_resolved a (clock (ticks self))).
      split; [apply list_lookup_insert_eq; now apply lookup_lt_Some in Href|].
      assert (b = a) as -> by congruence. reflexivity.
    + exists b. split; [|reflexivity]. now rewrite list_lookup_insert_ne.
  - intros i a' Hi Hlen. apply lookup_lt_Some in Hi.
    rewrite length_insert in Hi. lia.
Qed.

Lemma evaluate_rule_grows clock rule metrics svc ep self :
  grows [(svc, ep)] self (evaluate_rule clock rule metrics svc ep self).
Proof.
  unfold evaluate_rule.
  destruct (Py.dict_get metrics _) as [v|]; [|apply grows_refl].
  destruct (evaluate_condition _ _ _).
  - destruct (active_alerts self !! _); [apply grows_refl|].
    apply (trigger_alert_grows (Alert.mk _ _ _ _ _ _ _ _ svc ep _ _ _)).
    reflexivity.
  - destruct (active_alerts self !! _); [|apply grows_refl].
    apply resolve_alert_grows.
Qed.

Lemma check_overall_metrics_grows clock m self :
  grows [(None, None)] self (check_overall_metrics clock m self).
Proof.
  unfold check_overall_metrics. apply fold_left_grows.
  intros st [k rule] _. destruct (skips_overall rule);
    [apply grows_refl | apply evaluate_rule_grows].
Qed.

Lemma check_service_metrics_grows clock s m self :
  grows [(Some s, None)] self (check_service_metrics clock s m self).
Proof.
  unfold check_service_metrics. apply fold_left_grows.
  intros st [k rule] _. destruct (skips_service rule s);
    [apply grows_refl | apply evaluate_rule_grows].
Qed.

Lemma check_endpoint_metrics_grows clock k m self :
  grows [(fst (parse_endpoint_key k), Some (snd (parse_endpoint_key k)))]
    self (check_endpoint_metrics clock k m self).
Proof.
  unfold check_endpoint_metrics.
  destruct (parse_endpoint_key k) as [svc ep]. simpl.
  apply fold_left_grows.
  intros st [k' rule] _. destruct (skips_endpoint rule svc ep);
    [apply grows_refl | apply evaluate_rule_grows].
Qed.

(** Every alert object that a [check_metrics] call allocates carries one of
    the scopes the call visits. *)
Lemma check_metrics_grows clock md self :
  grows (scopes_of md) self (check_metrics clock md self).
Proof.
  unfold check_metrics, scopes_of.
  eapply grows_trans; [|eapply grows_trans; [|eapply grows_trans]].
  4: { apply fold_left_grows. intros st [k m] Hin.
       eapply grows_mono; [|apply check_endpoint_metrics_grows].
       intros sc [<-|[]]. right. apply in_or_app. right.
       apply in_map_iff. exists (k, m). auto. }
  3: { apply fold_left_grows. intros st [s m] Hin.
       eapply grows_mono; [|apply check_service_metrics_grows].
       intros sc [<-|[]]. right. apply in_or_app. left.
       apply in_map_iff. exists (s, m). auto. }
  2: { eapply grows_mono; [|apply check_overall_metrics_grows].
       intros sc [<-|[]]. now left. }
  repeat split; simpl; [lia | eauto |].
  intros i a' Hi Hlen. apply lookup_lt_Some in Hi. lia.
Qed.


Lemma store_ok_update (f : Alert.t -> Alert.t) r a self
    (store : list Alert.t) (active : gmap string nat) :
  (forall b, alert_key (f b) = alert_key b) ->
  alerts self !! r = Some a ->
  store = <[r := f a]> (alerts self) ->
  (forall id ref, active !! id = Some ref ->
                  active_alerts self !! id = Some ref) ->
  store_ok self ->
  forall id ref, active !! id = Some ref ->
                 exists b, store !! ref = Some b /\ alert_key b = id.
Proof.
  intros Hf Hr -> Hsub Hv id ref Href.
  destruct (Hv id ref (Hsub id ref Href)) as (b & Hb & Hk).
  destruct (decide (ref = r)) as [->|Hne].
  - exists (f a). split.
    + apply list_lookup_insert_eq. now apply lookup_lt_Some in Hr.
    + assert (b = a) as -> by congruence. now rewrite Hf.
  - exists b. split; [now rewrite list_lookup_insert_ne | assumption].
Qed.


Lemma acknowledge_alert_ok clock alert_id self :
  store_ok self -> store_ok (acknowledge_alert clock alert_id self).2.
Proof.
  intros Hv. unfold acknowledge_alert.
  destruct (active_alerts self !! alert_id) as [r|]; [|assumption].
  destruct (alerts self !! r) as [a|] eqn:Hr; [|assumption].
  unfold store_ok. simpl.
  apply (store_ok_update
           (fun b => Alert.set_acknowledged b (clock (ticks self)))
           r a self); auto.
Qed.







End AlertSteps.

(** ** Scopes of the rules and resolution of alerts *)

Section AlertClaims.

Import AlertManager.

(** C2, as the specification states it.  With 5 errors in 100 events the
    error rate is 5.00, which does not exceed 5.0, and the built-in rules
    raise no alert at all.  With 6 errors in 100 events the enabled rule
    [high_error_rate], which has neither service nor endpoint, also raises an
    alert of identity [(high_error_rate, model-api, null)] from the service
    entry of the snapshot. *)
Lemma unscoped_rule_counterexample :
  (exists s,
     MetricsAggregator.get_current_metrics
       (ingest (mixed_errors 95 5) default_aggregator) 0 = Some s /\
     total_requests (overall s) = 100 /\ total_errors (overall s) = 5 /\
     error_rate (overall s) = (500 # 100)%Q /\
     alerts (check_metrics example_clock (metrics_data_of s)
               (init example_clock)) = []) /\
  (exists s rule a,
     MetricsAggregator.get_current_metrics
       (ingest (mixed_errors 94 6) default_aggregator) 0 = Some s /\
     Py.dict_get (alert_rules (init example_clock)) "high_error_rate"
     = Some rule /\
     AlertRule.enabled rule = true /\
     AlertRule.service_name rule = None /\ AlertRule.endpoint rule = None /\
     In a (alerts (check_metrics example_clock (metrics_data_of s)
                     (init example_clock))) /\
     alert_identity a = ("high_error_rate", Some "model-api", None)).
Proof.
  split.
  - eexists. split; [vm_compute; reflexivity|]. repeat split.
  - eexists. eexists. eexists.
    split; [vm_compute; reflexivity|].
    split; [vm_compute; reflexivity|].
    do 3 (split; [reflexivity|]).
    split; [vm_compute; right; left; reflexivity | reflexivity].
Qed.

(** C2, amended.  An enabled rule with no service and no endpoint is passed
    over by none of the three loops of [check_metrics]: it is evaluated
    against the overall metrics and against every service entry and every
    endpoint entry.  Every alert that a [check_metrics] call creates carries
    one of the scopes the call visits, so that the alerts have the identity
    [(rule_id, null, null)] when the snapshot has no service and no endpoint
    entries.  In the mixed-errors scenario (5 errors in 100 events, error
    rate 5.00) the built-in rules raise no alert.  With 6 errors in 100
    events the built-in rule [error_rate > 5.0] raises exactly one alert, of
    severity high and identity [(high_error_rate, null, null)], from the
    overall metrics alone, and three alerts, one per scope, from the whole
    snapshot. *)
Theorem unscoped_rule_scopes :
  (forall rule, AlertRule.enabled rule = true -> unscoped rule ->
     skips_overall rule = false /\
     (forall s, skips_service rule s = false) /\
     (forall s e, skips_endpoint rule s e = false)) /\
  (forall clock md self i a,
     alerts (check_metrics clock md self) !! i = Some a ->
     (length (alerts self) <= i)%nat ->
     In (alert_scope a) (scopes_of md)) /\
  (forall clock md self i a,
     md_services md = [] -> md_endpoints md = [] ->
     alerts (check_metrics clock md self) !! i = Some a ->
     (length (alerts self) <= i)%nat ->
     alert_scope a = (None, None)) /\
  (exists s,
     MetricsAggregator.get_current_metrics
       (ingest (mixed_errors 95 5) default_aggregator) 0 = Some s /\
     error_rate (overall s) = (500 # 100)%Q /\
     alerts (check_metrics example_clock (metrics_data_of s)
               (init example_clock)) = []) /\
  (exists s,
     MetricsAggregator.get_current_metrics
       (ingest (mixed_errors 94 6) default_aggregator) 0 = Some s /\
     error_rate (overall s) = (600 # 100)%Q /\
     map (fun a => (alert_identity a, Alert.severity a))
       (alerts (check_metrics example_clock (overall_only s)
                  (init example_clock)))
     = [ (("high_error_rate", None, None), HIGH) ] /\
     map (fun a => (alert_identity a, Alert.severity a))
       (alerts (check_metrics example_clock (metrics_data_of s)
                  (init example_clock)))
     = [ (("high_error_rate", None, None), HIGH);
         (("high_error_rate", Some "model-api", None), HIGH);
         (("high_error_rate", Some "model-api", Some "/predict"), HIGH) ]).
Proof.
  split; [|split; [|split; [|split]]].
  - intros rule Hen [Hs He].
    unfold skips_overall, skips_service, skips_endpoint.
    rewrite Hen, Hs, He. auto.
  - intros clock md self i a Hi Hlen.
    destruct (check_metrics_grows clock md self) as (_ & _ & Hnew). eauto.
  - intros clock md self i a Hsv Hep Hi Hlen.
    destruct (check_metrics_grows clock md self) as (_ & _ & Hnew).
    specialize (Hnew i a Hi Hlen). unfold scopes_of in Hnew.
    rewrite Hsv, Hep in Hnew. simpl in Hnew. destruct Hnew as [<-|[]].
    reflexivity.
  - eexists. split; [vm_compute; reflexivity|]. split; reflexivity.
  - eexists. split; [vm_compute; reflexivity|].
    split; [reflexivity|]. split; vm_compute; reflexivity.
Qed.

Lemma unscoped_rule_scopes_witness :
  let md := mkMetricsData [("error_rate", (6 # 1)%Q)] [] [] in
  let self' := check_metrics example_clock md (init example_clock) in
  AlertRule.enabled error_rate_rule = true /\ unscoped error_rate_rule /\
  skips_service error_rate_rule "model-api" = false /\
  skips_endpoint error_rate_rule (Some "model-api") "/predict" = false /\
  exists a, alerts self' !! 0%nat = Some a /\ alert_scope a = (None, None).
Proof.
  cbv zeta.
  destruct (proj1 unscoped_rule_scopes error_rate_rule eq_refl
              (conj eq_refl eq_refl)) as (_ & Hsv & Hep).
  split; [reflexivity|]. split; [split; reflexivity|].
  split; [apply Hsv|]. split; [apply Hep|].
  destruct (alerts (check_metrics example_clock
                      (mkMetricsData [("error_rate", (6 # 1)%Q)] [] [])
                      (init example_clock)) !! 0%nat) as [a|] eqn:Ha;
    [|vm_compute in Ha; discriminate].
  exists a. split; [reflexivity|].
  apply (proj1 (proj2 (proj2 unscoped_rule_scopes)) example_clock
           (mkMetricsData [("error_rate", (6 # 1)%Q)] [] [])
           (init example_clock) 0%nat a eq_refl eq_refl Ha).
  simpl. lia.
Defined.




End AlertClaims.

(** ** A failed flush of the storage manager *)

Section StorageClaims.

Import StorageManager.

(** The ways in which the [try] block of [_execute_batch_write] raises: there
    is no pool, no connection can be borrowed, a pending record lacks a
    column, the insert fails, or the connection cannot be handed back. *)
Lemma try_block_raises clock self :
  (postgres_pool self = None -> exists e, (try_block clock self).2 = Some e) /\
  (forall pool e,
     postgres_pool self = Some pool -> acquire pool = Some e ->
     (try_block clock self).2 = Some e) /\
  (forall pool e,
     postgres_pool self = Some pool -> acquire pool = None ->
     batch_data (pending_metrics self) = inl e ->
     (try_block clock self).2 = Some e) /\
  (forall pool batch e,
     postgres_pool self = Some pool -> acquire pool = None ->
     batch_data (pending_metrics self) = inr batch ->
     executemany pool batch = Some e ->
     (try_block clock self).2 = Some e) /\
  (forall pool batch e,
     postgres_pool self = Some pool -> acquire pool = None ->
     batch_data (pending_metrics self) = inr batch ->
     executemany pool batch = None -> release pool = Some e ->
     (try_block clock self).2 = Some e).
Proof.
  unfold try_block, try_insert. repeat split.
  - intros ->. eauto.
  - intros pool e -> ->. reflexivity.
  - intros pool e -> -> ->. reflexivity.
  - intros pool batch e -> -> -> Hex. simpl. now rewrite Hex.
  - intros pool batch e -> -> -> Hex Hrel. simpl. now rewrite Hex.
Qed.

(** C8.  When the [try] block of a flush raises on a non-empty buffer, the
    storage manager logs the error, adds exactly one to [failed_writes],
    empties the buffer, sets the batch timer to the clock reading and returns
    normally.  When it was the insert (or a step before it) that failed, the
    store and the other counters are untouched.  Since the buffer is empty
    afterwards a further flush does nothing, so the rows are never written
    again. *)
Theorem failed_flush_drops_batch (clock : nat -> Z) (self : t) (e : exn) :
  pending_metrics self <> [] ->
  (try_block clock self).2 = Some e ->
  let self1 := (try_block clock self).1 in
  let self' := execute_batch_write clock self in
  log self' = log self1 ++ [LogBatchFailed e] /\
  failed_writes (stats self') = failed_writes (stats self) + 1 /\
  pending_metrics self' = [] /\
  last_batch_time self' = clock (ticks self1) /\
  (forall clock', execute_batch_write clock' self' = self') /\
  (try_insert self = inl e ->
   log self' = log self ++ [LogBatchFailed e] /\
   last_batch_time self' = clock (ticks self) /\
   table self' = table self /\
   total_postgres_writes (stats self') = total_postgres_writes (stats self) /\
   batch_writes (stats self') = batch_writes (stats self) /\
   last_write_time (stats self') = last_write_time (stats self)).
Proof.
  intros Hpending Hfail. unfold execute_batch_write.
  destruct (pending_metrics self) as [|r rows]; [congruence|].
  destruct (try_block clock self) as [self1 res] eqn:Hblock.
  simpl in Hfail. subst res. simpl.
  assert (Hfw : failed_writes (stats self1) = failed_writes (stats self)).
  { unfold try_block in Hblock.
    destruct (try_insert self); injection Hblock as <- _; reflexivity. }
  split; [reflexivity|]. split; [now rewrite Hfw|].
  split; [reflexivity|]. split; [reflexivity|]. split; [reflexivity|].
  intros Hins. unfold try_block in Hblock. rewrite Hins in Hblock.
  injection Hblock as <-. repeat split.
Qed.

Lemma failed_flush_drops_batch_witness :
  pending_metrics loaded_manager <> [] /\
  (try_block example_clock loaded_manager).2 = Some (Exn "connection reset") /\
  let self' := execute_batch_write example_clock loaded_manager in
  log self' = [LogBatchFailed (Exn "connection reset")] /\
  failed_writes (stats self') = 1 /\
  pending_metrics self' = [] /\
  table self' = [].
Proof.
  split; [discriminate|]. split; [reflexivity|]. cbv zeta.
  destruct (failed_flush_drops_batch example_clock loaded_manager
              (Exn "connection reset") ltac:(discriminate) eq_refl)
    as (_ & Hfail & Hpend & _ & _ & Hins).
  destruct (Hins eq_refl) as (Hlog & _ & Htab & _).
  split; [exact Hlog|]. split; [exact Hfail|]. split; [exact Hpend | exact Htab].
Defined.

End StorageClaims.

(** * Further properties of the code *)

(** ** Percentiles stay inside the sample and grow with the rank *)

Section PercentileBounds.

Lemma Qle_trans_cls : Relations_1.Transitive Qle.
Proof. intros x y z. apply Qle_trans. Qed.

Lemma sorted_nth_le (S : list Q) i j a b :
  Sorted Qle S -> (i <= j)%nat ->
  nth_error S i = Some a -> nth_error S j = Some b -> (a <= b)%Q.
Proof.
  intros Hs. apply Sorted_StronglySorted in Hs; [|exact Qle_trans_cls].
  revert i j. induction Hs as [|x l Hl IH Hx]; intros i j Hij Hi Hj.
  - destruct i; discriminate.
  - destruct i as [|i], j as [|j]; simpl in *.
    + injection Hi as <-. injection Hj as <-. apply Qle_refl.
    + injection Hi as <-. apply nth_error_In in Hj.
      rewrite List.Forall_forall in Hx. auto.
    + lia.
    + apply (IH i j); [lia | assumption..].
Qed.

Lemma nth_error_perm_In (S L : list Q) i x :
  Permutation S L -> nth_error S i = Some x -> In x L.
Proof.
  intros Hp Hi. apply nth_error_In in Hi. eapply Permutation_in; eauto.
Qed.

(** The weight [k - floor k] of the interpolation lies in [0, 1). *)
Lemma floor_weight k : (0 <= k - inject_Z (Qfloor k))%Q /\ (k - inject_Z (Qfloor k) < 1)%Q.
Proof.
  pose proof (Qfloor_le k). pose proof (Qlt_floor k) as H2.
  rewrite inject_Z_plus in H2. change (inject_Z 1) with 1%Q in H2. split; lra.
Qed.

(** X1.  [_calculate_percentile] never leaves the sample: for a non-empty
    list of latencies and a percentile between 0 and 100 the result lies
    between any lower and upper bound of the values, so between the smallest
    and the largest of them. *)
Theorem percentile_within_extremes (L : list Q) (p lo hi : Q) :
  L <> [] -> (0 <= p)%Q -> (p <= 100 # 1)%Q ->
  (forall x, In x L -> (lo <= x)%Q /\ (x <= hi)%Q) ->
  exists v, calculate_percentile L p = Some v /\ (lo <= v)%Q /\ (v <= hi)%Q.
Proof.
  intros HL Hp0 Hp1 Hb.
  destruct (percentile_interpolates L p HL Hp0 Hp1)
    as (a & b & v & Ha & Hbb & Hv & Heq).
  exists v. split; [assumption|].
  pose proof (sorted_perm L) as Hperm.
  destruct (Hb a (nth_error_perm_In _ _ _ _ Hperm Ha)) as [Ha1 Ha2].
  destruct (Hb b (nth_error_perm_In _ _ _ _ Hperm Hbb)) as [Hb1 Hb2].
  destruct (floor_weight (inject_Z (Z.of_nat (length L) - 1) * (p / (100 # 1)))) as [Hw0 Hw1].
  rewrite Heq.
  set (w := (_ - inject_Z (Qfloor _))%Q) in *. clearbody w.
  split; nra.
Qed.

Lemma percentile_within_extremes_witness :
  decile_latencies <> [] /\
  (forall x, In x decile_latencies -> (10 # 1 <= x)%Q /\ (x <= 100 # 1)%Q) /\
  exists v, calculate_percentile decile_latencies (95 # 1) = Some v /\
            (10 # 1 <= v)%Q /\ (v <= 100 # 1)%Q.
Proof.
  assert (Hb : forall x, In x decile_latencies ->
                         (10 # 1 <= x)%Q /\ (x <= 100 # 1)%Q).
  { intros x Hx. simpl in Hx.
    repeat (destruct Hx as [<-|Hx]; [split; discriminate|]). contradiction. }
  split; [discriminate|]. split; [exact Hb|].
  apply (percentile_within_extremes decile_latencies (95 # 1) (10 # 1) (100 # 1));
    [discriminate | discriminate | discriminate | exact Hb].
Defined.

Lemma percentile_rank_le (n : Z) (p q : Q) :
  1 <= n -> (0 <= p)%Q -> (p <= q)%Q ->
  (inject_Z (n - 1) * (p / (100 # 1)) <= inject_Z (n - 1) * (q / (100 # 1)))%Q.
Proof.
  intros Hn Hp Hpq.
  assert (Hn1 : (0 <= inject_Z (n - 1))%Q) by (rewrite <- (Zle_Qle 0); lia).
  assert (H : (p / (100 # 1) <= q / (100 # 1))%Q).
  { unfold Qdiv. change (/ (100 # 1))%Q with (1 # 100)%Q. lra. }
  revert Hn1 H. generalize (inject_Z (n - 1)) (p / (100 # 1))%Q (q / (100 # 1))%Q.
  intros a b c ? ?. nra.
Qed.

Lemma ceiling_floor_gap k : Qfloor k <= Qceiling k <= Qfloor k + 1.
Proof.
  pose proof (Qle_floor_ceiling k) as H1. rewrite <- Zle_Qle in H1.
  split; [assumption|].
  pose proof (Qceiling_lt k) as Hc. pose proof (Qlt_floor k) as Hf.
  assert (Qceiling k - 1 < Qfloor k + 1); [|lia].
  rewrite Zlt_Qlt. eapply Qlt_trans; eassumption.
Qed.

Lemma calculate_percentile_mono (L : list Q) (p q : Q) :
  L <> [] -> (0 <= p)%Q -> (p <= q)%Q -> (q <= 100 # 1)%Q ->
  exists vp vq,
    calculate_percentile L p = Some vp /\
    calculate_percentile L q = Some vq /\ (vp <= vq)%Q.
Proof.
  intros HL Hp Hpq Hq.
  assert (Hp1 : (p <= 100 # 1)%Q) by lra.
  assert (Hq0 : (0 <= q)%Q) by lra.
  destruct (percentile_interpolates L p HL Hp Hp1)
    as (a1 & b1 & v1 & Ha1 & Hb1 & Hv1 & He1).
  destruct (percentile_interpolates L q HL Hq0 Hq)
    as (a2 & b2 & v2 & Ha2 & Hb2 & Hv2 & He2).
  exists v1, v2. split; [assumption|]. split; [assumption|].
  assert (Hn : 1 <= Z.of_nat (length L)) by (destruct L; [congruence | simpl; lia]).
  pose proof (percentile_rank_le _ p q Hn Hp Hpq) as Hk.
  set (k1 := (inject_Z (Z.of_nat (length L) - 1) * (p / (100 # 1)))%Q) in *.
  set (k2 := (inject_Z (Z.of_nat (length L) - 1) * (q / (100 # 1)))%Q) in *.
  pose proof (sorted_ascending L) as Hs.
  pose proof (ceiling_floor_gap k1) as [Hg1 Hg1'].
  pose proof (ceiling_floor_gap k2) as [Hg2 Hg2'].
  pose proof (Qfloor_resp_le _ _ Hk) as Hff.
  pose proof (floor_weight k1) as [Hw1 Hw1'].
  pose proof (floor_weight k2) as [Hw2 Hw2'].
  assert (Hab1 : (a1 <= b1)%Q).
  { apply (fun H => sorted_nth_le _ _ _ _ _ Hs H Ha1 Hb1). lia. }
  assert (Hab2 : (a2 <= b2)%Q).
  { apply (fun H => sorted_nth_le _ _ _ _ _ Hs H Ha2 Hb2). lia. }
  rewrite He1, He2.
  destruct (Z_le_gt_dec (Qceiling k1) (Qfloor k2)) as [Hcf|Hcf].
  - assert (Hba : (b1 <= a2)%Q).
    { apply (fun H => sorted_nth_le _ _ _ _ _ Hs H Hb1 Ha2). lia. }
    set (w1 := (k1 - inject_Z (Qfloor k1))%Q) in *.
    set (w2 := (k2 - inject_Z (Qfloor k2))%Q) in *.
    clearbody w1 w2. nra.
  - assert (Hf : Qfloor k2 = Qfloor k1) by lia.
    assert (Hc1 : Qceiling k1 = Qfloor k1 + 1) by lia.
    pose proof (Qceiling_lt k1) as Hlt1. rewrite Hc1 in Hlt1.
    replace (Qfloor k1 + 1 - 1) with (Qfloor k1) in Hlt1 by lia.
    pose proof (Qle_ceiling k2) as Hle2.
    assert (Hc2 : Qceiling k2 = Qfloor k1 + 1).
    { assert (Qfloor k1 < Qceiling k2); [|lia].
      rewrite Zlt_Qlt. lra. }
    rewrite Hf in *. rewrite Hc1 in Hb1. rewrite Hc2 in Hb2.
    assert (a2 = a1) as -> by congruence.
    assert (b2 = b1) as -> by congruence.
    revert Hk Hab1. generalize (inject_Z (Qfloor k1)). intros f ? ?. nra.
Qed.

(** X2.  [_calculate_percentile] is monotone in the percentile: on the same
    non-empty sample a higher percentile between 0 and 100 never gives a
    smaller value. *)
Theorem percentile_monotone (values : list Q) (p q : Q) :
  values <> [] -> (0 <= p)%Q -> (p <= q)%Q -> (q <= 100 # 1)%Q ->
  exists vp vq,
    calculate_percentile values p = Some vp /\
    calculate_percentile values q = Some vq /\ (vp <= vq)%Q.
Proof. apply calculate_percentile_mono. Qed.

Lemma percentile_monotone_witness :
  decile_latencies <> [] /\ (50 # 1 <= 95 # 1)%Q /\
  exists vp vq,
    calculate_percentile decile_latencies (50 # 1) = Some vp /\
    calculate_percentile decile_latencies (95 # 1) = Some vq /\ (vp <= vq)%Q.
Proof.
  split; [discriminate|]. split; [discriminate|].
  apply (percentile_monotone decile_latencies (50 # 1) (95 # 1));
    discriminate.
Defined.

Lemma round_half_even_mono x y :
  (x <= y)%Q -> Py.round_half_even x <= Py.round_half_even y.
Proof.
  intros Hxy. pose proof (Qfloor_resp_le _ _ Hxy) as Hf.
  pose proof (round_half_even_bounds x) as [Hx1 Hx2].
  pose proof (round_half_even_bounds y) as [Hy1 Hy2].
  destruct (Z.eq_dec (Qfloor x) (Qfloor y)) as [E|E]; [|lia].
  unfold Py.round_half_even. rewrite E.
  destruct (Qcompare (x - inject_Z (Qfloor y)) (1 # 2)) eqn:Cx;
    destruct (Qcompare (y - inject_Z (Qfloor y)) (1 # 2)) eqn:Cy;
    try (destruct (Z.even (Qfloor y)); lia); try lia.
  - (* x at the tie, y below it *)
    apply Qeq_alt in Cx. apply Qlt_alt in Cy. lra.
  - apply Qgt_alt in Cx. apply Qeq_alt in Cy. lra.
  - apply Qgt_alt in Cx. apply Qlt_alt in Cy. lra.
Qed.

Lemma round2_mono x y : (x <= y)%Q -> (Py.round2 x <= Py.round2 y)%Q.
Proof.
  intros H. unfold Py.round2, Qle. simpl.
  assert (Py.round_half_even (x * (100 # 1)) <= Py.round_half_even (y * (100 # 1))).
  { apply round_half_even_mono. lra. }
  lia.
Qed.

Lemma percentiles_ordered ts v95 v99 :
  calculate_percentile ts (95 # 1) = Some v95 ->
  calculate_percentile ts (99 # 1) = Some v99 -> (v95 <= v99)%Q.
Proof.
  intros H95 H99. destruct ts as [|x ts].
  - injection H95 as <-. injection H99 as <-. lra.
  - destruct (calculate_percentile_mono (x :: ts) (95 # 1) (99 # 1))
      as (a & b & Ha & Hb & Hab); [discriminate | lra | lra | lra |].
    congruence.
Qed.

End PercentileBounds.

Section SnapshotPercentiles.

Import MetricsAggregator.

Lemma scope_metrics_ordered self r e ts m :
  scope_metrics self r e ts = Some m -> percentiles_in_order m.
Proof.
  unfold scope_metrics.
  destruct (truediv r _); simpl; [|discriminate].
  destruct (if 0 <? r then _ else _); simpl; [|discriminate].
  destruct (calculate_percentile ts (95 # 1)) as [v95|] eqn:H95; simpl; [|discriminate].
  destruct (calculate_percentile ts (99 # 1)) as [v99|] eqn:H99; simpl; [|discriminate].
  intros [= <-]. unfold percentiles_in_order. simpl.
  apply round2_mono. eapply percentiles_ordered; eauto.
Qed.

Lemma finish_aggregate_ordered self agg d :
  finish_aggregate self agg = Some d ->
  Forall (fun '(_, m) => percentiles_in_order m) d.
Proof.
  revert d. induction agg as [|[name a] rest IH]; simpl; intros d.
  - intros [= <-]. constructor.
  - destruct (scope_metrics self _ _ _) as [m|] eqn:Hm; simpl; [|discriminate].
    destruct (finish_aggregate self rest) as [rest'|]; simpl; [|discriminate].
    intros [= <-]. constructor; [|now apply IH].
    eapply scope_metrics_ordered; eauto.
Qed.

(** X3.  In every snapshot that [get_current_metrics] returns the rounded
    95th percentile is at most the rounded 99th percentile, in the overall
    entry, in every service entry and in every endpoint entry. *)
Theorem snapshot_percentiles_ordered a now s :
  get_current_metrics a now = Some s ->
  percentiles_in_order (overall s) /\
  Forall (fun '(_, m) => percentiles_in_order m) (services s) /\
  Forall (fun '(_, m) => percentiles_in_order m) (endpoints s).
Proof.
  unfold get_current_metrics.
  destruct (all_windows a) as [|w ws].
  - intros [= <-]. simpl. split; [unfold percentiles_in_order; simpl; lra|].
    split; constructor.
  - destruct (scope_metrics a _ _ _) as [ov|] eqn:Hov; simpl; [|discriminate].
    destruct (aggregate_service_metrics a _) as [sv|] eqn:Hsv; simpl; [|discriminate].
    destruct (aggregate_endpoint_metrics a _) as [ep|] eqn:Hep; simpl; [|discriminate].
    destruct (summaries _); simpl; [|discriminate].
    intros [= <-]. simpl. split; [eapply scope_metrics_ordered; eauto|].
    split; eapply finish_aggregate_ordered; eauto.
Qed.

Lemma snapshot_percentiles_ordered_witness :
  exists s,
    get_current_metrics (ingest two_buckets default_aggregator) 0 = Some s /\
    percentiles_in_order (overall s) /\
    Forall (fun '(_, m) => percentiles_in_order m) (services s).
Proof.
  destruct (get_current_metrics (ingest two_buckets default_aggregator) 0)
    as [s|] eqn:E; [|vm_compute in E; discriminate].
  exists s. split; [reflexivity|].
  destruct (snapshot_percentiles_ordered _ 0 s E) as (H1 & H2 & _).
  split; assumption.
Defined.

End SnapshotPercentiles.

(** ** The counters of the live sub-windows *)

Section WindowCounters.

Import MetricsAggregator.

Lemma sumQ_snoc l x : (Py.sumQ (l ++ [x]) == Py.sumQ l + x)%Q.
Proof.
  induction l as [|y l IH]; simpl; [ring|]. rewrite IH. ring.
Qed.

Lemma TimeWindow_add_event_consistent e w ok w' :
  TimeWindow.add_event e w = (ok, w') ->
  window_consistent w -> window_consistent w'.
Proof.
  unfold TimeWindow.add_event.
  destruct (negb _) eqn:Hrange; [intros [= <- <-]; auto|].
  apply negb_false_iff, andb_true_iff in Hrange as [H1 H2].
  apply Z.leb_le in H1. apply Z.ltb_lt in H2.
  intros Heq (Hr & He & Ht & Hs & Hin).
  assert (Hw' : w' = TimeWindow.mk (TimeWindow.window_start w)
    (TimeWindow.window_end w) (TimeWindow.duration_seconds w)
    (TimeWindow.events w ++ [e]) (TimeWindow.request_count w + 1)
    (if counts_as_error e then TimeWindow.error_count w + 1 else TimeWindow.error_count w)
    (if Py.truthy (response_time_ms e) then (TimeWindow.total_response_time w + response_time_ms e)%Q else TimeWindow.total_response_time w)
    (if Py.truthy (response_time_ms e) then TimeWindow.response_times w ++ [response_time_ms e] else TimeWindow.response_times w)
    (TimeWindow.service_stats w') (TimeWindow.endpoint_stats w')).
  { destruct (Py.truthy (response_time_ms e)); injection Heq as _ <-; reflexivity. }
  rewrite Hw'. unfold window_consistent. simpl.
  rewrite !List.filter_app, !length_app. simpl. unfold has_latency.
  repeat split.
  - lia.
  - destruct (counts_as_error e); simpl; lia.
  - destruct (Py.truthy (response_time_ms e)); simpl.
    + now rewrite map_app, Ht.
    + now rewrite app_nil_r.
  - destruct (Py.truthy (response_time_ms e)); [|assumption].
    rewrite sumQ_snoc, Hs. reflexivity.
  - apply Forall_app. split; [assumption|]. constructor; [lia | constructor].
Qed.

Lemma init_consistent ws d : window_consistent (TimeWindow.init ws d).
Proof. unfold window_consistent. simpl. repeat split; try reflexivity. constructor. Qed.

(** X4.  In every live sub-window of an aggregator that was built by the
    constructor and fed with events, [request_count] is the number of stored
    events, [error_count] the number of those with a status from 400 on,
    [response_times] their non-zero latencies in arrival order,
    [total_response_time] the sum of these, and every stored event lies
    inside the window. *)
Theorem live_windows_consistent a :
  reachable a -> Forall window_consistent (all_windows a).
Proof.
  intros (ws & sub & t0 & a0 & events & Hinit & ->).
  apply ingest_invariant.
  - intros e a Ha. apply all_windows_Forall; [| |assumption].
    + intros s. apply init_consistent.
    + intros w ok w' Hw Hadd. eapply TimeWindow_add_event_consistent; eauto.
  - apply init_fields in Hinit as (_ & _ & _ & _ & ->). constructor.
Qed.

Lemma live_windows_consistent_witness :
  reachable (ingest two_buckets default_aggregator) /\
  Forall window_consistent
    (all_windows (ingest two_buckets default_aggregator)).
Proof.
  split; [apply default_reachable|].
  apply (live_windows_consistent (ingest two_buckets default_aggregator)).
  apply default_reachable.
Defined.

Lemma reachable_window_shape a :
  reachable a -> Forall (window_shape (sub_window_seconds a)) (all_windows a).
Proof.
  intros (ws & sub & t0 & a0 & events & Hinit & ->).
  apply (ingest_invariant
           (fun a => Forall (window_shape (sub_window_seconds a)) (all_windows a))).
  - intros e a Ha. rewrite (proj1 (proj2 (add_event_config e a))).
    apply all_windows_Forall; [| |assumption].
    + intros s. split; reflexivity.
    + intros w ok w' [Hd He] Hadd.
      apply TimeWindow_add_event_frame in Hadd as (Hs & He' & Hd').
      split; congruence.
  - apply init_fields in Hinit as (_ & _ & _ & _ & ->). constructor.
Qed.

Lemma add_event_not_response e a :
  is_response e = false -> add_event e a = a.
Proof. unfold add_event, is_response. now intros ->. Qed.

Lemma window_start_config a a' t :
  sub_window_seconds a' = sub_window_seconds a ->
  get_window_start_time a' t = get_window_start_time a t.
Proof. unfold get_window_start_time. now intros ->. Qed.

Lemma window_start_mono a t1 t2 ws1 ws2 :
  0 < sub_window_seconds a -> t1 <= t2 ->
  get_window_start_time a t1 = Some ws1 ->
  get_window_start_time a t2 = Some ws2 -> ws1 <= ws2.
Proof.
  intros Hsub Ht. unfold get_window_start_time.
  destruct (sub_window_seconds a =? 0); [discriminate|].
  intros [= <-] [= <-].
  assert (H1 : Z.quot t1 1000000 <= Z.quot t2 1000000)
    by (apply Z.quot_le_mono; lia).
  pose proof (Z.div_le_mono _ _ (sub_window_seconds a) Hsub H1). nia.
Qed.

Lemma window_start_idem a t ws :
  get_window_start_time a t = Some ws -> get_window_start_time a ws = Some ws.
Proof.
  unfold get_window_start_time.
  destruct (Z.eqb_spec (sub_window_seconds a) 0); [discriminate|].
  intros [= <-]. f_equal.
  rewrite Z.quot_mul by lia. rewrite Z.div_mul by assumption. reflexivity.
Qed.

Lemma window_end_after a t ws :
  0 < sub_window_seconds a ->
  get_window_start_time a t = Some ws ->
  t < ws + sub_window_seconds a * 1000000.
Proof.
  intros Hsub. unfold get_window_start_time.
  destruct (Z.eqb_spec (sub_window_seconds a) 0); [lia|].
  intros [= <-].
  assert (Hs : t < (Z.quot t 1000000 + 1) * 1000000).
  { destruct (Z.le_gt_cases 0 t) as [Hp|Hn].
    - rewrite Z.quot_div_nonneg by lia.
      pose proof (Z.mod_pos_bound t 1000000 ltac:(lia)).
      pose proof (Z.div_mod t 1000000 ltac:(lia)). lia.
    - replace t with (- (- t)) at 2 by lia.
      rewrite Z.quot_opp_l by lia. rewrite Z.quot_div_nonneg by lia.
      pose proof (Z.mod_pos_bound (- t) 1000000 ltac:(lia)).
      pose proof (Z.div_mod (- t) 1000000 ltac:(lia)). lia. }
  set (s := Z.quot t 1000000) in *. set (d := sub_window_seconds a) in *.
  pose proof (Z.mod_pos_bound s d Hsub) as Hm.
  pose proof (Z.div_mod s d ltac:(lia)) as Hdm. nia.
Qed.

(** X5.  [_get_window_start_time] for a positive sub-window length: the
    bucket of a later time never starts earlier, the start of a bucket is its
    own bucket, every time lies before the end of its bucket, and a time from
    the epoch on lies inside it. *)
Theorem window_start_time_buckets a t1 t2 :
  0 < sub_window_seconds a -> t1 <= t2 ->
  exists ws1 ws2,
    get_window_start_time a t1 = Some ws1 /\
    get_window_start_time a t2 = Some ws2 /\
    ws1 <= ws2 /\
    get_window_start_time a ws1 = Some ws1 /\
    t1 < ws1 + sub_window_seconds a * 1000000 /\
    (0 <= t1 -> ws1 <= t1).
Proof.
  intros Hsub Ht.
  assert (H : forall t, exists ws, get_window_start_time a t = Some ws).
  { intros t. unfold get_window_start_time.
    destruct (Z.eqb_spec (sub_window_seconds a) 0); [lia | eauto]. }
  destruct (H t1) as [ws1 H1]. destruct (H t2) as [ws2 H2].
  exists ws1, ws2. split; [assumption|]. split; [assumption|].
  split; [eapply window_start_mono; eauto|].
  split; [eapply window_start_idem; eauto|].
  split; [eapply window_end_after; eauto|].
  intros H0. destruct (window_start_bounds a t1 Hsub H0) as (ws & Hws & Hb).
  assert (ws = ws1) as <- by congruence. lia.
Qed.

Lemma window_start_time_buckets_witness :
  0 < sub_window_seconds default_aggregator /\ seconds 7 <= seconds 12 /\
  exists ws1 ws2,
    get_window_start_time default_aggregator (seconds 7) = Some ws1 /\
    get_window_start_time default_aggregator (seconds 12) = Some ws2 /\
    ws1 <= ws2 /\
    get_window_start_time default_aggregator ws1 = Some ws1.
Proof.
  split; [simpl; lia|]. split; [unfold seconds; lia|].
  destruct (window_start_time_buckets default_aggregator (seconds 7)
              (seconds 12) ltac:(simpl; lia) ltac:(unfold seconds; lia))
    as (ws1 & ws2 & H1 & H2 & H3 & H4 & _).
  exists ws1, ws2. repeat split; assumption.
Defined.

End WindowCounters.

(** ** Streams in time order *)

Section OrderedStreams.

Import MetricsAggregator.

Lemma is_response_true e : is_response e = true <-> event_type e = API_RESPONSE.
Proof. unfold is_response. destruct (event_type e); simpl; split; congruence. Qed.

Lemma add_event_current e a ws :
  is_response e = true ->
  get_window_start_time a (timestamp e) = Some ws ->
  exists w', current_window (add_event e a) = Some w' /\
             TimeWindow.window_start w' = ws.
Proof.
  intros Hty Hws. unfold add_event. unfold is_response in Hty. rewrite Hty. simpl.
  unfold ensure_current_window. rewrite Hws. simpl.
  unfold ensure_current_window_at.
  destruct (current_window a) as [w|] eqn:Hcur.
  - destruct (Z.eqb_spec (TimeWindow.window_start w) ws) as [Heq|Hne]; simpl.
    + rewrite Hcur.
      destruct (TimeWindow.add_event e w) as [[] w'] eqn:Hadd; simpl.
      * exists w'. split; [reflexivity|].
        apply TimeWindow_add_event_frame in Hadd as (-> & _). assumption.
      * exists w. auto.
    + destruct (TimeWindow.add_event e _) as [[] w'] eqn:Hadd; simpl.
      * exists w'. split; [reflexivity|].
        now apply TimeWindow_add_event_frame in Hadd as (-> & _).
      * eexists. split; reflexivity.
  - simpl. destruct (TimeWindow.add_event e _) as [[] w'] eqn:Hadd; simpl.
    + exists w'. split; [reflexivity|].
      now apply TimeWindow_add_event_frame in Hadd as (-> & _).
    + eexists. split; reflexivity.
Qed.

Lemma add_event_keeps_increasing e a :
  (current_window a = None -> windows a = []) ->
  increasing_starts a ->
  (forall w ws, current_window a = Some w ->
                get_window_start_time a (timestamp e) = Some ws ->
                TimeWindow.window_start w <= ws) ->
  increasing_starts (add_event e a).
Proof.
  intros Hnone Hinc Hlate. unfold increasing_starts in *.
  destruct (starts_step e a) as [-> | (j & ws & Hws & Hne & ->)]; [assumption|].
  apply StronglySorted_snoc; [now apply StronglySorted_skipn|].
  apply Forall_skipn.
  unfold starts, all_windows in *.
  destruct (current_window a) as [w|] eqn:Hcur.
  - rewrite map_app in *. simpl in *.
    pose proof (StronglySorted_below_last _ _ Hinc) as Hbelow.
    specialize (Hlate w ws eq_refl Hws). specialize (Hne w eq_refl).
    apply Forall_app. split.
    + eapply List.Forall_impl; [|exact Hbelow]. simpl. intros; lia.
    + constructor; [lia | constructor].
  - rewrite (Hnone eq_refl). constructor.
Qed.

Lemma add_event_keeps_current e a :
  (current_window a = None -> windows a = []) ->
  current_window (add_event e a) = None -> windows (add_event e a) = [].
Proof.
  intros Ha. destruct (add_event_shape e a) as [-> | | ]; [assumption | congruence..].
Qed.

Lemma ordered_stream events : forall bound a,
  ordered_state bound a ->
  StronglySorted Z.le
    (match bound with Some b => [b] | None => [] end
     ++ map timestamp (List.filter is_response events)) ->
  increasing_starts (ingest events a).
Proof.
  induction events as [|e es IH]; intros bound a (Hsub & Hnone & Hinc & Hcur) Hsorted.
  - exact Hinc.
  - simpl. simpl in Hsorted.
    destruct (is_response e) eqn:Hty.
    + assert (Hws : exists ws, get_window_start_time a (timestamp e) = Some ws).
      { unfold get_window_start_time.
        destruct (Z.eqb_spec (sub_window_seconds a) 0); [lia | eauto]. }
      destruct Hws as [ws Hws].
      destruct (add_event_current e a ws Hty Hws) as (w' & Hc' & Hs').
      apply (IH (Some (timestamp e))).
      * repeat split.
        -- now rewrite (proj1 (proj2 (add_event_config e a))).
        -- now apply add_event_keeps_current.
        -- apply add_event_keeps_increasing; try assumption.
           intros w ws0 Hw Hws0. destruct (Hcur w Hw) as (b & -> & Hb).
           simpl in Hsorted. apply StronglySorted_inv in Hsorted as [_ Hall].
           apply Forall_inv in Hall.
           eapply window_start_mono; eauto.
        -- intros w0 Hw0. exists (timestamp e). split; [reflexivity|].
           rewrite (window_start_config a) by apply add_event_config.
           congruence.
      * destruct bound as [b|]; simpl in *; [|assumption].
        now apply StronglySorted_inv in Hsorted as [Hs _].
    + rewrite (add_event_not_response e a Hty).
      apply (IH bound); [repeat split; assumption | assumption].
Qed.

(** X6.  When the response events of a stream arrive in time order and the
    sub-window length is positive, the starts of the live sub-windows are
    strictly increasing after the whole stream, whatever other events are
    mixed in. *)
Theorem in_order_stream_increasing ws sub t0 a0 events :
  init ws sub t0 = Some a0 -> 0 < sub ->
  StronglySorted Z.le (map timestamp (List.filter is_response events)) ->
  increasing_starts (ingest events a0).
Proof.
  intros Hinit Hsub Hsorted.
  apply init_fields in Hinit as (_ & Hs & _ & _ & Hall).
  apply (ordered_stream events None); [|exact Hsorted].
  unfold all_windows in Hall.
  destruct (current_window a0) eqn:Hc.
  - now destruct (windows a0).
  - unfold ordered_state. split; [lia|]. split; [intros _; exact Hall|].
    split; [|congruence].
    unfold increasing_starts, starts, all_windows. rewrite Hc, Hall. constructor.
Qed.

Lemma in_order_stream_increasing_witness :
  init 60 5 0 = Some default_aggregator /\
  StronglySorted Z.le (map timestamp (List.filter is_response two_buckets)) /\
  increasing_starts (ingest two_buckets default_aggregator).
Proof.
  assert (Hs : StronglySorted Z.le
                 (map timestamp (List.filter is_response two_buckets))).
  { simpl. unfold seconds. repeat constructor. lia. }
  split; [reflexivity|]. split; [exact Hs|].
  apply (in_order_stream_increasing 60 5 0 default_aggregator two_buckets);
    [reflexivity | lia | exact Hs].
Defined.

End OrderedStreams.

(** ** The counter of processed events *)

Section ProcessedEvents.

Import MetricsAggregator.

Lemma TimeWindow_add_event_in_range e w :
  TimeWindow.window_start w <= timestamp e < TimeWindow.window_end w ->
  exists w', TimeWindow.add_event e w = (true, w') /\
             TimeWindow.request_count w' = TimeWindow.request_count w + 1.
Proof.
  intros [H1 H2]. unfold TimeWindow.add_event.
  destruct (Z.leb_spec (TimeWindow.window_start w) (timestamp e)); [|lia].
  destruct (Z.ltb_spec (timestamp e) (TimeWindow.window_end w)); [|lia]. simpl.
  destruct (Py.truthy (response_time_ms e)); eexists; split; reflexivity.
Qed.

Lemma TimeWindow_add_event_out_of_range e w :
  ~ (TimeWindow.window_start w <= timestamp e < TimeWindow.window_end w) ->
  TimeWindow.add_event e w = (false, w).
Proof.
  intros H. unfold TimeWindow.add_event.
  destruct (Z.leb_spec (TimeWindow.window_start w) (timestamp e));
    destruct (Z.ltb_spec (timestamp e) (TimeWindow.window_end w));
    simpl; try reflexivity; lia.
Qed.

Lemma TimeWindow_add_event_request e w ok w' :
  TimeWindow.add_event e w = (ok, w') ->
  TimeWindow.request_count w' =
  TimeWindow.request_count w + (if ok then 1 else 0).
Proof.
  unfold TimeWindow.add_event.
  destruct (negb _); [intros [= <- <-]; lia|].
  destruct (if Py.truthy _ then _ else _) as [tot tms].
  intros [= <- <-]. reflexivity.
Qed.

(** One [add_event] with its effect on the counter of processed events. *)
Lemma add_event_accounting e a :
  add_event e a = a \/
  (exists w ok w',
      current_window a = Some w /\
      TimeWindow.add_event e w = (ok, w') /\
      windows (add_event e a) = windows a /\
      current_window (add_event e a) = Some w' /\
      total_events_processed (add_event e a)
      = total_events_processed a + (if ok then 1 else 0)) \/
  (exists ws ok w',
      get_window_start_time a (timestamp e) = Some ws /\
      (forall w, current_window a = Some w -> TimeWindow.window_start w <> ws) /\
      TimeWindow.add_event e (TimeWindow.init ws (sub_window_seconds a))
      = (ok, w') /\
      windows (add_event e a) =
        match current_window a with
        | Some w => Py.deque_append (Z.to_nat (num_sub_windows a)) (windows a) w
        | None => windows a
        end /\
      current_window (add_event e a) = Some w' /\
      total_events_processed (add_event e a)
      = total_events_processed a + (if ok then 1 else 0)).
Proof.
  unfold add_event.
  destruct (negb _); [now left|].
  unfold ensure_current_window.
  destruct (get_window_start_time a (timestamp e)) as [ws|] eqn:Hws; simpl;
    [|now left].
  unfold ensure_current_window_at.
  destruct (current_window a) as [w|] eqn:Hcur.
  - destruct (Z.eqb_spec (TimeWindow.window_start w) ws) as [Heq|Hne]; simpl.
    + rewrite Hcur.
      destruct (TimeWindow.add_event e w) as [ok w'] eqn:Hadd.
      right; left. exists w, ok, w'. split; [reflexivity|]. split; [assumption|].
      destruct ok; simpl.
      * auto.
      * apply TimeWindow_add_event_rejected in Hadd as ->.
        repeat split; auto; lia.
    + destruct (TimeWindow.add_event e _) as [ok w'] eqn:Hadd.
      right; right. exists ws, ok, w'.
      split; [reflexivity|]. split; [intros w0 Hw0; congruence|].
      split; [assumption|].
      destruct ok; simpl.
      * auto.
      * apply TimeWindow_add_event_rejected in Hadd as ->.
        repeat split; auto; lia.
  - simpl. destruct (TimeWindow.add_event e _) as [ok w'] eqn:Hadd.
    right; right. exists ws, ok, w'.
    split; [reflexivity|]. split; [intros w0 Hw0; congruence|].
    split; [assumption|].
    destruct ok; simpl.
    + auto.
    + apply TimeWindow_add_event_rejected in Hadd as ->.
      repeat split; auto; lia.
Qed.

Lemma add_event_counted e a :
  0 < sub_window_seconds a ->
  Forall (window_shape (sub_window_seconds a)) (all_windows a) ->
  is_response e = true -> 0 <= timestamp e ->
  total_events_processed (add_event e a) = total_events_processed a + 1.
Proof.
  intros Hsub Hshape Hty Ht.
  destruct (window_start_bounds a (timestamp e) Hsub Ht) as (ws & Hws & Hb).
  unfold add_event. unfold is_response in Hty. rewrite Hty. simpl.
  unfold ensure_current_window. rewrite Hws. simpl.
  unfold ensure_current_window_at.
  destruct (current_window a) as [w|] eqn:Hcur.
  - destruct (Z.eqb_spec (TimeWindow.window_start w) ws) as [Heq|Hne]; simpl.
    + rewrite Hcur.
      assert (Hw : window_shape (sub_window_seconds a) w).
      { unfold all_windows in Hshape. rewrite Hcur in Hshape.
        apply Forall_app in Hshape as [_ Hw]. now inversion Hw. }
      destruct Hw as [_ Hend].
      destruct (TimeWindow_add_event_in_range e w) as (w' & -> & _); [lia|].
      reflexivity.
    + destruct (TimeWindow_add_event_accepts e ws (sub_window_seconds a) Hb)
        as (w' & -> & _). reflexivity.
  - simpl.
    destruct (TimeWindow_add_event_accepts e ws (sub_window_seconds a) Hb)
      as (w' & -> & _). reflexivity.
Qed.

Lemma add_event_window_shape e a :
  Forall (window_shape (sub_window_seconds a)) (all_windows a) ->
  Forall (window_shape (sub_window_seconds (add_event e a)))
    (all_windows (add_event e a)).
Proof.
  intros Ha. rewrite (proj1 (proj2 (add_event_config e a))).
  apply all_windows_Forall; [| |assumption].
  - intros s. split; reflexivity.
  - intros w ok w' [Hd He] Hadd.
    apply TimeWindow_add_event_frame in Hadd as (Hs & He' & Hd').
    split; congruence.
Qed.

Lemma add_aware_event_frame e a :
  sub_window_seconds (add_aware_event e a) = sub_window_seconds a /\
  total_events_processed (add_aware_event e a) = total_events_processed a.
Proof.
  unfold add_aware_event.
  destruct (negb _); [split; reflexivity|].
  unfold ensure_current_window.
  destruct (get_window_start_time a (timestamp e)) as [ws|]; simpl;
    [|split; reflexivity].
  unfold ensure_current_window_at.
  destruct (current_window a) as [w|]; [destruct (negb _)|];
    split; reflexivity.
Qed.

Lemma add_aware_event_window_shape e a :
  Forall (window_shape (sub_window_seconds a)) (all_windows a) ->
  Forall (window_shape (sub_window_seconds (add_aware_event e a)))
    (all_windows (add_aware_event e a)).
Proof.
  intros Ha. rewrite (proj1 (add_aware_event_frame e a)).
  unfold add_aware_event.
  destruct (negb _); [assumption|].
  unfold ensure_current_window.
  destruct (get_window_start_time a (timestamp e)) as [ws|]; simpl;
    [|assumption].
  unfold ensure_current_window_at.
  destruct (current_window a) as [w|] eqn:Hcur.
  - destruct (negb _); [|assumption].
    unfold all_windows in *. rewrite Hcur in Ha. simpl.
    apply Forall_app. split.
    + unfold Py.deque_append, Py.last_n. now apply Forall_skipn.
    + constructor; [|constructor]. split; reflexivity.
  - unfold all_windows in *. rewrite Hcur in Ha. simpl.
    apply Forall_app. split; [assumption|].
    constructor; [|constructor]. split; reflexivity.
Qed.

Lemma ingest_received_counted received : forall a,
  0 < sub_window_seconds a ->
  Forall (window_shape (sub_window_seconds a)) (all_windows a) ->
  Forall naive_since_epoch received ->
  total_events_processed (ingest_received received a)
  = total_events_processed a
    + Z.of_nat (length (List.filter counted received)).
Proof.
  induction received as [|r rs IH]; intros a Hsub Hshape Hts;
    [simpl; lia|].
  apply Forall_cons in Hts as [Ht Hts].
  change (ingest_received (r :: rs) a) with (ingest_received rs (receive r a)).
  destruct r as [e|e]; simpl receive; simpl List.filter.
  - rewrite IH; [| now rewrite (proj1 (proj2 (add_event_config e a)))
                 | now apply add_event_window_shape | assumption].
    simpl in Ht.
    destruct (is_response e) eqn:Hty.
    + rewrite add_event_counted by assumption. simpl length. lia.
    + rewrite (add_event_not_response e a Hty). lia.
  - rewrite IH; [| now rewrite (proj1 (add_aware_event_frame e a))
                 | now apply add_aware_event_window_shape | assumption].
    rewrite (proj2 (add_aware_event_frame e a)). lia.
Qed.

Lemma fresh_counted ws sub t0 a0 received :
  init ws sub t0 = Some a0 -> 0 < sub ->
  Forall naive_since_epoch received ->
  total_events_processed (ingest_received received a0)
  = Z.of_nat (length (List.filter counted received)).
Proof.
  intros Hinit Hsub Hts.
  pose proof Hinit as Hf. apply init_fields in Hf as (_ & Hs & _ & _ & Hall).
  rewrite ingest_received_counted; try assumption.
  - unfold init in Hinit. destruct (sub =? 0); [discriminate|].
    destruct (_ <? 0); [discriminate|]. injection Hinit as <-. simpl. lia.
  - lia.
  - rewrite Hall. constructor.
Qed.

(** X7.  Which events the aggregator counts.  With a positive sub-window
    length, a response event whose time stamp is naive and at or after the
    epoch is always accepted, and an event whose time stamp is aware never
    is (the range test of its sub-window raises, and [add_event] swallows
    the exception): after a stream of events, the naive stamps at or after
    the epoch, [total_events_processed] is the number of [API_RESPONSE]
    events with a naive stamp in it. *)
Theorem naive_response_events_counted ws sub t0 a0 received :
  init ws sub t0 = Some a0 -> 0 < sub ->
  Forall naive_since_epoch received ->
  total_events_processed (ingest_received received a0)
  = Z.of_nat (length (List.filter counted received)).
Proof. apply fresh_counted. Qed.

Lemma naive_response_events_counted_witness :
  init 60 5 0 = Some default_aggregator /\
  Forall naive_since_epoch mixed_stamps /\
  total_events_processed (ingest_received mixed_stamps default_aggregator)
  = 2 /\
  length (all_windows (ingest_received (firstn 1 mixed_stamps)
                         default_aggregator)) = 1%nat /\
  length (all_windows (ingest_received (firstn 2 mixed_stamps)
                         default_aggregator)) = 2%nat.
Proof.
  assert (Ht : Forall naive_since_epoch mixed_stamps)
    by (repeat constructor; simpl; unfold seconds; lia).
  split; [reflexivity|]. split; [exact Ht|].
  split; [|split; reflexivity].
  apply (naive_response_events_counted 60 5 0 default_aggregator mixed_stamps);
    [reflexivity | lia | exact Ht].
Defined.

Lemma pre_epoch_start a t :
  0 < sub_window_seconds a -> t < 0 -> t mod 1000000 <> 0 ->
  (Z.quot t 1000000) mod sub_window_seconds a = 0 ->
  get_window_start_time a t = Some (Z.quot t 1000000 * 1000000) /\
  t < Z.quot t 1000000 * 1000000.
Proof.
  intros Hsub Ht Hm Hq. unfold get_window_start_time.
  destruct (Z.eqb_spec (sub_window_seconds a) 0) as [|_]; [lia|].
  split.
  - f_equal. f_equal.
    pose proof (Z.div_mod (Z.quot t 1000000) (sub_window_seconds a) ltac:(lia)).
    lia.
  - replace t with (- (- t)) at 2 by lia.
    rewrite Z.quot_opp_l by lia. rewrite Z.quot_div_nonneg by lia.
    pose proof (Z.mod_pos_bound (- t) 1000000 ltac:(lia)) as Hb.
    pose proof (Z.div_mod (- t) 1000000 ltac:(lia)) as Hdm.
    assert (Hnz : (- t) mod 1000000 <> 0).
    { intros H0. apply Hm. apply Z.mod_divide in H0; [|lia].
      apply Z.mod_divide; [lia|]. destruct H0 as [k Hk]. exists (- k). lia. }
    lia.
Qed.

(** X8.  Truncation toward zero at the epoch: a response event stamped before
    the epoch, inside a second whose truncated value is a multiple of the
    sub-window length, is sent to a bucket that starts after it.  The event
    is not counted, yet the bucket is the current sub-window afterwards: the
    one that was current if it is that bucket, a fresh empty one otherwise. *)
Theorem pre_epoch_event_dropped e a :
  0 < sub_window_seconds a -> is_response e = true ->
  timestamp e < 0 -> timestamp e mod 1000000 <> 0 ->
  (Z.quot (timestamp e) 1000000) mod sub_window_seconds a = 0 ->
  total_events_processed (add_event e a) = total_events_processed a /\
  exists w, current_window (add_event e a) = Some w /\
            timestamp e < TimeWindow.window_start w /\
            (current_window a = Some w \/
             w = TimeWindow.init (Z.quot (timestamp e) 1000000 * 1000000)
                   (sub_window_seconds a)).
Proof.
  intros Hsub Hty Ht Hm Hq.
  destruct (pre_epoch_start a (timestamp e) Hsub Ht Hm Hq) as [Hws Hlt].
  set (ws := Z.quot (timestamp e) 1000000 * 1000000) in *.
  unfold add_event. unfold is_response in Hty. rewrite Hty. simpl.
  unfold ensure_current_window. rewrite Hws. simpl.
  unfold ensure_current_window_at.
  destruct (current_window a) as [w|] eqn:Hcur.
  - destruct (Z.eqb_spec (TimeWindow.window_start w) ws) as [Heq|Hne]; simpl.
    + rewrite Hcur.
      rewrite TimeWindow_add_event_out_of_range by lia.
      split; [reflexivity|]. exists w. rewrite Hcur. repeat split; auto; lia.
    + rewrite TimeWindow_add_event_out_of_range by (simpl; lia).
      split; [reflexivity|]. eexists. split; [reflexivity|]. simpl. split; [lia|].
      now right.
  - simpl. rewrite TimeWindow_add_event_out_of_range by (simpl; lia).
    split; [reflexivity|]. eexists. split; [reflexivity|]. simpl. split; [lia|].
    now right.
Qed.

Lemma pre_epoch_event_dropped_witness :
  timestamp pre_epoch_event < 0 /\
  total_events_processed (add_event pre_epoch_event default_aggregator) = 0 /\
  exists w,
    current_window (add_event pre_epoch_event default_aggregator) = Some w /\
    timestamp pre_epoch_event < TimeWindow.window_start w.
Proof.
  destruct (pre_epoch_event_dropped pre_epoch_event default_aggregator)
    as (Htot & w & Hw & Hlt & _);
    [simpl; lia | reflexivity | simpl; lia | vm_compute; discriminate
     | reflexivity |].
  split; [simpl; lia|]. split; [exact Htot|]. exists w. split; assumption.
Defined.

Lemma sumZ_app l1 l2 : Py.sumZ (l1 ++ l2) = Py.sumZ l1 + Py.sumZ l2.
Proof. induction l1 as [|x l1 IH]; simpl; lia. Qed.

Lemma sumZ_skipn_le j (l : list Z) :
  Forall (fun x => 0 <= x) l -> 0 <= Py.sumZ (skipn j l) <= Py.sumZ l.
Proof.
  revert l. induction j as [|j IH]; intros l Hl; simpl.
  - induction Hl as [|x l Hx _ IHl]; simpl; lia.
  - destruct Hl as [|x l Hx Hl]; simpl; [lia|]. specialize (IH l Hl). lia.
Qed.

Lemma add_event_accounted e a : accounted a -> accounted (add_event e a).
Proof.
  intros (Hpos & Hle & Heq). unfold accounted, live_requests in *.
  rewrite (proj2 (proj2 (add_event_config e a))).
  destruct (add_event_accounting e a)
    as [-> | [(w & ok & w' & Hcur & Hadd & Hws & Hcur' & Htot)
            | (ws & ok & w' & Hs & Hne & Hadd & Hws & Hcur' & Htot)]].
  - auto.
  - pose proof (TimeWindow_add_event_request _ _ _ _ Hadd) as Hreq.
    unfold all_windows in *. rewrite Hcur', Hws. rewrite Hcur in *.
    rewrite map_app, sumZ_app in *. simpl in *.
    apply Forall_app in Hpos as [Hp Hw]. apply Forall_inv in Hw.
    split; [|split].
    + apply Forall_app. split; [assumption|]. constructor; [|constructor].
      destruct ok; lia.
    + lia.
    + intros Hlen. specialize (Heq Hlen). lia.
  - pose proof (TimeWindow_add_event_request _ _ _ _ Hadd) as Hreq.
    simpl in Hreq.
    unfold all_windows in *. rewrite Hcur', Hws.
    destruct (current_window a) as [w|] eqn:Hcur.
    + unfold Py.deque_append, Py.last_n.
      set (j := (length (windows a ++ [w]) - Z.to_nat (num_sub_windows a))%nat).
      assert (Hp' : Forall (fun x => 0 <= x)
                      (map TimeWindow.request_count (windows a ++ [w]))).
      { apply Forall_map. exact Hpos. }
      pose proof (sumZ_skipn_le j _ Hp') as Hsk.
      rewrite skipn_map in Hsk.
      rewrite map_app, sumZ_app. simpl.
      split; [|split].
      * apply Forall_app. split; [now apply Forall_skipn|].
        constructor; [|constructor]. destruct ok; lia.
      * lia.
      * intros Hlen.
        assert (Hj : j = 0%nat).
        { destruct j as [|j'] eqn:Ej; [reflexivity|].
          exfalso. rewrite length_skipn in Hlen. fold j in Hlen.
          subst j. rewrite length_app in *. simpl in *. lia. }
        rewrite Hj in *. rewrite !drop_0 in *. simpl.
        rewrite Heq; [lia|]. rewrite length_app in Hlen. simpl in Hlen. lia.
    + rewrite map_app, sumZ_app. simpl.
      split; [|split].
      * apply Forall_app. split; [assumption|]. constructor; [|constructor].
        destruct ok; lia.
      * lia.
      * intros Hlen. specialize (Heq Hlen). lia.
Qed.

Lemma reachable_accounted a : reachable a -> accounted a.
Proof.
  intros (ws & sub & t0 & a0 & events & Hinit & ->).
  apply ingest_invariant; [apply add_event_accounted|].
  pose proof Hinit as Hf. apply init_fields in Hf as (_ & _ & _ & _ & Hall).
  unfold accounted, live_requests. rewrite Hall. simpl.
  unfold init in Hinit. destruct (sub =? 0); [discriminate|].
  destruct (_ <? 0); [discriminate|]. injection Hinit as <-. simpl.
  split; [constructor | split; lia].
Qed.

(** X9.  A snapshot never reports more requests than the aggregator has
    processed: [overall.total_requests] lies between 0 and
    [total_events_processed], and the two agree as long as the deque of
    sealed sub-windows has not reached its bound. *)
Theorem snapshot_requests_conserved a now s :
  reachable a -> get_current_metrics a now = Some s ->
  0 <= total_requests (overall s) <= total_events_processed a /\
  ((length (windows a) < Z.to_nat (num_sub_windows a))%nat ->
   total_requests (overall s) = total_events_processed a).
Proof.
  intros Hr Hs.
  destruct (reachable_accounted a Hr) as (Hpos & Hle & Heq).
  apply get_current_metrics_overall in Hs as (_ & _ & -> & _).
  fold (live_requests a). split; [split|]; auto.
  unfold live_requests.
  pose proof (sumZ_skipn_le 0 (map TimeWindow.request_count (all_windows a))
                ltac:(apply Forall_map; exact Hpos)) as H. simpl in H. lia.
Qed.

Lemma snapshot_requests_conserved_witness :
  reachable (ingest two_buckets default_aggregator) /\
  exists s,
    get_current_metrics (ingest two_buckets default_aggregator) 0 = Some s /\
    total_requests (overall s)
    = total_events_processed (ingest two_buckets default_aggregator).
Proof.
  destruct (get_current_metrics (ingest two_buckets default_aggregator) 0)
    as [s|] eqn:E; [|vm_compute in E; discriminate].
  split; [apply default_reachable|].
  exists s. split; [reflexivity|].
  destruct (snapshot_requests_conserved _ 0 s (default_reachable two_buckets) E)
    as [_ Heq].
  apply Heq. vm_compute. lia.
Defined.

Lemma reachable_capacity a : reachable a -> 0 <= num_sub_windows a.
Proof.
  intros (ws & sub & t0 & a0 & events & Hinit & ->).
  apply (ingest_invariant (fun a => 0 <= num_sub_windows a)).
  - intros e a Ha. now rewrite (proj2 (proj2 (add_event_config e a))).
  - now apply init_fields in Hinit as (_ & _ & _ & H & _).
Qed.

(** X10.  [get_current_metrics] and [get_stats] count the same live
    sub-windows, the sealed ones and the current one, and that number can
    exceed [max_windows] by one but by no more. *)
Theorem snapshot_window_count a now now' s :
  reachable a -> get_current_metrics a now = Some s ->
  active_windows s = gs_active_windows (get_stats a now') /\
  Z.of_nat (gs_active_windows (get_stats a now'))
  <= gs_max_windows (get_stats a now') + 1.
Proof.
  intros Hr Hs.
  apply get_current_metrics_overall in Hs as (_ & -> & _).
  pose proof (reachable_bound a Hr) as Hb.
  pose proof (reachable_capacity a Hr) as Hc.
  unfold get_stats, all_windows. simpl.
  destruct (current_window a); [rewrite length_app; simpl|]; split; lia.
Qed.

Lemma snapshot_window_count_witness :
  reachable (ingest two_buckets default_aggregator) /\
  exists s,
    get_current_metrics (ingest two_buckets default_aggregator) 0 = Some s /\
    active_windows s
    = gs_active_windows (get_stats (ingest two_buckets default_aggregator) 9).
Proof.
  destruct (get_current_metrics (ingest two_buckets default_aggregator) 0)
    as [s|] eqn:E; [|vm_compute in E; discriminate].
  split; [apply default_reachable|].
  exists s. split; [reflexivity|].
  apply (snapshot_window_count _ 0 9 s (default_reachable two_buckets) E).
Defined.

End ProcessedEvents.

(** ** The breakdown of a snapshot by service and by endpoint *)

Section Breakdown.

Import MetricsAggregator.

Lemma dict_sum_set {V} (f : V -> Z) d k v :
  dict_sum f (Py.dict_set d k v)
  = dict_sum f d
    - match Py.dict_get d k with Some v0 => f v0 | None => 0 end + f v.
Proof.
  unfold dict_sum. induction d as [|[k' v'] d IH]; simpl; [lia|].
  destruct (String.eqb k k'); simpl; lia.
Qed.

Lemma dict_sum_update {V} (f : V -> Z) dflt g d k :
  f dflt = 0 ->
  dict_sum f (Py.dict_update dflt g d k)
  = dict_sum f d
    + (f (g (default dflt (Py.dict_get d k)))
       - f (default dflt (Py.dict_get d k))).
Proof.
  intros H0. unfold Py.dict_update.
  destruct (Py.dict_get d k) as [v|] eqn:E; rewrite dict_sum_set, E; simpl; lia.
Qed.

Lemma record_event_counts e s :
  Stat.request_count (Stat.record_event e s) = Stat.request_count s + 1 /\
  Stat.error_count (Stat.record_event e s)
  = Stat.error_count s + (if counts_as_error e then 1 else 0).
Proof.
  unfold Stat.record_event.
  destruct (counts_as_error e), (Py.truthy (response_time_ms e)); simpl; lia.
Qed.

Lemma TimeWindow_add_event_services e w ok w' :
  has_service e -> TimeWindow.add_event e w = (ok, w') ->
  scope_totals (TimeWindow.service_stats w) w ->
  scope_totals (TimeWindow.service_stats w') w'.
Proof.
  unfold has_service, TimeWindow.add_event, scope_totals. intros Hn.
  destruct (negb _); [intros [= <- <-]; auto|].
  destruct (if Py.truthy _ then _ else _) as [tot tms].
  intros [= <- <-] [Hr He]. simpl. rewrite Hn.
  rewrite !dict_sum_update by reflexivity.
  destruct (record_event_counts e
              (default Stat.empty
                 (Py.dict_get (TimeWindow.service_stats w) (service_name e))))
    as [-> ->].
  destruct (counts_as_error e); lia.
Qed.

Lemma TimeWindow_add_event_endpoints e w ok w' :
  has_endpoint e -> TimeWindow.add_event e w = (ok, w') ->
  scope_totals (TimeWindow.endpoint_stats w) w ->
  scope_totals (TimeWindow.endpoint_stats w') w'.
Proof.
  unfold has_endpoint, TimeWindow.add_event, scope_totals. intros Hn.
  destruct (negb _); [intros [= <- <-]; auto|].
  destruct (if Py.truthy _ then _ else _) as [tot tms].
  intros [= <- <-] [Hr He]. simpl. rewrite Hn.
  rewrite !dict_sum_update by reflexivity.
  destruct (record_event_counts e
              (default Stat.empty
                 (Py.dict_get (TimeWindow.endpoint_stats w)
                    (TimeWindow.endpoint_key e))))
    as [-> ->].
  destruct (counts_as_error e); lia.
Qed.

(** An invariant of the live sub-windows that the response events of a
    stream keep. *)
Lemma ingest_response_Forall (P : TimeWindow.t -> Prop) (Q : MetricsEvent -> Prop) :
  (forall ws d, P (TimeWindow.init ws d)) ->
  (forall e w ok w', Q e -> is_response e = true -> P w ->
                     TimeWindow.add_event e w = (ok, w') -> P w') ->
  forall events a,
    Forall Q events -> Forall P (all_windows a) ->
    Forall P (all_windows (ingest events a)).
Proof.
  intros Hinit Hstep events.
  induction events as [|e es IH]; intros a Hq Ha; simpl; [assumption|].
  apply Forall_cons in Hq as [He Hes].
  apply IH; [assumption|].
  destruct (is_response e) eqn:Hty.
  - apply all_windows_Forall; [auto | | assumption].
    intros w ok w' Hw Hadd. eapply Hstep; eauto.
  - now rewrite (add_event_not_response e a Hty).
Qed.

Lemma aggregate_inner_sum (f : Agg -> Z) (g : Stat.t -> Z) d : forall acc,
  f agg_empty = 0 ->
  (forall st a, f (agg_add st a) = f a + g st) ->
  dict_sum f
    (fold_left
       (fun acc' '(name, stats) =>
          Py.dict_update agg_empty (agg_add stats) acc' name) d acc)
  = dict_sum f acc + dict_sum g d.
Proof.
  intros acc H0 Hadd. revert acc.
  induction d as [|[name st] d IH]; intros acc; simpl.
  - unfold dict_sum at 3. simpl. lia.
  - rewrite IH, dict_sum_update by assumption. rewrite Hadd.
    unfold dict_sum at 4. simpl. fold (dict_sum g d). lia.
Qed.

Lemma aggregate_stats_sum (f : Agg -> Z) (g : Stat.t -> Z) ds :
  f agg_empty = 0 ->
  (forall st a, f (agg_add st a) = f a + g st) ->
  dict_sum f (aggregate_stats ds) = Py.sumZ (map (dict_sum g) ds).
Proof.
  intros H0 Hadd. unfold aggregate_stats.
  assert (H : forall acc,
             dict_sum f
               (fold_left
                  (fun acc d =>
                     fold_left
                       (fun acc' '(name, stats) =>
                          Py.dict_update agg_empty (agg_add stats) acc' name)
                       d acc) ds acc)
             = dict_sum f acc + Py.sumZ (map (dict_sum g) ds)).
  { induction ds as [|d ds IH]; intros acc; simpl; [lia|].
    rewrite IH, (aggregate_inner_sum f g) by assumption. lia. }
  rewrite H. unfold dict_sum at 1. simpl. lia.
Qed.

Lemma finish_aggregate_sums self agg d :
  finish_aggregate self agg = Some d ->
  dict_sum total_requests d = dict_sum agg_request_count agg /\
  dict_sum total_errors d = dict_sum agg_error_count agg.
Proof.
  revert d. induction agg as [|[name a] rest IH]; simpl; intros d.
  - intros [= <-]. split; reflexivity.
  - destruct (scope_metrics self _ _ _) as [m|] eqn:Hm; simpl; [|discriminate].
    destruct (finish_aggregate self rest) as [rest'|]; simpl; [|discriminate].
    intros [= <-].
    apply scope_metrics_fields in Hm as (Hr & He & _).
    destruct (IH rest' eq_refl) as [IHr IHe].
    unfold dict_sum in *. simpl. lia.
Qed.

Lemma breakdown_sums self (sel : TimeWindow.t -> Py.pydict Stat.t) ws d :
  Forall (fun w => scope_totals (sel w) w) ws ->
  finish_aggregate self (aggregate_stats (map sel ws)) = Some d ->
  dict_sum total_requests d = Py.sumZ (map TimeWindow.request_count ws) /\
  dict_sum total_errors d = Py.sumZ (map TimeWindow.error_count ws).
Proof.
  intros Hws Hd. apply finish_aggregate_sums in Hd as [-> ->].
  rewrite (aggregate_stats_sum agg_request_count Stat.request_count),
          (aggregate_stats_sum agg_error_count Stat.error_count);
    try reflexivity; try (intros st a; reflexivity).
  rewrite !map_map.
  induction Hws as [|w ws [Hr He] _ [IHr IHe]]; simpl; [split; reflexivity|].
  split; lia.
Qed.

Lemma get_current_metrics_scopes a now s :
  get_current_metrics a now = Some s ->
  aggregate_service_metrics a (all_windows a) = Some (services s) /\
  aggregate_endpoint_metrics a (all_windows a) = Some (endpoints s).
Proof.
  unfold get_current_metrics.
  destruct (all_windows a) as [|w ws].
  - intros [= <-]. split; reflexivity.
  - destruct (scope_metrics a _ _ _) as [ov|]; simpl; [|discriminate].
    destruct (aggregate_service_metrics a _) as [sv|]; simpl; [|discriminate].
    destruct (aggregate_endpoint_metrics a _) as [ep|]; simpl; [|discriminate].
    destruct (summaries _); simpl; [|discriminate].
    intros [= <-]. split; reflexivity.
Qed.

(** X11.  The per-service entries of a snapshot add up to the overall entry,
    requests and errors alike, when every event of the stream names its
    service; the per-endpoint entries do when every event names its
    endpoint. *)
Theorem snapshot_breakdown_complete ws sub t0 a0 events now s :
  init ws sub t0 = Some a0 ->
  get_current_metrics (ingest events a0) now = Some s ->
  (Forall has_service events -> breakdown_complete (services s) (overall s)) /\
  (Forall has_endpoint events -> breakdown_complete (endpoints s) (overall s)).
Proof.
  intros Hinit Hs.
  apply init_fields in Hinit as (_ & _ & _ & _ & Hall).
  destruct (get_current_metrics_scopes _ _ _ Hs) as [Hsv Hep].
  apply get_current_metrics_overall in Hs as (_ & _ & Hr & He & _).
  unfold breakdown_complete. rewrite Hr, He.
  split; intros Hev.
  - eapply (breakdown_sums _ TimeWindow.service_stats); [|exact Hsv].
    apply (ingest_response_Forall
             (fun w => scope_totals (TimeWindow.service_stats w) w) has_service);
      [ intros; split; reflexivity
      | intros e w ok w' He' _ Hw Hadd; eapply TimeWindow_add_event_services; eauto
      | assumption
      | rewrite Hall; constructor ].
  - eapply (breakdown_sums _ TimeWindow.endpoint_stats); [|exact Hep].
    apply (ingest_response_Forall
             (fun w => scope_totals (TimeWindow.endpoint_stats w) w) has_endpoint);
      [ intros; split; reflexivity
      | intros e w ok w' He' _ Hw Hadd; eapply TimeWindow_add_event_endpoints; eauto
      | assumption
      | rewrite Hall; constructor ].
Qed.

Lemma snapshot_breakdown_complete_witness :
  Forall has_service two_buckets /\ Forall has_endpoint two_buckets /\
  exists s,
    get_current_metrics (ingest two_buckets default_aggregator) 0 = Some s /\
    breakdown_complete (services s) (overall s) /\
    breakdown_complete (endpoints s) (overall s).
Proof.
  destruct (get_current_metrics (ingest two_buckets default_aggregator) 0)
    as [s|] eqn:E; [|vm_compute in E; discriminate].
  split; [repeat constructor|]. split; [repeat constructor|].
  exists s. split; [reflexivity|].
  destruct (snapshot_breakdown_complete 60 5 0 default_aggregator two_buckets
              0 s eq_refl E) as [Hsv Hep].
  split; [apply Hsv | apply Hep]; repeat constructor.
Defined.

End Breakdown.

(** ** Events built by the factory *)

Section FactoryEvents.

Import MetricsAggregator.

Lemma factory_built_type e :
  factory_built e ->
  event_type e = if 400 <=? status_code e then API_ERROR else API_RESPONSE.
Proof. intros (id & now & sv & ep & m & st & rt & ->). reflexivity. Qed.

Lemma factory_response_no_error e :
  factory_built e -> is_response e = true -> counts_as_error e = false.
Proof.
  intros Hf Hr. apply factory_built_type in Hf.
  rewrite counts_as_error_iff. unfold is_response in Hr.
  destruct (400 <=? status_code e); [|reflexivity].
  rewrite Hf in Hr. discriminate.
Qed.

Lemma dict_get_values {V} (P : V -> Prop) d k v :
  values_satisfy P d -> Py.dict_get d k = Some v -> P v.
Proof.
  unfold values_satisfy.
  induction 1 as [|[k' v'] d Hv _ IH]; simpl; [discriminate|].
  destruct (String.eqb k k'); [intros [= <-]; exact Hv | exact IH].
Qed.

Lemma dict_set_values {V} (P : V -> Prop) d k v :
  P v -> values_satisfy P d -> values_satisfy P (Py.dict_set d k v).
Proof.
  unfold values_satisfy. intros Hv.
  induction 1 as [|[k' v'] d Hv' Hd IH]; simpl.
  - repeat constructor. exact Hv.
  - destruct (String.eqb k k'); constructor; auto.
Qed.

Lemma dict_update_values {V} (P : V -> Prop) dflt g d k :
  P dflt -> (forall v, P v -> P (g v)) ->
  values_satisfy P d -> values_satisfy P (Py.dict_update dflt g d k).
Proof.
  intros Hd Hg Hall. unfold Py.dict_update.
  destruct (Py.dict_get d k) as [v|] eqn:E; apply dict_set_values; auto.
  apply Hg. eapply dict_get_values; eauto.
Qed.

Lemma TimeWindow_add_event_no_errors e w ok w' :
  counts_as_error e = false -> TimeWindow.add_event e w = (ok, w') ->
  no_errors w -> no_errors w'.
Proof.
  unfold TimeWindow.add_event, no_errors. intros Hn.
  destruct (negb _); [intros [= <- <-]; auto|].
  destruct (if Py.truthy _ then _ else _) as [tot tms].
  intros [= <- <-] (Hc & Hs & He). simpl. rewrite Hn.
  assert (Hrec : forall st, Stat.error_count st = 0 ->
                            Stat.error_count (Stat.record_event e st) = 0).
  { intros st Hst. rewrite (proj2 (record_event_counts e st)), Hn. lia. }
  split; [assumption|].
  split; [destruct (nonempty (service_name e)) | destruct (nonempty (api_endpoint e))];
    try assumption; apply dict_update_values; auto.
Qed.

Lemma aggregate_stats_values (P : Agg -> Prop) (R : Stat.t -> Prop) ds :
  P agg_empty -> (forall st a, R st -> P a -> P (agg_add st a)) ->
  Forall (values_satisfy R) ds -> values_satisfy P (aggregate_stats ds).
Proof.
  intros H0 Hadd. unfold aggregate_stats.
  assert (Hin : forall d acc, values_satisfy R d -> values_satisfy P acc ->
            values_satisfy P
              (fold_left
                 (fun acc' '(name, stats) =>
                    Py.dict_update agg_empty (agg_add stats) acc' name) d acc)).
  { induction d as [|[name st] d IH]; intros acc Hd Hacc; simpl; [assumption|].
    apply Forall_cons in Hd as [Hst Hd].
    apply IH; [assumption|]. apply dict_update_values; auto. }
  assert (H : forall acc, values_satisfy P acc -> Forall (values_satisfy R) ds ->
            values_satisfy P
              (fold_left
                 (fun acc d =>
                    fold_left
                      (fun acc' '(name, stats) =>
                         Py.dict_update agg_empty (agg_add stats) acc' name)
                      d acc) ds acc)).
  { induction ds as [|d ds IH]; intros acc Hacc Hds; simpl; [assumption|].
    apply Forall_cons in Hds as [Hd Hds]. apply IH; auto. }
  apply H. constructor.
Qed.

Lemma scope_metrics_error_free self r ts m :
  scope_metrics self r 0 ts = Some m -> error_free m.
Proof.
  intros Hm. apply scope_metrics_fields in Hm as (_ & He & Hrate).
  split; [assumption|]. rewrite Hrate.
  rewrite (round2_comp _ (inject_Z 0)).
  - unfold Py.round2.
    rewrite (round_half_even_comp _ (inject_Z 0)) by (unfold Qeq; simpl; lia).
    rewrite round_half_even_Z. reflexivity.
  - unfold expected_error_rate. destruct (0 <? r); [|reflexivity].
    unfold Qdiv. change (inject_Z 0) with (0 # 1)%Q. ring.
Qed.

Lemma finish_aggregate_error_free self agg d :
  values_satisfy (fun a => agg_error_count a = 0) agg ->
  finish_aggregate self agg = Some d -> values_satisfy error_free d.
Proof.
  intros Hagg. revert d.
  induction Hagg as [|[name a] rest Ha _ IH]; simpl; intros d.
  - intros [= <-]. constructor.
  - simpl in Ha. rewrite Ha.
    destruct (scope_metrics self _ _ _) as [m|] eqn:Hm; simpl; [|discriminate].
    destruct (finish_aggregate self rest) as [rest'|]; simpl; [|discriminate].
    intros [= <-]. constructor; [|now apply IH].
    simpl. eapply scope_metrics_error_free; eauto.
Qed.

Lemma factory_snapshot_error_free ws sub t0 a0 events now s :
  init ws sub t0 = Some a0 -> Forall factory_built events ->
  get_current_metrics (ingest events a0) now = Some s ->
  error_free (overall s) /\
  values_satisfy error_free (services s) /\
  values_satisfy error_free (endpoints s).
Proof.
  intros Hinit Hev Hs.
  apply init_fields in Hinit as (_ & _ & _ & _ & Hall).
  assert (Hw : Forall no_errors (all_windows (ingest events a0))).
  { apply (ingest_response_Forall no_errors factory_built);
      [ intros; repeat split; constructor
      | intros e w ok w' Hf Hr Hn Hadd;
        eapply TimeWindow_add_event_no_errors; eauto;
        now apply factory_response_no_error
      | assumption
      | rewrite Hall; constructor ]. }
  destruct (get_current_metrics_scopes _ _ _ Hs) as [Hsv Hep].
  split; [|split].
  - revert Hs. unfold get_current_metrics.
    destruct (all_windows (ingest events a0)) as [|w l] eqn:Hl.
    + intros [= <-]. split; reflexivity.
    + replace (Py.sumZ (map TimeWindow.error_count (w :: l))) with 0.
      * destruct (scope_metrics _ _ _ _) as [ov|] eqn:Hov; simpl; [|discriminate].
        destruct (aggregate_service_metrics _ _); simpl; [|discriminate].
        destruct (aggregate_endpoint_metrics _ _); simpl; [|discriminate].
        destruct (summaries _); simpl; [|discriminate].
        intros [= <-]. simpl. eapply scope_metrics_error_free; eauto.
      * clear -Hw. induction Hw as [|x xs (Hx & _) _ IH]; simpl; lia.
  - eapply finish_aggregate_error_free; [|exact Hsv].
    apply (aggregate_stats_values _ (fun st => Stat.error_count st = 0));
      [reflexivity | intros st a Hst Ha; simpl; lia |].
    apply Forall_map. eapply List.Forall_impl; [|exact Hw].
    intros w (_ & H & _). exact H.
  - eapply finish_aggregate_error_free; [|exact Hep].
    apply (aggregate_stats_values _ (fun st => Stat.error_count st = 0));
      [reflexivity | intros st a Hst Ha; simpl; lia |].
    apply Forall_map. eapply List.Forall_impl; [|exact Hw].
    intros w (_ & _ & H). exact H.
Qed.

(** X12.  [MetricsEvent.from_request_response] types an event with a status
    from 400 on as [API_ERROR], and [MetricsAggregator.add_event] handles
    [API_RESPONSE] events only.  So when all events of a stream come from the
    factory, no error is ever counted: every snapshot reports zero errors and
    a zero error rate, overall, per service and per endpoint. *)
Theorem factory_errors_never_counted ws sub t0 a0 events now s :
  init ws sub t0 = Some a0 -> Forall factory_built events ->
  get_current_metrics (ingest events a0) now = Some s ->
  error_free (overall s) /\
  values_satisfy error_free (services s) /\
  values_satisfy error_free (endpoints s).
Proof. apply factory_snapshot_error_free. Qed.

Lemma factory_errors_never_counted_witness :
  Forall factory_built factory_stream /\
  exists s,
    get_current_metrics (ingest factory_stream default_aggregator) 0 = Some s /\
    total_requests (overall s) = 1 /\ error_free (overall s).
Proof.
  destruct (get_current_metrics (ingest factory_stream default_aggregator) 0)
    as [s|] eqn:E; [|vm_compute in E; discriminate].
  assert (Hf : Forall factory_built factory_stream)
    by (repeat constructor; repeat eexists).
  split; [exact Hf|].
  exists s. split; [reflexivity|].
  destruct (factory_errors_never_counted 60 5 0 default_aggregator
              factory_stream 0 s eq_refl Hf E) as (Hov & _).
  split; [|exact Hov]. vm_compute in E. injection E as <-. reflexivity.
Defined.

End FactoryEvents.

(** ** The life cycle of alerts *)

Section AlertLifecycle.

Import AlertManager.

Ltac fields :=
  cbn [alert_rules alerts active_alerts alert_history max_history_size
       alert_callbacks stats notifications ticks total_alerts_triggered
       total_alerts_resolved rule_checks_performed last_check_time start_time
       fst snd set_rules tick begin_check add_alert_callback].

Lemma check_metrics_begin clock md self :
  check_metrics clock md self =
  fold_left
    (fun st '(endpoint_key, endpoint_metrics) =>
       check_endpoint_metrics clock endpoint_key endpoint_metrics st)
    (md_endpoints md)
    (fold_left
       (fun st '(service_name, service_metrics) =>
          check_service_metrics clock service_name service_metrics st)
       (md_services md)
       (check_overall_metrics clock (md_overall md) (begin_check clock self))).
Proof. reflexivity. Qed.

(** An invariant of rule evaluation is an invariant of [check_metrics]. *)
Lemma check_metrics_invariant (I : t -> Prop) clock md self :
  (forall rule metrics svc ep st,
     I st -> I (evaluate_rule clock rule metrics svc ep st)) ->
  I (begin_check clock self) -> I (check_metrics clock md self).
Proof.
  intros Hstep H0. rewrite check_metrics_begin.
  apply fold_left_invariant.
  { intros st [k m] Hst. unfold check_endpoint_metrics.
    destruct (parse_endpoint_key k) as [svc ep].
    apply fold_left_invariant; [|assumption].
    intros st' [k' rule] Hst'. destruct (skips_endpoint _ _ _); auto. }
  apply fold_left_invariant.
  { intros st [k m] Hst. unfold check_service_metrics.
    apply fold_left_invariant; [|assumption].
    intros st' [k' rule] Hst'. destruct (skips_service _ _); auto. }
  unfold check_overall_metrics.
  apply fold_left_invariant; [|exact H0].
  intros st' [k' rule] Hst'. destruct (skips_overall _); auto.
Qed.

Lemma last_n_snoc {A} (k : nat) (l : list A) x :
  (0 < k)%nat -> Py.last_n k (Py.last_n k l ++ [x]) = Py.last_n k (l ++ [x]).
Proof.
  intros Hk. unfold Py.last_n.
  destruct (Nat.le_gt_cases (length l) k) as [Hle|Hgt].
  - replace (length l - k)%nat with 0%nat by lia. reflexivity.
  - rewrite !length_app, length_drop. simpl.
    replace (length l - (length l - k) + 1 - k)%nat with 1%nat by lia.
    rewrite !drop_app_le by (rewrite ?length_drop; lia).
    rewrite drop_drop. f_equal. f_equal. lia.
Qed.

Lemma last_n_all {A} (k : nat) (l : list A) :
  (length l <= k)%nat -> Py.last_n k l = l.
Proof.
  intros H. unfold Py.last_n.
  replace (length l - k)%nat with 0%nat by lia. reflexivity.
Qed.

Lemma history_step (history : list nat) (n : nat) :
  history = Py.last_n 1000 (seq 0 n) ->
  (if (1000 <? length (history ++ [n]))%nat
   then Py.slice_last 1000 (history ++ [n]) else history ++ [n])
  = Py.last_n 1000 (seq 0 (S n)).
Proof.
  intros ->. rewrite seq_S. change (0 + n)%nat with n.
  rewrite <- (last_n_snoc 1000 (seq 0 n) n) by lia.
  destruct (Nat.ltb_spec 1000 (length (Py.last_n 1000 (seq 0 n) ++ [n]))) as [H|H].
  - reflexivity.
  - symmetry. apply last_n_all. exact H.
Qed.

Lemma trigger_alert_manager_ok alert st :
  active_alerts st !! Alert.id alert = None ->
  Alert.status alert <> RESOLVED -> Alert.resolved_at alert = None ->
  manager_ok st -> manager_ok (trigger_alert alert st).
Proof.
  intros Hnone Hst Hres ((Ht & Hs & Hr0) & (Hact & Hall) & (Hmax & Hhist) & Hrules).
  unfold manager_ok, ledger, lifecycle, recent_history, unique_rules, trigger_alert.
  fields. rewrite Hmax.
  split; [|split; [|split]].
  - rewrite length_app, map_size_insert_None by assumption. simpl length. lia.
  - split.
    + intros id ref. destruct (decide (Alert.id alert = id)) as [<-|Hne].
      * rewrite lookup_insert_eq. intros [= <-]. exists alert.
        rewrite lookup_app_r by lia. rewrite Nat.sub_diag. auto.
      * rewrite lookup_insert_ne by assumption. intros Href.
        destruct (Hact id ref Href) as (a & Ha & Hk). exists a.
        split; [now apply lookup_app_l_Some | assumption].
    + intros ref a Ha.
      destruct (Nat.lt_ge_cases ref (length (alerts st))) as [Hlt|Hge].
      * rewrite lookup_app_l in Ha by assumption.
        destruct (Hall ref a Ha) as [Hin|Hr]; [left | now right].
        rewrite lookup_insert_ne; [assumption|]. congruence.
      * rewrite lookup_app_r in Ha by assumption.
        destruct (ref - length (alerts st))%nat eqn:E; simpl in Ha; [|discriminate].
        injection Ha as <-. left. rewrite lookup_insert_eq. f_equal. lia.
  - split; [reflexivity|].
    replace (length (alerts st ++ [alert])) with (S (length (alerts st)))
      by (rewrite length_app; simpl; lia).
    now apply history_step.
  - assumption.
Qed.

Lemma resolve_alert_manager_ok clock alert_id st :
  manager_ok st -> manager_ok (resolve_alert clock alert_id st).
Proof.
  intros Hok. unfold resolve_alert.
  destruct (active_alerts st !! alert_id) as [r|] eqn:Hr; [|assumption].
  destruct (alerts st !! r) as [a|] eqn:Ha; [|assumption].
  destruct Hok as ((Ht & Hs & Hr0) & (Hact & Hall) & (Hmax & Hhist) & Hrules).
  unfold manager_ok, ledger, lifecycle, recent_history, unique_rules. fields.
  destruct (Hact alert_id r Hr) as (a0 & Ha0 & Hid0 & _).
  assert (a0 = a) as -> by congruence.
  split; [|split; [|split]].
  - rewrite length_insert, map_size_delete_Some by eauto.
    assert (size (active_alerts st) <> 0%nat).
    { intros H0. apply map_size_empty_inv in H0. rewrite H0 in Hr.
      now rewrite lookup_empty in Hr. }
    lia.
  - split.
    + intros id ref Href. apply lookup_delete_Some in Href as [Hne Href].
      destruct (Hact id ref Href) as (b & Hb & Hidb & Hrest).
      exists b. split; [|auto].
      rewrite list_lookup_insert_ne; [assumption|].
      intros <-. congruence.
    + intros ref b Hb. destruct (decide (ref = r)) as [->|Hne].
      * rewrite list_lookup_insert_eq in Hb by (now apply lookup_lt_Some in Ha).
        injection Hb as <-. right. simpl. split; [reflexivity | eauto].
      * rewrite list_lookup_insert_ne in Hb by congruence.
        destruct (Hall ref b Hb) as [Hin|Hres]; [left | now right].
        rewrite lookup_delete_ne; [assumption|].
        intros Heq. rewrite <- Heq in Hin. congruence.
  - split; [assumption|]. now rewrite length_insert.
  - assumption.
Qed.

Lemma acknowledge_alert_manager_ok clock alert_id st :
  manager_ok st -> manager_ok (snd (acknowledge_alert clock alert_id st)).
Proof.
  intros Hok. unfold acknowledge_alert.
  destruct (active_alerts st !! alert_id) as [r|] eqn:Hr; [|assumption].
  destruct (alerts st !! r) as [a|] eqn:Ha; [|assumption].
  destruct Hok as ((Ht & Hs & Hr0) & (Hact & Hall) & (Hmax & Hhist) & Hrules).
  unfold manager_ok, ledger, lifecycle, recent_history, unique_rules. fields.
  destruct (Hact alert_id r Hr) as (a0 & Ha0 & Hid0 & Hst0 & Hres0).
  assert (a0 = a) as -> by congruence.
  split; [|split; [|split]].
  - rewrite length_insert. auto.
  - split.
    + intros id ref Href.
      destruct (Hact id ref Href) as (b & Hb & Hidb & Hrest).
      destruct (decide (ref = r)) as [->|Hne].
      * exists (Alert.set_acknowledged a (clock (ticks st))).
        split; [apply list_lookup_insert_eq; now apply lookup_lt_Some in Ha|].
        assert (b = a) as -> by congruence. simpl.
        repeat split; [assumption | discriminate | assumption].
      * exists b. split; [|auto]. now rewrite list_lookup_insert_ne.
    + intros ref b Hb. destruct (decide (ref = r)) as [->|Hne].
      * rewrite list_lookup_insert_eq in Hb by (now apply lookup_lt_Some in Ha).
        injection Hb as <-. left. simpl. congruence.
      * rewrite list_lookup_insert_ne in Hb by congruence. auto.
  - split; [assumption|]. now rewrite length_insert.
  - assumption.
Qed.

Lemma evaluate_rule_manager_ok clock rule metrics svc ep st :
  manager_ok st -> manager_ok (evaluate_rule clock rule metrics svc ep st).
Proof.
  intros Hok. unfold evaluate_rule.
  destruct (Py.dict_get metrics _); [|assumption].
  destruct (evaluate_condition _ _ _).
  - destruct (active_alerts st !! _) eqn:Hact; [assumption|].
    apply trigger_alert_manager_ok;
      [exact Hact | discriminate | reflexivity | exact Hok].
  - destruct (active_alerts st !! _); [|assumption].
    now apply resolve_alert_manager_ok.
Qed.

Lemma check_metrics_manager_ok clock md st :
  manager_ok st -> manager_ok (check_metrics clock md st).
Proof.
  intros Hok. apply check_metrics_invariant; [|exact Hok].
  intros. now apply evaluate_rule_manager_ok.
Qed.

Lemma dict_set_keys {V} (d : Py.pydict V) k v :
  map fst (Py.dict_set d k v)
  = if Py.dict_mem d k then map fst d else map fst d ++ [k].
Proof.
  unfold Py.dict_mem. induction d as [|[k' v'] d IH]; simpl; [reflexivity|].
  destruct (String.eqb k k') eqn:E; simpl.
  - reflexivity.
  - rewrite IH. now destruct (Py.dict_get d k).
Qed.

Lemma dict_get_In {V} (d : Py.pydict V) k :
  Py.dict_get d k = None <-> ~ In k (map fst d).
Proof.
  induction d as [|[k' v'] d IH]; simpl; [tauto|].
  destruct (String.eqb_spec k k') as [->|Hne].
  - split; [discriminate | intros H; exfalso; apply H; now left].
  - rewrite IH. split; [intros H [?|?]; [congruence | tauto] | tauto].
Qed.

Lemma dict_del_keys_incl {V} (d : Py.pydict V) k x :
  In x (map fst (Py.dict_del d k)) -> In x (map fst d).
Proof.
  induction d as [|[k' v'] d IH]; simpl; [tauto|].
  destruct (String.eqb k k'); simpl; [tauto|]. intros [?|?]; auto.
Qed.

Lemma dict_del_NoDup {V} (d : Py.pydict V) k :
  NoDup (map fst d) -> NoDup (map fst (Py.dict_del d k)).
Proof.
  induction d as [|[k' v'] d IH]; simpl; intros Hd; [constructor|].
  apply NoDup_cons in Hd as [Hk Hd].
  destruct (String.eqb k k'); simpl; [assumption|].
  apply NoDup_cons. split; [|auto].
  intros Hin. apply Hk. apply list_elem_of_In.
  eapply dict_del_keys_incl. apply list_elem_of_In. exact Hin.
Qed.

Lemma dict_set_NoDup {V} (d : Py.pydict V) k v :
  NoDup (map fst d) -> NoDup (map fst (Py.dict_set d k v)).
Proof.
  intros Hd. rewrite dict_set_keys. unfold Py.dict_mem.
  destruct (Py.dict_get d k) eqn:E; [assumption|].
  apply NoDup_app. split; [assumption|]. split.
  - intros x Hx Hx2. apply list_elem_of_In in Hx2 as [<-|[]].
    apply dict_get_In in E. apply E. now apply list_elem_of_In.
  - apply NoDup_singleton.
Qed.

Lemma apply_op_manager_ok clock op st :
  manager_ok st -> manager_ok (apply_op clock op st).
Proof.
  intros Hok. destruct op as [md|id|rule|id|cb|]; simpl.
  - now apply check_metrics_manager_ok.
  - now apply acknowledge_alert_manager_ok.
  - destruct Hok as (H1 & H2 & H3 & H4). repeat split; try apply H1;
      try apply H2; try apply H3.
    unfold unique_rules, add_alert_rule. fields. now apply dict_set_NoDup.
  - unfold remove_alert_rule. destruct (Py.dict_mem _ _); [|assumption].
    destruct Hok as (H1 & H2 & H3 & H4). repeat split; try apply H1;
      try apply H2; try apply H3.
    unfold unique_rules. fields. now apply dict_del_NoDup.
  - exact Hok.
  - exact Hok.
Qed.

Lemma init_manager_ok clock : manager_ok (init clock).
Proof.
  unfold manager_ok, ledger, lifecycle, recent_history, unique_rules.
  split; [repeat split; try reflexivity; lia|]. split; [split|].
  - intros id ref H. unfold init in H. simpl in H. now rewrite lookup_empty in H.
  - intros ref a H. unfold init in H. simpl in H. destruct ref; discriminate.
  - split; [split; reflexivity|].
    unfold init. simpl. apply (bool_decide_unpack _). vm_compute. reflexivity.
Qed.

Lemma managed_ok clock self : managed clock self -> manager_ok self.
Proof.
  intros [ops ->]. unfold run_ops.
  apply fold_left_invariant; [|apply init_manager_ok].
  intros st op Hst. now apply apply_op_manager_ok.
Qed.

Lemma alarmed_managed : managed example_clock alarmed_manager.
Proof.
  exists alarm_ops. unfold alarm_ops, run_ops, alarmed_manager.
  cbn [fold_left apply_op]. reflexivity.
Qed.

Lemma example_clock_monotone : monotone example_clock.
Proof. intros i j Hij. unfold example_clock. lia. Qed.

Lemma objects_valid self refs :
  Forall (fun r => is_Some (alerts self !! r)) refs ->
  length (objects self refs) = length refs.
Proof.
  unfold objects. induction 1 as [|r refs [a Ha] _ IH]; simpl; [reflexivity|].
  rewrite Ha. simpl. f_equal. exact IH.
Qed.

Lemma objects_bound self refs :
  (length (objects self refs) <= length refs)%nat.
Proof.
  unfold objects. induction refs as [|r refs IH]; [simpl; lia|].
  cbn. destruct (alerts self !! r); cbn in *; lia.
Qed.

Lemma count_severity_total l :
  count_severity LOW l + count_severity MEDIUM l + count_severity HIGH l
  + count_severity CRITICAL l = Z.of_nat (length l).
Proof.
  unfold count_severity. induction l as [|a l IH]; simpl; [reflexivity|].
  destruct (Alert.severity a); simpl; lia.
Qed.

Lemma filter_length_le {A} (f : A -> bool) l :
  (length (List.filter f l) <= length l)%nat.
Proof. induction l as [|x l IH]; simpl; [lia|]. destruct (f x); simpl; lia. Qed.

Lemma active_objects_length self :
  lifecycle self -> length (active_objects self) = size (active_alerts self).
Proof.
  intros [Hact _]. unfold active_objects.
  rewrite objects_valid, length_map, length_map_to_list; [reflexivity|].
  apply List.Forall_forall. intros r Hr.
  apply in_map_iff in Hr as ([id r'] & <- & Hin). simpl.
  apply list_elem_of_In, elem_of_map_to_list in Hin.
  destruct (Hact id r' Hin) as (a & Ha & _). eauto.
Qed.

(** X13.  What [get_alert_summary] reports about a manager that was built by
    the constructor and driven through its operations: the number of active
    alerts is the number of alerts triggered minus the number resolved, the
    counts by severity add up to it, the resolved alerts are never more than
    the triggered ones, and at most 1000 alerts are counted for the last 24
    hours. *)
Theorem alert_summary_ledger clock self :
  managed clock self ->
  let summary := fst (get_alert_summary clock self) in
  Z.of_nat (active_alerts_count summary)
  = sum_total_alerts_triggered summary - sum_total_alerts_resolved summary /\
  0 <= sum_total_alerts_resolved summary <= sum_total_alerts_triggered summary /\
  dict_sum (fun n => n) (active_alerts_by_severity summary)
  = Z.of_nat (active_alerts_count summary) /\
  (alerts_last_24h summary <= 1000)%nat.
Proof.
  intros Hm. destruct (managed_ok clock self Hm)
    as ((Ht & Hs & Hr0) & Hlife & (Hmax & Hhist) & _).
  cbv zeta. unfold get_alert_summary.
  cbn [fst active_alerts_count sum_total_alerts_triggered
       sum_total_alerts_resolved active_alerts_by_severity alerts_last_24h].
  split; [exact Hs|]. split; [lia|]. split.
  - unfold dict_sum. cbn [map snd Py.sumZ fold_right].
    rewrite <- (active_objects_length self Hlife).
    pose proof (count_severity_total (active_objects self)). lia.
  - etransitivity; [apply filter_length_le|].
    etransitivity; [apply objects_bound|].
    rewrite Hhist, last_n_length. lia.
Qed.

Lemma alert_summary_ledger_witness :
  managed example_clock alarmed_manager /\
  let summary := fst (get_alert_summary example_clock alarmed_manager) in
  Z.of_nat (active_alerts_count summary)
  = sum_total_alerts_triggered summary - sum_total_alerts_resolved summary /\
  dict_sum (fun n => n) (active_alerts_by_severity summary)
  = Z.of_nat (active_alerts_count summary).
Proof.
  split; [exact alarmed_managed|].
  destruct (alert_summary_ledger example_clock alarmed_manager alarmed_managed)
    as (H1 & _ & H3 & _).
  split; assumption.
Defined.

(** X14.  In a manager that was built by the constructor and driven through
    its operations an alert object is filed in [active_alerts] under its own
    id exactly as long as its status is not [RESOLVED], and its status is
    [RESOLVED] exactly when [resolved_at] is set. *)
Theorem active_iff_unresolved clock self ref a :
  managed clock self -> alerts self !! ref = Some a ->
  (active_alerts self !! Alert.id a = Some ref <-> Alert.status a <> RESOLVED) /\
  (Alert.status a = RESOLVED <-> is_Some (Alert.resolved_at a)).
Proof.
  intros Hm Ha. destruct (managed_ok clock self Hm) as (_ & (Hact & Hall) & _).
  assert (Hactive : active_alerts self !! Alert.id a = Some ref ->
                    Alert.status a <> RESOLVED /\ Alert.resolved_at a = None).
  { intros Hin. destruct (Hact _ _ Hin) as (b & Hb & _ & Hst & Hres).
    assert (b = a) as -> by congruence. auto. }
  split; split.
  - intros Hin. now apply Hactive.
  - intros Hst. destruct (Hall ref a Ha) as [Hin|[Hr _]]; [assumption | contradiction].
  - intros Hst. destruct (Hall ref a Ha) as [Hin|[_ Hr]]; [|assumption].
    apply Hactive in Hin as [Hne _]. contradiction.
  - intros Hres. destruct (Hall ref a Ha) as [Hin|[Hr _]]; [|assumption].
    apply Hactive in Hin as [_ Hnone]. rewrite Hnone in Hres.
    now destruct Hres.
Qed.

Lemma active_iff_unresolved_witness :
  managed example_clock alarmed_manager /\
  exists a,
    alerts alarmed_manager !! 0%nat = Some a /\
    (active_alerts alarmed_manager !! Alert.id a = Some 0%nat
     <-> Alert.status a <> RESOLVED).
Proof.
  split; [exact alarmed_managed|].
  destruct (alerts alarmed_manager !! 0%nat) as [a|] eqn:E;
    [|vm_compute in E; discriminate].
  exists a. split; [reflexivity|].
  apply (active_iff_unresolved example_clock alarmed_manager 0 a
           alarmed_managed E).
Defined.

Lemma objects_segment self (pre l : list Alert.t) :
  alerts self = pre ++ l ->
  objects self (seq (length pre) (length l)) = l.
Proof.
  unfold objects. intros ->. revert pre.
  induction l as [|x l IH]; intros pre; simpl; [reflexivity|].
  rewrite lookup_app_r by lia. rewrite Nat.sub_diag. simpl.
  f_equal. specialize (IH (pre ++ [x])).
  rewrite length_app in IH. simpl in IH.
  replace (length pre + 1)%nat with (S (length pre)) in IH by lia.
  rewrite <- app_assoc in IH. exact IH.
Qed.

Lemma last_n_seq k n :
  Py.last_n k (seq 0 n) = seq (n - k) (n - (n - k)).
Proof.
  unfold Py.last_n. rewrite length_seq.
  set (j := (n - k)%nat).
  assert (Hj : (j <= n)%nat) by (unfold j; lia).
  replace n with (j + (n - j))%nat at 1 by lia.
  rewrite seq_app, drop_app_length'; [reflexivity|].
  now rewrite length_seq.
Qed.

(** X15.  [alert_history] never holds more than 1000 entries, and they are
    the most recent 1000 alerts that were triggered, oldest first: trimming
    forgets the oldest alerts only. *)
Theorem history_is_recent clock self :
  managed clock self ->
  (length (alert_history self) <= 1000)%nat /\
  objects self (alert_history self) = Py.last_n 1000 (alerts self).
Proof.
  intros Hm. destruct (managed_ok clock self Hm) as (_ & _ & (Hmax & Hhist) & _).
  split; [rewrite Hhist, last_n_length; lia|].
  rewrite Hhist, last_n_seq. unfold Py.last_n.
  set (n := length (alerts self)). set (j := (n - 1000)%nat).
  assert (Hj : (j <= n)%nat) by (unfold j; lia).
  rewrite <- (length_take_le (alerts self) j) at 1 by exact Hj.
  replace (n - j)%nat with (length (drop j (alerts self)))
    by (rewrite length_drop; reflexivity).
  apply objects_segment. symmetry. apply take_drop.
Qed.

Lemma history_is_recent_witness :
  managed example_clock crowded_manager /\
  length (alerts crowded_manager) = 1005%nat /\
  length (alert_history crowded_manager) = 1000%nat /\
  alert_history crowded_manager !! 0%nat = Some 5%nat /\
  (length (alert_history crowded_manager) <= 1000)%nat /\
  objects crowded_manager (alert_history crowded_manager)
  = Py.last_n 1000 (alerts crowded_manager).
Proof.
  assert (Hm : managed example_clock crowded_manager).
  { exists [OpCheckMetrics (crowd 201)].
    unfold run_ops, crowded_manager. cbn [fold_left apply_op]. reflexivity. }
  split; [exact Hm|].
  split; [vm_compute; reflexivity|].
  split; [vm_compute; reflexivity|].
  split; [vm_compute; reflexivity|].
  apply (history_is_recent example_clock crowded_manager Hm).
Defined.

Lemma stamps_ordered_later b b' a :
  b <= b' -> stamps_ordered b a -> stamps_ordered b' a.
Proof.
  intros Hb (H1 & H2 & H3). split; [lia|]. split.
  - intros x Hx. specialize (H2 x Hx). lia.
  - intros x Hx. destruct (H3 x Hx) as [H4 H5]. split; [lia | exact H5].
Qed.

Lemma stamped_later clock (st st' : t) :
  monotone clock -> alerts st' = alerts st -> (ticks st <= ticks st')%nat ->
  stamped clock st -> stamped clock st'.
Proof.
  intros Hmono Ha Ht Hs. unfold stamped in *. rewrite Ha.
  eapply List.Forall_impl; [|exact Hs].
  intros a. apply stamps_ordered_later. now apply Hmono.
Qed.

Lemma evaluate_rule_stamped clock rule metrics svc ep st :
  monotone clock -> stamped clock st ->
  stamped clock (evaluate_rule clock rule metrics svc ep st).
Proof.
  intros Hmono Hs. unfold evaluate_rule.
  destruct (Py.dict_get metrics _) as [v|]; [|assumption].
  destruct (evaluate_condition _ _ _).
  - destruct (active_alerts st !! _); [assumption|].
    unfold stamped, trigger_alert. fields.
    assert (Hb : clock (ticks st) <= clock (S (ticks st))) by (apply Hmono; lia).
    apply Forall_app. split.
    + eapply List.Forall_impl; [|exact Hs].
      intros a. now apply stamps_ordered_later.
    + constructor; [|constructor].
      split; [simpl; lia|]. split; simpl; intros t [=].
  - destruct (active_alerts st !! _) as [r|] eqn:Hr; [|assumption].
    unfold resolve_alert. rewrite Hr.
    destruct (alerts st !! r) as [a|] eqn:Ha; [|assumption].
    unfold stamped. fields.
    assert (Hb : clock (ticks st) <= clock (S (ticks st))) by (apply Hmono; lia).
    apply Forall_insert.
    + eapply List.Forall_impl; [|exact Hs].
      intros b. now apply stamps_ordered_later.
    + unfold stamped in Hs. rewrite List.Forall_forall in Hs.
      destruct (Hs a) as (H1 & H2 & H3).
      { apply list_elem_of_In. eapply list_elem_of_lookup_2. exact Ha. }
      split; [simpl; lia|]. split; simpl.
      * intros t Ht. specialize (H2 t Ht). lia.
      * intros t [= <-]. split; [lia|].
        intros t' Ht'. specialize (H2 t' Ht'). lia.
Qed.

Lemma acknowledge_alert_stamped clock alert_id st :
  monotone clock -> lifecycle st -> stamped clock st ->
  stamped clock (snd (acknowledge_alert clock alert_id st)).
Proof.
  intros Hmono [Hact _] Hs. unfold acknowledge_alert.
  destruct (active_alerts st !! alert_id) as [r|] eqn:Hr; [|assumption].
  destruct (alerts st !! r) as [a|] eqn:Ha; [|assumption].
  unfold stamped. fields.
  assert (Hb : clock (ticks st) <= clock (S (ticks st))) by (apply Hmono; lia).
  apply Forall_insert.
  - eapply List.Forall_impl; [|exact Hs].
    intros b. now apply stamps_ordered_later.
  - destruct (Hact _ _ Hr) as (a0 & Ha0 & _ & _ & Hnone).
    assert (a0 = a) as -> by congruence.
    unfold stamped in Hs. rewrite List.Forall_forall in Hs.
    destruct (Hs a) as (H1 & H2 & H3).
    { apply list_elem_of_In. eapply list_elem_of_lookup_2. exact Ha. }
    split; [simpl; lia|]. split; simpl.
    + intros t [= <-]. lia.
    + rewrite Hnone. intros t [=].
Qed.

Lemma apply_op_stamped clock op st :
  monotone clock -> manager_ok st -> stamped clock st ->
  stamped clock (apply_op clock op st).
Proof.
  intros Hmono Hok Hs. destruct op as [md|id|rule|id|cb|]; simpl.
  - apply (check_metrics_invariant (stamped clock)).
    + intros. now apply evaluate_rule_stamped.
    + apply (stamped_later clock st); auto. simpl. lia.
  - apply acknowledge_alert_stamped; auto. apply Hok.
  - exact Hs.
  - unfold remove_alert_rule. destruct (Py.dict_mem _ _); exact Hs.
  - exact Hs.
  - apply (stamped_later clock st); auto. simpl. lia.
Qed.

Lemma managed_stamped clock self :
  monotone clock -> managed clock self -> stamped clock self.
Proof.
  intros Hmono [ops ->]. unfold run_ops.
  assert (H : manager_ok (fold_left (fun st op => apply_op clock op st) ops
                            (init clock)) /\
              stamped clock (fold_left (fun st op => apply_op clock op st) ops
                               (init clock))); [|apply H].
  apply (fold_left_invariant (fun st => manager_ok st /\ stamped clock st)).
  - intros st op [Hok Hs]. split;
      [now apply apply_op_manager_ok | now apply apply_op_stamped].
  - split; [apply init_manager_ok | constructor].
Qed.

(** X16.  With a clock that never runs backwards the time stamps of every
    alert are in the order of its life: it is acknowledged and resolved no
    earlier than it was triggered, and an alert that was acknowledged and
    resolved was acknowledged first. *)
Theorem alert_timestamps_ordered clock self a :
  monotone clock -> managed clock self -> In a (alerts self) ->
  (forall t, Alert.acknowledged_at a = Some t -> Alert.triggered_at a <= t) /\
  (forall t, Alert.resolved_at a = Some t -> Alert.triggered_at a <= t) /\
  (forall ta tr, Alert.acknowledged_at a = Some ta ->
                 Alert.resolved_at a = Some tr -> ta <= tr).
Proof.
  intros Hmono Hm Hin. pose proof (managed_stamped clock self Hmono Hm) as Hs.
  unfold stamped in Hs. rewrite List.Forall_forall in Hs.
  destruct (Hs a Hin) as (_ & H2 & H3).
  split; [|split].
  - intros t Ht. specialize (H2 t Ht). lia.
  - intros t Ht. destruct (H3 t Ht) as [? _]. lia.
  - intros ta tr Hta Htr. destruct (H3 tr Htr) as [_ H]. now apply H.
Qed.

Lemma alert_timestamps_ordered_witness :
  monotone example_clock /\ managed example_clock settled_manager /\
  exists a ta tr,
    In a (alerts settled_manager) /\
    Alert.status a = RESOLVED /\
    Alert.acknowledged_at a = Some ta /\ Alert.resolved_at a = Some tr /\
    Alert.triggered_at a <= ta /\ Alert.triggered_at a <= tr /\ ta <= tr.
Proof.
  assert (Hm : managed example_clock settled_manager)
    by (exists settled_ops; reflexivity).
  split; [exact example_clock_monotone|]. split; [exact Hm|].
  destruct (alerts settled_manager !! 0%nat) as [a|] eqn:E;
    [|vm_compute in E; discriminate].
  assert (Hin : In a (alerts settled_manager)).
  { apply list_elem_of_In. eapply list_elem_of_lookup_2. exact E. }
  assert (Hst : Alert.status a = RESOLVED)
    by (vm_compute in E; injection E as <-; reflexivity).
  assert (Hack : Alert.acknowledged_at a = Some 1008)
    by (vm_compute in E; injection E as <-; reflexivity).
  assert (Hres : Alert.resolved_at a = Some 1010)
    by (vm_compute in E; injection E as <-; reflexivity).
  destruct (alert_timestamps_ordered example_clock settled_manager a
              example_clock_monotone Hm Hin) as (H1 & H2 & H3).
  exists a, 1008, 1010.
  split; [exact Hin|]. split; [exact Hst|].
  split; [exact Hack|]. split; [exact Hres|].
  split; [exact (H1 1008 Hack)|].
  split; [exact (H2 1010 Hres) | exact (H3 1008 1010 Hack Hres)].
Defined.

Lemma fold_left_invariant_In {A B} (I : B -> Prop) (f : B -> A -> B) (l : list A) :
  (forall b x, In x l -> I b -> I (f b x)) -> forall b, I b -> I (fold_left f l b).
Proof.
  induction l as [|x l IH]; intros Hf b Hb; simpl; [assumption|].
  apply IH; [intros b' y Hy; apply Hf; now right|]. apply Hf; [now left | assumption].
Qed.

Lemma evaluate_rule_raised clock n rules md k rule metrics svc ep st :
  In (k, rule) rules -> AlertRule.enabled rule = true ->
  In (svc, ep, metrics) (visited md) ->
  raised_since n rules md st ->
  raised_since n rules md (evaluate_rule clock rule metrics svc ep st).
Proof.
  intros Hin Hen Hvis [Hrules Hnew]. unfold evaluate_rule.
  destruct (Py.dict_get metrics _) as [v|] eqn:Hv; [|split; assumption].
  destruct (evaluate_condition _ _ _) eqn:Hc.
  - destruct (active_alerts st !! _); [split; assumption|].
    unfold raised_since, trigger_alert. fields. split; [assumption|].
    intros i a Hi Hn.
    destruct (Nat.lt_ge_cases i (length (alerts st))) as [Hlt|Hge].
    + rewrite lookup_app_l in Hi by assumption. eauto.
    + rewrite lookup_app_r in Hi by assumption.
      destruct (i - length (alerts st))%nat; simpl in Hi; [|discriminate].
      injection Hi as <-. exists k, rule, metrics. simpl. repeat split; assumption.
  - destruct (active_alerts st !! _) as [r|] eqn:Hr; [|split; assumption].
    unfold resolve_alert. rewrite Hr.
    destruct (alerts st !! r) as [a|] eqn:Ha; [|split; assumption].
    unfold raised_since. fields. split; [assumption|].
    intros i b Hi Hn. destruct (decide (i = r)) as [->|Hne].
    + rewrite list_lookup_insert_eq in Hi by (now apply lookup_lt_Some in Ha).
      injection Hi as <-. destruct (Hnew r a Ha Hn) as (k0 & r0 & m0 & H).
      exists k0, r0, m0. exact H.
    + rewrite list_lookup_insert_ne in Hi by congruence. eauto.
Qed.

Lemma skips_overall_enabled rule :
  skips_overall rule = false -> AlertRule.enabled rule = true.
Proof. unfold skips_overall. destruct (AlertRule.enabled rule); [auto | discriminate]. Qed.

Lemma skips_service_enabled rule s :
  skips_service rule s = false -> AlertRule.enabled rule = true.
Proof. unfold skips_service. destruct (AlertRule.enabled rule); [auto | discriminate]. Qed.

Lemma skips_endpoint_enabled rule s e :
  skips_endpoint rule s e = false -> AlertRule.enabled rule = true.
Proof. unfold skips_endpoint. destruct (AlertRule.enabled rule); [auto | discriminate]. Qed.

Lemma check_metrics_raised clock md self :
  raised_since (length (alerts self)) (alert_rules self) md
    (check_metrics clock md self).
Proof.
  rewrite check_metrics_begin.
  set (n := length (alerts self)). set (rules := alert_rules self).
  apply fold_left_invariant_In.
  { intros st [k m] Hkm Hst. unfold check_endpoint_metrics.
    destruct (parse_endpoint_key k) as [svc ep] eqn:Hp.
    pose proof (proj1 Hst) as Hr. rewrite Hr.
    apply fold_left_invariant_In; [|assumption].
    intros st' [k' rule] Hin Hst'.
    destruct (skips_endpoint _ _ _) eqn:Hskip; [assumption|].
    eapply evaluate_rule_raised; eauto using skips_endpoint_enabled.
    right. apply in_or_app. right. apply in_map_iff. exists (k, m).
    rewrite Hp. auto. }
  apply fold_left_invariant_In.
  { intros st [s m] Hsm Hst. unfold check_service_metrics.
    pose proof (proj1 Hst) as Hr. rewrite Hr.
    apply fold_left_invariant_In; [|assumption].
    intros st' [k' rule] Hin Hst'.
    destruct (skips_service _ _) eqn:Hskip; [assumption|].
    eapply evaluate_rule_raised; eauto using skips_service_enabled.
    right. apply in_or_app. left. apply in_map_iff. exists (s, m). auto. }
  unfold check_overall_metrics. fields. fold rules.
  apply fold_left_invariant_In.
  - intros st' [k' rule] Hin Hst'.
    destruct (skips_overall _) eqn:Hskip; [assumption|].
    eapply evaluate_rule_raised; eauto using skips_overall_enabled.
    now left.
  - split; [reflexivity|]. fields. intros i a Hi Hn.
    apply lookup_lt_Some in Hi. unfold n in Hn. lia.
Qed.

(** X17.  Every alert object that a [check_metrics] call allocates is asked
    for by a rule of the table: the rule is enabled, the call visits the
    alert's scope, the metrics of that scope hold the rule's metric with the
    value recorded in the alert, the rule's condition holds for that value,
    and the alert carries the rule's id, threshold and severity. *)
Theorem raised_alerts_justified clock md self i a :
  alerts (check_metrics clock md self) !! i = Some a ->
  (length (alerts self) <= i)%nat ->
  justified (alert_rules self) md a.
Proof.
  intros Hi Hn. destruct (check_metrics_raised clock md self) as [_ H]. eauto.
Qed.

Lemma raised_alerts_justified_witness :
  let md := mkMetricsData [("error_rate", (6 # 1)%Q)] [] [] in
  exists a,
    alerts (check_metrics example_clock md (init example_clock)) !! 0%nat
    = Some a /\
    justified (alert_rules (init example_clock)) md a.
Proof.
  cbv zeta.
  destruct (alerts (check_metrics example_clock
                      (mkMetricsData [("error_rate", (6 # 1)%Q)] [] [])
                      (init example_clock)) !! 0%nat) as [a|] eqn:E;
    [|vm_compute in E; discriminate].
  exists a. split; [reflexivity|].
  apply (raised_alerts_justified example_clock _ (init example_clock) 0 a E).
  simpl. lia.
Defined.

(** X18.  Acknowledging the active alert of a rule and a scope succeeds,
    stamps the alert and leaves it active.  While the rule's condition holds,
    evaluating the rule again changes nothing: the alert is not raised a
    second time and no callback runs.  Once the condition fails, the
    acknowledged alert is resolved like any other and keeps its
    acknowledgement stamp. *)
Theorem acknowledged_alert_lifecycle clock rule metrics svc ep self v ref :
  managed clock self ->
  active_alerts self !! generate_alert_id rule svc ep = Some ref ->
  Py.dict_get metrics (AlertRule.metric_type rule) = Some v ->
  let alert_id := generate_alert_id rule svc ep in
  let self1 := snd (acknowledge_alert clock alert_id self) in
  let met :=
    evaluate_condition v (AlertRule.operator rule) (AlertRule.threshold rule) in
  fst (acknowledge_alert clock alert_id self) = true /\
  active_alerts self1 !! alert_id = Some ref /\
  (exists a, alerts self1 !! ref = Some a /\
             Alert.status a = ACKNOWLEDGED /\
             Alert.acknowledged_at a = Some (clock (ticks self))) /\
  (met = true -> evaluate_rule clock rule metrics svc ep self1 = self1) /\
  (met = false ->
   let self2 := evaluate_rule clock rule metrics svc ep self1 in
   active_alerts self2 !! alert_id = None /\
   exists a, alerts self2 !! ref = Some a /\
             Alert.status a = RESOLVED /\
             Alert.acknowledged_at a = Some (clock (ticks self)) /\
             Alert.resolved_at a = Some (clock (S (ticks self)))).
Proof.
  intros Hm Hact Hv alert_id self1 met.
  destruct (managed_ok clock self Hm) as (_ & (Hlife & _) & _).
  destruct (Hlife _ _ Hact) as (a & Ha & _).
  assert (Hlt : (ref < length (alerts self))%nat) by (now apply lookup_lt_Some in Ha).
  subst self1. unfold acknowledge_alert. fold alert_id in Hact.
  rewrite Hact, Ha. fields.
  split; [reflexivity|]. split; [exact Hact|]. split.
  { eexists. split; [now apply list_lookup_insert_eq|]. split; reflexivity. }
  unfold evaluate_rule. rewrite Hv. fold met. fold alert_id. fields.
  split; intros Hmet; rewrite Hmet; rewrite Hact.
  - reflexivity.
  - cbv zeta. unfold resolve_alert. fields. rewrite Hact.
    rewrite list_lookup_insert_eq by assumption. fields.
    split; [apply lookup_delete_eq|].
    eexists. split; [apply list_lookup_insert_eq; now rewrite length_insert|].
    repeat split; reflexivity.
Qed.

Lemma acknowledged_alert_lifecycle_witness :
  managed example_clock alarmed_manager /\
  let self1 := snd (acknowledge_alert example_clock "high_error_rate"
                      alarmed_manager) in
  let self2 := evaluate_rule example_clock error_rate_rule
                 [("error_rate", (2 # 1)%Q)] None None self1 in
  fst (acknowledge_alert example_clock "high_error_rate" alarmed_manager)
  = true /\
  active_alerts self2 !! "high_error_rate" = None.
Proof.
  split; [exact alarmed_managed|]. cbv zeta.
  destruct (acknowledged_alert_lifecycle example_clock error_rate_rule
              [("error_rate", (2 # 1)%Q)] None None alarmed_manager (2 # 1) 0
              alarmed_managed eq_refl eq_refl)
    as (Hok & _ & _ & _ & Hres).
  split; [exact Hok|]. destruct (Hres eq_refl) as [Hnone _]. exact Hnone.
Defined.

Lemma dict_get_set_ne {V} (d : Py.pydict V) k k' v :
  k' <> k -> Py.dict_get (Py.dict_set d k v) k' = Py.dict_get d k'.
Proof.
  intros Hne. induction d as [|[k0 v0] d IH]; simpl.
  - destruct (String.eqb_spec k' k); [contradiction | reflexivity].
  - destruct (String.eqb_spec k k0) as [->|Hk]; simpl.
    + destruct (String.eqb_spec k' k0); [contradiction | reflexivity].
    + destruct (String.eqb k' k0); [reflexivity | exact IH].
Qed.

Lemma dict_get_del_eq {V} (d : Py.pydict V) k :
  NoDup (map fst d) -> Py.dict_get (Py.dict_del d k) k = None.
Proof.
  induction d as [|[k0 v0] d IH]; simpl; intros Hd; [reflexivity|].
  apply NoDup_cons in Hd as [Hk Hd].
  destruct (String.eqb_spec k k0) as [->|Hne]; simpl.
  - apply dict_get_In. intros Hin. apply Hk. now apply list_elem_of_In.
  - destruct (String.eqb_spec k k0); [contradiction | auto].
Qed.

Lemma dict_get_del_ne {V} (d : Py.pydict V) k k' :
  k' <> k -> Py.dict_get (Py.dict_del d k) k' = Py.dict_get d k'.
Proof.
  intros Hne. induction d as [|[k0 v0] d IH]; simpl; [reflexivity|].
  destruct (String.eqb_spec k k0) as [->|Hk]; simpl.
  - destruct (String.eqb_spec k' k0); [contradiction | reflexivity].
  - destruct (String.eqb k' k0); [reflexivity | exact IH].
Qed.

(** X19.  [add_alert_rule] followed by [remove_alert_rule] of the same id: the
    added rule is found under its id and no other entry is touched; the
    removal reports success, after it the id is unknown while every other id
    still has the rule it had before the addition, and a second removal
    reports failure. *)
Theorem rule_table_round_trip clock self rule :
  managed clock self ->
  let added := add_alert_rule rule self in
  let removed := remove_alert_rule (AlertRule.id rule) added in
  Py.dict_get (alert_rules added) (AlertRule.id rule) = Some rule /\
  (forall k, k <> AlertRule.id rule ->
     Py.dict_get (alert_rules added) k = Py.dict_get (alert_rules self) k) /\
  fst removed = true /\
  Py.dict_get (alert_rules (snd removed)) (AlertRule.id rule) = None /\
  (forall k, k <> AlertRule.id rule ->
     Py.dict_get (alert_rules (snd removed)) k
     = Py.dict_get (alert_rules self) k) /\
  fst (remove_alert_rule (AlertRule.id rule) (snd removed)) = false.
Proof.
  intros Hm added removed.
  assert (Hok : manager_ok added).
  { apply (apply_op_manager_ok clock (OpAddRule rule)).
    now apply (managed_ok clock). }
  destruct Hok as (_ & _ & _ & Huniq).
  assert (Hget : Py.dict_get (alert_rules added) (AlertRule.id rule) = Some rule)
    by apply dict_get_set_eq.
  assert (Hrem : removed
                 = (true, set_rules added
                            (Py.dict_del (alert_rules added) (AlertRule.id rule)))).
  { unfold removed, remove_alert_rule, Py.dict_mem. now rewrite Hget. }
  rewrite Hrem. fields.
  assert (Hnone : Py.dict_get
                    (Py.dict_del (alert_rules added) (AlertRule.id rule))
                    (AlertRule.id rule) = None)
    by (now apply dict_get_del_eq).
  split; [exact Hget|]. split.
  { intros k Hk. now apply dict_get_set_ne. }
  split; [reflexivity|]. split; [exact Hnone|]. split.
  - intros k Hk. rewrite dict_get_del_ne by assumption. now apply dict_get_set_ne.
  - unfold remove_alert_rule, Py.dict_mem. fields. now rewrite Hnone.
Qed.

Lemma rule_table_round_trip_witness :
  managed example_clock (init example_clock) /\
  let added := add_alert_rule error_rate_rule (init example_clock) in
  let removed := remove_alert_rule "high_error_rate" added in
  Py.dict_get (alert_rules added) "high_error_rate" = Some error_rate_rule /\
  fst removed = true /\
  Py.dict_get (alert_rules (snd removed)) "high_error_rate" = None.
Proof.
  assert (Hm : managed example_clock (init example_clock))
    by (exists []; unfold run_ops; cbn [fold_left]; reflexivity).
  split; [exact Hm|]. cbv zeta.
  destruct (rule_table_round_trip example_clock (init example_clock)
              error_rate_rule Hm) as (H1 & _ & H3 & H4 & _).
  split; [exact H1|]. split; [exact H3 | exact H4].
Defined.

Lemma fold_left_id {A B} (f : B -> A -> B) (l : list A) b :
  (forall x, In x l -> f b x = b) -> fold_left f l b = b.
Proof.
  induction l as [|x l IH]; intros Hf; simpl; [reflexivity|].
  rewrite Hf by now left. apply IH. intros y Hy. apply Hf. now right.
Qed.

(** X20.  When no rule of the table is enabled, [check_metrics] does its
    bookkeeping and nothing else: it counts the check and stamps it, and
    raises no alert, resolves none and calls no callback, whatever the
    metrics are. *)
Theorem disabled_rules_change_nothing clock md self :
  all_disabled self ->
  check_metrics clock md self = begin_check clock self.
Proof.
  intros Hd. rewrite check_metrics_begin.
  unfold all_disabled in Hd. rewrite List.Forall_forall in Hd.
  assert (Hov : check_overall_metrics clock (md_overall md)
                  (begin_check clock self) = begin_check clock self).
  { unfold check_overall_metrics. apply fold_left_id.
    intros [k rule] Hin. unfold skips_overall.
    pose proof (Hd (k, rule) Hin) as Hk. simpl in Hk. now rewrite Hk. }
  rewrite Hov.
  assert (Hsv : fold_left
                  (fun st '(service_name, service_metrics) =>
                     check_service_metrics clock service_name service_metrics st)
                  (md_services md) (begin_check clock self)
                = begin_check clock self).
  { apply fold_left_id. intros [s m] _. unfold check_service_metrics.
    apply fold_left_id. intros [k' rule] Hin. cbn beta iota.
    unfold skips_service.
    pose proof (Hd (k', rule) Hin) as Hk. simpl in Hk. now rewrite Hk. }
  rewrite Hsv.
  apply fold_left_id. intros [k m] _. unfold check_endpoint_metrics.
  destruct (parse_endpoint_key k) as [svc ep].
  apply fold_left_id. intros [k' rule] Hin. cbn beta iota.
  unfold skips_endpoint.
  pose proof (Hd (k', rule) Hin) as Hk. simpl in Hk. now rewrite Hk.
Qed.

Lemma disabled_rules_change_nothing_witness :
  let md := mkMetricsData hot_metrics [("model-api", hot_metrics)]
              [("model-api:/predict", hot_metrics)] in
  length (alert_rules muted_manager) = 5%nat /\
  all_disabled muted_manager /\
  length (alerts (check_metrics example_clock md (init example_clock)))
  = 15%nat /\
  check_metrics example_clock md muted_manager
  = begin_check example_clock muted_manager.
Proof.
  cbv zeta.
  assert (Hd : all_disabled muted_manager).
  { unfold all_disabled. apply (bool_decide_unpack _). vm_compute. reflexivity. }
  split; [vm_compute; reflexivity|]. split; [exact Hd|].
  split; [vm_compute; reflexivity|].
  apply (disabled_rules_change_nothing example_clock _ muted_manager Hd).
Defined.

Lemma split_colon_app s e :
  colon_free s = true -> split_colon (s +:+ ":" +:+ e) = Some (s, e).
Proof.
  induction s as [|c s IH]; simpl; intros H; [reflexivity|].
  apply andb_true_iff in H as [Hc Hs]. apply negb_true_iff in Hc.
  rewrite Hc. change (split_colon (s +:+ ":" +:+ e)) with
    (split_colon (s +:+ ":" +:+ e)). rewrite (IH Hs). reflexivity.
Qed.

(** X21.  The endpoint keys that [TimeWindow.add_event] builds are read back
    by [_check_endpoint_metrics]: for an event whose service name holds no
    colon the key splits into that service name and the event's endpoint,
    even when the endpoint itself holds colons. *)
Theorem endpoint_key_round_trip e :
  colon_free (service_name e) = true ->
  parse_endpoint_key (TimeWindow.endpoint_key e)
  = (Some (service_name e), api_endpoint e).
Proof.
  intros H. unfold parse_endpoint_key, TimeWindow.endpoint_key.
  now rewrite split_colon_app.
Qed.

Lemma endpoint_key_round_trip_witness :
  let e := response_event 0 200 (100 # 1) in
  colon_free (service_name e) = true /\
  parse_endpoint_key (TimeWindow.endpoint_key e)
  = (Some "model-api", "/predict").
Proof.
  cbv zeta. split; [reflexivity|].
  apply (endpoint_key_round_trip (response_event 0 200 (100 # 1))).
  reflexivity.
Defined.

Lemma visited_snapshot s svc ep metrics :
  In (svc, ep, metrics) (visited (metrics_data_of s)) ->
  exists m, metrics = scope_dict m /\
            (m = overall s \/ In m (map snd (services s))
             \/ In m (map snd (endpoints s))).
Proof.
  unfold visited, metrics_data_of. cbn [md_overall md_services md_endpoints].
  intros [H|H].
  - injection H as _ _ <-. eauto.
  - apply in_app_or in H as [H|H]; apply in_map_iff in H as ([k d] & Heq & Hin);
      apply in_map_iff in Hin as ([k' m] & [= <- <-] & Hin);
      injection Heq as _ _ <-; exists m; split; try reflexivity;
      [right; left | right; right]; apply in_map_iff; exists (k', m); auto.
Qed.

Lemma error_rate_rule_silent m threshold :
  error_free m -> (0 <= threshold)%Q ->
  evaluate_condition (error_rate m) ">" threshold = false.
Proof.
  intros [_ Hrate] Hthr. unfold evaluate_condition. cbn [String.eqb Ascii.eqb].
  simpl. apply negb_false_iff, Qle_bool_iff. rewrite Hrate. exact Hthr.
Qed.

(** X22.  The pipeline from the factory to the alerts: when all events come
    from [MetricsEvent.from_request_response] and the rule table is the
    default one, no [check_metrics] call on a snapshot of the aggregator
    raises [high_error_rate] or [critical_error_rate], whatever the status
    codes of the events are. *)
Theorem factory_pipeline_raises_no_error_alert
    ws sub t0 a0 events now s clock (self : t) i a :
  MetricsAggregator.init ws sub t0 = Some a0 ->
  Forall factory_built events ->
  MetricsAggregator.get_current_metrics (ingest events a0) now = Some s ->
  alert_rules self = alert_rules (init clock) ->
  alerts (check_metrics clock (metrics_data_of s) self) !! i = Some a ->
  (length (alerts self) <= i)%nat ->
  Alert.rule_id a <> "high_error_rate" /\
  Alert.rule_id a <> "critical_error_rate".
Proof.
  intros Hinit Hev Hs Hrules Hi Hn.
  destruct (factory_snapshot_error_free _ _ _ _ _ _ _ Hinit Hev Hs)
    as (Hov & Hsv & Hep).
  destruct (check_metrics_raised clock (metrics_data_of s) self) as [_ Hj].
  destruct (Hj i a Hi Hn)
    as (k & rule & metrics & Hin & _ & Hvis & Hget & Hcond & Hid & _).
  apply visited_snapshot in Hvis as (m & -> & Hm).
  assert (Hfree : error_free m).
  { unfold values_satisfy in Hsv, Hep.
    rewrite List.Forall_forall in Hsv, Hep.
    destruct Hm as [->|[Hm|Hm]]; [assumption | |];
      apply in_map_iff in Hm as ([k' m'] & <- & Hin'); auto. }
  rewrite Hrules in Hin. unfold init in Hin. simpl in Hin.
  rewrite Hid.
  destruct Hin as [H|[H|[H|[H|[H|[]]]]]]; injection H as _ <-;
    cbn [AlertRule.id]; (split; [try discriminate | try discriminate]);
    exfalso; cbn [AlertRule.metric_type AlertRule.operator AlertRule.threshold]
      in Hget, Hcond;
    simpl in Hget; injection Hget as Hget; rewrite <- Hget in Hcond;
    rewrite error_rate_rule_silent in Hcond by (auto; discriminate);
    discriminate.
Qed.

Lemma factory_pipeline_raises_no_error_alert_witness :
  Forall factory_built factory_stream /\
  exists s a,
    MetricsAggregator.get_current_metrics
      (ingest factory_stream default_aggregator) 0 = Some s /\
    alerts (check_metrics example_clock (metrics_data_of s)
              (init example_clock)) !! 0%nat = Some a /\
    Alert.rule_id a <> "high_error_rate" /\
    Alert.rule_id a <> "critical_error_rate".
Proof.
  assert (Hf : Forall factory_built factory_stream)
    by (repeat constructor; repeat eexists).
  split; [exact Hf|].
  destruct (MetricsAggregator.get_current_metrics
              (ingest factory_stream default_aggregator) 0) as [s|] eqn:E;
    [|vm_compute in E; discriminate].
  destruct (alerts (check_metrics example_clock (metrics_data_of s)
                      (init example_clock)) !! 0%nat) as [a|] eqn:Ea.
  - exists s, a. split; [reflexivity|]. split; [exact Ea|].
    apply (factory_pipeline_raises_no_error_alert 60 5 0 default_aggregator
             factory_stream 0 s example_clock (init example_clock) 0 a
             eq_refl Hf E eq_refl Ea).
    simpl. lia.
  - vm_compute in E. injection E as <-. vm_compute in Ea. discriminate.
Defined.

End AlertLifecycle.

(** ** Batches of the storage manager *)

Section StorageBatches.

Import StorageManager.

Lemma row_tuple_scope ts ws we svc ep ty m extra :
  row_tuple (mkRow ts ws we svc ep ty (scope_dict m) extra)
  = inr (mkTuple ts ws we svc ep ty (qps m) (error_rate m)
           (avg_response_time m) (p95_response_time m) (p99_response_time m)
           (inject_Z (total_requests m)) (inject_Z (total_errors m)) extra).
Proof. reflexivity. Qed.

Lemma batch_data_app rows1 rows2 t1 t2 :
  batch_data rows1 = inr t1 -> batch_data rows2 = inr t2 ->
  batch_data (rows1 ++ rows2) = inr (t1 ++ t2).
Proof.
  revert t1. induction rows1 as [|r rows1 IH]; simpl; intros t1.
  - intros [= <-] H2. exact H2.
  - destruct (row_tuple r) as [e|tup]; simpl; [discriminate|].
    destruct (batch_data rows1) as [e|tups]; simpl; [discriminate|].
    intros [= <-] H2. rewrite (IH tups eq_refl H2). reflexivity.
Qed.

Lemma batch_data_map {A} (f : A -> Row) (g : A -> BatchTuple) l :
  (forall x, row_tuple (f x) = inr (g x)) ->
  batch_data (map f l) = inr (map g l).
Proof.
  intros H. induction l as [|x l IH]; simpl; [reflexivity|].
  rewrite H, IH. reflexivity.
Qed.

Lemma batch_data_snapshot s : batch_data (rows_of s) = inr (snapshot_tuples s).
Proof.
  unfold rows_of, snapshot_tuples.
  apply batch_data_app; [reflexivity|].
  apply batch_data_app.
  - apply batch_data_map. intros [name m]. apply row_tuple_scope.
  - apply batch_data_map. intros [key m].
    destruct (split_endpoint_key key) as [sv ep]. apply row_tuple_scope.
Qed.

Lemma snapshot_tuples_length s :
  length (snapshot_tuples s)
  = (1 + length (services s) + length (endpoints s))%nat.
Proof.
  unfold snapshot_tuples. rewrite !length_app, !length_map. simpl. lia.
Qed.

(** X23.  A snapshot of the aggregator always fits the insert statement: with
    an empty buffer and a pool on which every step goes through,
    [_add_to_batch] followed by [force_batch_write] appends to the table one
    tuple for the whole system, one per service and one per endpoint key,
    each with the metrics of its scope and the window that ends at the
    snapshot's time stamp; the buffer is empty afterwards and the counters
    record one batch of that many rows and no failure. *)
Theorem snapshot_flush_stores_every_scope clock s self pool :
  postgres_pool self = Some pool -> healthy pool ->
  pending_metrics self = [] ->
  let self' := force_batch_write clock (add_to_batch s self) in
  table self' = table self ++ snapshot_tuples s /\
  pending_metrics self' = [] /\
  total_postgres_writes (stats self')
  = total_postgres_writes (stats self)
    + Z.of_nat (1 + length (services s) + length (endpoints s)) /\
  batch_writes (stats self') = batch_writes (stats self) + 1 /\
  failed_writes (stats self') = failed_writes (stats self).
Proof.
  intros Hpool (Hacq & Hexec & Hrel) Hpend. cbv zeta.
  unfold force_batch_write, execute_batch_write, add_to_batch, set_pending.
  cbn [pending_metrics]. rewrite Hpend. cbn [app].
  assert (Hne : exists r rest, rows_of s = r :: rest)
    by (unfold rows_of; simpl; eauto).
  destruct Hne as (r & rest & Hrows). rewrite Hrows.
  unfold try_block, try_insert. cbn [postgres_pool pending_metrics].
  rewrite Hpool, Hacq. rewrite <- Hrows, batch_data_snapshot.
  cbn [bind_exn]. rewrite Hexec, Hrel.
  unfold after_insert. cbn [table pending_metrics stats total_postgres_writes
                            batch_writes failed_writes].
  rewrite snapshot_tuples_length. repeat split; reflexivity.
Qed.

Lemma snapshot_flush_stores_every_scope_witness :
  postgres_pool connected_manager = Some healthy_pool /\
  healthy healthy_pool /\
  pending_metrics connected_manager = [] /\
  exists s,
    MetricsAggregator.get_current_metrics
      (ingest two_services default_aggregator) 1000 = Some s /\
    let self' :=
      force_batch_write example_clock (add_to_batch s connected_manager) in
    table self' = snapshot_tuples s /\
    map (fun tup => (t_metric_type tup, t_service_name tup, t_endpoint tup))
      (table self')
    = [ ("overall", None, None);
        ("service", Some "model-api", None);
        ("service", Some "auth", None);
        ("endpoint", Some "model-api", Some "/predict");
        ("endpoint", Some "model-api", Some "/health");
        ("endpoint", Some "auth", Some "/login") ] /\
    pending_metrics self' = [] /\
    total_postgres_writes (stats self') = 6 /\
    batch_writes (stats self') = 1.
Proof.
  assert (Hh : healthy healthy_pool) by (repeat split).
  split; [reflexivity|]. split; [exact Hh|]. split; [reflexivity|].
  destruct (MetricsAggregator.get_current_metrics
              (ingest two_services default_aggregator) 1000)
    as [s|] eqn:E; [|vm_compute in E; discriminate].
  exists s. split; [reflexivity|]. cbv zeta.
  destruct (snapshot_flush_stores_every_scope example_clock s
              connected_manager healthy_pool eq_refl Hh eq_refl)
    as (Htab & Hpend & Hw & Hb & _).
  assert (Hsv : length (services s) = 2%nat)
    by (vm_compute in E; injection E as <-; reflexivity).
  assert (Hep : length (endpoints s) = 3%nat)
    by (vm_compute in E; injection E as <-; reflexivity).
  split; [exact Htab|].
  split; [rewrite Htab; vm_compute in E; injection E as <-; reflexivity|].
  split; [exact Hpend|].
  split; [rewrite Hw, Hsv, Hep; reflexivity | rewrite Hb; reflexivity].
Defined.

Lemma execute_batch_write_frame clock self :
  pending_metrics (execute_batch_write clock self) = [] /\
  batch_size (execute_batch_write clock self) = batch_size self.
Proof.
  unfold execute_batch_write.
  destruct (pending_metrics self) as [|r rest] eqn:Hp; [auto|].
  unfold try_block. destruct (try_insert self) as [e|batch]; simpl; [auto|].
  destruct (match postgres_pool self with
            | Some pool => release pool
            | None => None
            end); simpl; auto.
Qed.

(** X24.  After [store_metrics] the buffer is either empty, because the call
    ended in a batch write (which empties the buffer whether it succeeds or
    fails), or it holds the rows from before followed by the rows of the
    snapshot, and these are fewer than [batch_size]. *)
Theorem store_metrics_buffer_bound clock redis s self :
  let self' := store_metrics clock redis s self in
  batch_size self' = batch_size self /\
  (pending_metrics self' = [] \/
   (pending_metrics self' = pending_metrics self ++ rows_of s /\
    Z.of_nat (length (pending_metrics self')) < batch_size self)).
Proof.
  cbv zeta. unfold store_metrics, check_batch_write.
  set (st := add_to_batch s (update_redis_cache redis self)).
  assert (Hb : batch_size st = batch_size self)
    by (unfold st; destruct redis as [[]|]; reflexivity).
  assert (Hp : pending_metrics st = pending_metrics self ++ rows_of s)
    by (unfold st; destruct redis as [[]|]; reflexivity).
  destruct (Z.leb_spec (batch_size st) (Z.of_nat (length (pending_metrics st))))
    as [Hfull|Hroom]; cbn [orb].
  - match goal with
    | |- context [execute_batch_write clock ?x] =>
        destruct (execute_batch_write_frame clock x) as [H1 H2]
    end.
    rewrite H1, H2. cbn [batch_size]. split; [exact Hb | now left].
  - destruct (_ <=? _).
    + match goal with
      | |- context [execute_batch_write clock ?x] =>
          destruct (execute_batch_write_frame clock x) as [H1 H2]
      end.
      rewrite H1, H2. cbn [batch_size]. split; [exact Hb | now left].
    + cbn [batch_size pending_metrics]. split; [exact Hb|]. right.
      split; [exact Hp|]. rewrite <- Hb. exact Hroom.
Qed.

Lemma batches_done_snoc log entry :
  batches_done (log ++ [entry])
  = batches_done log ++ match entry with
                        | LogBatchDone n => [n]
                        | LogBatchFailed _ => []
                        end.
Proof.
  unfold batches_done. rewrite omap_app. f_equal. now destruct entry.
Qed.

Lemma batches_failed_snoc log entry :
  batches_failed (log ++ [entry])
  = (batches_failed log + match entry with
                          | LogBatchDone _ => 0
                          | LogBatchFailed _ => 1
                          end)%nat.
Proof.
  unfold batches_failed. rewrite List.filter_app, length_app.
  now destruct entry.
Qed.

Lemma foldr_add_snoc l n :
  foldr Nat.add 0%nat (l ++ [n]) = (foldr Nat.add 0%nat l + n)%nat.
Proof. induction l as [|x l IH]; simpl; lia. Qed.

Lemma after_insert_ledger clock batch self :
  storage_ledger self -> storage_ledger (after_insert clock batch self).
Proof.
  intros (H1 & H2 & H3 & H4). unfold storage_ledger, after_insert.
  cbn [stats table log total_postgres_writes batch_writes failed_writes].
  rewrite batches_done_snoc, batches_failed_snoc, !length_app, foldr_add_snoc.
  cbn [length]. repeat split; lia.
Qed.

Lemma on_failure_ledger clock e self :
  storage_ledger self -> storage_ledger (on_failure clock e self).
Proof.
  intros (H1 & H2 & H3 & H4). unfold storage_ledger, on_failure.
  cbn [stats table log total_postgres_writes batch_writes failed_writes].
  rewrite batches_done_snoc, batches_failed_snoc, app_nil_r.
  repeat split; lia.
Qed.

Lemma execute_batch_write_ledger clock self :
  storage_ledger self -> storage_ledger (execute_batch_write clock self).
Proof.
  intros H. unfold execute_batch_write.
  destruct (pending_metrics self); [assumption|].
  unfold try_block. destruct (try_insert self) as [e|batch].
  - now apply on_failure_ledger.
  - destruct (match postgres_pool self with
              | Some pool => release pool
              | None => None
              end).
    + now apply on_failure_ledger, after_insert_ledger.
    + now apply after_insert_ledger.
Qed.

Lemma apply_storage_op_ledger clock op self :
  storage_ledger self -> storage_ledger (apply_storage_op clock op self).
Proof.
  intros H. destruct op as [redis s| |pool]; simpl.
  - unfold store_metrics, check_batch_write.
    assert (H' : storage_ledger (add_to_batch s (update_redis_cache redis self)))
      by (destruct redis as [[]|]; exact H).
    destruct (_ || _); [apply execute_batch_write_ledger|]; exact H'.
  - now apply execute_batch_write_ledger.
  - exact H.
Qed.

(** X25.  Through any sequence of [store_metrics], [force_batch_write] and
    connections to a pool, the counters of a storage manager agree with what
    happened: [total_postgres_writes] is the number of rows in the table,
    [batch_writes] the number of batches reported as written, whose sizes
    add up to the rows of the table, and [failed_writes] the number of
    batches reported as failed. *)
Theorem storage_counters_agree clock ops batch_size batch_timeout redis_ttl :
  storage_ledger
    (run_storage_ops clock ops (init clock batch_size batch_timeout redis_ttl)).
Proof.
  unfold run_storage_ops. apply fold_left_invariant.
  - intros st op Hst. now apply apply_storage_op_ledger.
  - repeat split.
Qed.

End StorageBatches.
(** ** The window details of a snapshot *)

Section WindowDetails.

Import MetricsAggregator.

Lemma get_summary_sound sub w d :
  counts_ok w -> window_shape sub w ->
  TimeWindow.get_summary w = Some d ->
  summary_sound sub d /\
  TimeWindow.sum_request_count d = TimeWindow.request_count w.
Proof.
  intros Hc [Hd He]. unfold TimeWindow.get_summary.
  destruct (TimeWindow.get_qps w) as [q|]; simpl; [|discriminate].
  unfold TimeWindow.get_percentile_response_time.
  destruct (calculate_percentile _ (95 # 1)) as [p95|] eqn:H95; simpl; [|discriminate].
  destruct (calculate_percentile _ (99 # 1)) as [p99|] eqn:H99; simpl; [|discriminate].
  intros [= <-]. unfold summary_sound. simpl.
  split; [|reflexivity].
  split; [assumption|]. split; [assumption|]. split; [exact Hc|].
  assert (Hrate : TimeWindow.get_error_rate w
                  = expected_error_rate (TimeWindow.request_count w)
                      (TimeWindow.error_count w)).
  { unfold TimeWindow.get_error_rate, expected_error_rate, counts_ok in *.
    destruct (Z.eqb_spec (TimeWindow.request_count w) 0) as [E|E];
      destruct (Z.ltb_spec 0 (TimeWindow.request_count w)); try reflexivity; lia. }
  rewrite Hrate.
  destruct (expected_error_rate_bounds _ _ Hc) as [H0 H1].
  split; [exact H0|]. split; [exact H1|].
  eapply percentiles_ordered; eauto.
Qed.

Lemma summaries_sound sub ws l :
  Forall counts_ok ws -> Forall (window_shape sub) ws ->
  summaries ws = Some l ->
  Forall (summary_sound sub) l /\
  map TimeWindow.sum_request_count l = map TimeWindow.request_count ws.
Proof.
  intros Hc Hs. revert l.
  induction ws as [|w ws IH]; simpl; intros l.
  - intros [= <-]. split; [constructor | reflexivity].
  - apply Forall_cons in Hc as [Hcw Hc]. apply Forall_cons in Hs as [Hsw Hs].
    destruct (TimeWindow.get_summary w) as [d|] eqn:Hd; simpl; [|discriminate].
    destruct (summaries ws) as [l'|]; simpl; [|discriminate].
    intros [= <-]. destruct (IH Hc Hs l' eq_refl) as [IH1 IH2].
    destruct (get_summary_sound sub w d Hcw Hsw Hd) as [H1 H2].
    split; [constructor; assumption|]. simpl. now rewrite H2, IH2.
Qed.

Lemma get_current_metrics_details a now s :
  get_current_metrics a now = Some s ->
  summaries (Py.last_n 5 (all_windows a)) = Some (window_details s).
Proof.
  unfold get_current_metrics.
  destruct (all_windows a) as [|w ws] eqn:Hall.
  - intros [= <-]. reflexivity.
  - destruct (scope_metrics a _ _ _) as [ov|]; simpl; [|discriminate].
    destruct (aggregate_service_metrics a _) as [sv|]; simpl; [|discriminate].
    destruct (aggregate_endpoint_metrics a _) as [ep|]; simpl; [|discriminate].
    change (Py.slice_last 5 (w :: ws)) with (Py.last_n 5 (w :: ws)).
    destruct (summaries _) as [l|]; simpl; [|discriminate].
    intros [= <-]. reflexivity.
Qed.

Lemma summaries_length ws l : summaries ws = Some l -> length l = length ws.
Proof.
  revert l. induction ws as [|w ws IH]; simpl; intros l.
  - now intros [= <-].
  - destruct (TimeWindow.get_summary w); simpl; [|discriminate].
    destruct (summaries ws) as [l'|]; simpl; [|discriminate].
    intros [= <-]. simpl. f_equal. now apply IH.
Qed.

(** X26.  The [window_details] of a snapshot are the summaries of the last
    five live sub-windows, of all of them when there are fewer.  Every
    summary spans one sub-window length, has no more errors than requests, an
    error rate between 0 and 100 and a 95th percentile no larger than the
    99th; the requests of the summaries never exceed [overall.total_requests]
    and add up to it when at most five sub-windows are live. *)
Theorem snapshot_window_details a now s :
  reachable a -> get_current_metrics a now = Some s ->
  length (window_details s) = Nat.min 5 (active_windows s) /\
  Forall (summary_sound (sub_window_seconds a)) (window_details s) /\
  0 <= Py.sumZ (map TimeWindow.sum_request_count (window_details s))
    <= total_requests (overall s) /\
  ((active_windows s <= 5)%nat ->
   Py.sumZ (map TimeWindow.sum_request_count (window_details s))
   = total_requests (overall s)).
Proof.
  intros Hr Hs.
  pose proof (get_current_metrics_details a now s Hs) as Hd.
  pose proof (reachable_counts a Hr) as Hc.
  pose proof (reachable_window_shape a Hr) as Hsh.
  apply get_current_metrics_overall in Hs as (_ & Hact & Hreq & _).
  destruct (summaries_sound (sub_window_seconds a) _ _
              (Forall_skipn _ _ _ Hc) (Forall_skipn _ _ _ Hsh) Hd) as [H1 H2].
  split; [|split; [exact H1|]].
  - rewrite (summaries_length _ _ Hd), last_n_length, Hact. reflexivity.
  - rewrite H2, Hreq.
    assert (Hpos : Forall (fun x => 0 <= x)
                     (map TimeWindow.request_count (all_windows a))).
    { apply Forall_map. eapply List.Forall_impl; [|exact Hc].
      intros w Hw. unfold counts_ok in Hw. simpl. lia. }
    unfold Py.last_n. rewrite <- skipn_map.
    split; [apply sumZ_skipn_le; exact Hpos|].
    intros Hle. rewrite Hact in Hle.
    replace (length (all_windows a) - 5)%nat with 0%nat by lia. reflexivity.
Qed.

Lemma snapshot_window_details_witness :
  reachable (ingest two_buckets default_aggregator) /\
  exists s,
    get_current_metrics (ingest two_buckets default_aggregator) 0 = Some s /\
    length (window_details s) = 2%nat /\
    Py.sumZ (map TimeWindow.sum_request_count (window_details s))
    = total_requests (overall s).
Proof.
  split; [apply default_reachable|].
  destruct (get_current_metrics (ingest two_buckets default_aggregator) 0)
    as [s|] eqn:E; [|vm_compute in E; discriminate].
  exists s. split; [reflexivity|].
  destruct (snapshot_window_details _ 0 s (default_reachable two_buckets) E)
    as (Hlen & _ & _ & Heq).
  assert (Hact : active_windows s = 2%nat)
    by (vm_compute in E; injection E as <-; reflexivity).
  rewrite Hact in Hlen, Heq. split; [exact Hlen|]. apply Heq. lia.
Defined.

End WindowDetails.

(** ** The processor between the consumer and the stores *)

Section Processor.

Import MetricsProcessor.

Lemma storage_step_frame clock redis now self :
  metrics_aggregator (storage_step clock redis now self)
  = metrics_aggregator self /\
  total_events_processed (stats (storage_step clock redis now self))
  = total_events_processed (stats self).
Proof.
  unfold storage_step.
  destruct (metrics_aggregator self) as [a|] eqn:Ha; [|rewrite Ha; auto].
  destruct (MetricsAggregator.get_current_metrics a now) as [s|];
    [|simpl; auto].
  destruct (0 <? _); [|rewrite Ha; auto].
  destruct (storage_manager self); simpl; auto.
Qed.

Lemma alert_check_step_frame clock now self :
  metrics_aggregator (alert_check_step clock now self)
  = metrics_aggregator self /\
  total_events_processed (stats (alert_check_step clock now self))
  = total_events_processed (stats self).
Proof.
  unfold alert_check_step.
  destruct (metrics_aggregator self) as [a|] eqn:Ha; [|rewrite Ha; auto].
  destruct (alert_manager self); [|rewrite Ha; auto].
  destruct (MetricsAggregator.get_current_metrics a now) as [s|]; simpl; auto.
Qed.

Lemma run_steps_events sc ac steps : forall self a,
  metrics_aggregator self = Some a ->
  metrics_aggregator (run_steps sc ac steps self)
  = Some (ingest_received (handled steps) a) /\
  total_events_processed (stats (run_steps sc ac steps self))
  = total_events_processed (stats self) + Z.of_nat (length (handled steps)).
Proof.
  induction steps as [|step steps IH]; intros self a Ha; simpl.
  - split; [assumption | lia].
  - destruct step as [e|e|redis now|now]; simpl.
    + destruct (IH (handle_event e self) (MetricsAggregator.add_event e a))
        as [H1 H2]; [simpl; now rewrite Ha|].
      fold (run_steps sc ac steps (handle_event e self)).
      rewrite H1, H2. simpl. split; [reflexivity | lia].
    + destruct (IH (handle_aware_event e self)
                  (MetricsAggregator.add_aware_event e a))
        as [H1 H2]; [simpl; now rewrite Ha|].
      fold (run_steps sc ac steps (handle_aware_event e self)).
      rewrite H1, H2. simpl. split; [reflexivity | lia].
    + destruct (storage_step_frame sc redis now self) as [F1 F2].
      destruct (IH (storage_step sc redis now self) a) as [H1 H2];
        [congruence|].
      fold (run_steps sc ac steps (storage_step sc redis now self)).
      rewrite H1, H2, F2. auto.
    + destruct (alert_check_step_frame ac now self) as [F1 F2].
      destruct (IH (alert_check_step ac now self) a) as [H1 H2];
        [congruence|].
      fold (run_steps sc ac steps (alert_check_step ac now self)).
      rewrite H1, H2, F2. auto.
Qed.

(** X27.  The processor and the aggregator count different things.  Through
    any run of events, storage passes and alert checks the aggregator of the
    processor is the one it started with, fed with the events in order;
    [MetricsProcessor.stats.total_events_processed] grows by the number of
    all events handled, whatever their type and their time stamp.  The
    aggregator's own [total_events_processed] (for a fresh aggregator, a
    positive sub-window length and naive stamps from the epoch on) is the
    number of [API_RESPONSE] events with a naive time stamp among them: an
    event with an aware stamp is counted by the processor and not by the
    aggregator. *)
Theorem processor_counts_every_event sc ac ws sub t0 a0 steps self :
  MetricsAggregator.init ws sub t0 = Some a0 -> 0 < sub ->
  metrics_aggregator self = Some a0 ->
  Forall naive_since_epoch (handled steps) ->
  let self' := run_steps sc ac steps self in
  metrics_aggregator self' = Some (ingest_received (handled steps) a0) /\
  total_events_processed (stats self')
  = total_events_processed (stats self) + Z.of_nat (length (handled steps)) /\
  MetricsAggregator.total_events_processed
    (ingest_received (handled steps) a0)
  = Z.of_nat (length (List.filter counted (handled steps))).
Proof.
  intros Hinit Hsub Ha Hts. cbv zeta.
  destruct (run_steps_events sc ac steps self a0 Ha) as [H1 H2].
  split; [exact H1|]. split; [exact H2|].
  now apply (fresh_counted ws sub t0).
Qed.

Lemma processor_counts_every_event_witness :
  MetricsAggregator.init 60 5 0 = Some default_aggregator /\
  Forall naive_since_epoch (handled stamped_run) /\
  let self' := run_steps example_clock example_clock stamped_run
                 running_processor in
  total_events_processed (stats self') = 3 /\
  MetricsAggregator.total_events_processed
    (ingest_received (handled stamped_run) default_aggregator) = 1.
Proof.
  assert (Ht : Forall naive_since_epoch (handled stamped_run))
    by (repeat constructor; simpl; lia).
  split; [reflexivity|]. split; [exact Ht|]. cbv zeta.
  destruct (processor_counts_every_event example_clock example_clock 60 5 0
              default_aggregator stamped_run running_processor
              eq_refl ltac:(lia) eq_refl Ht) as (_ & H2 & H3).
  split; [exact H2 | exact H3].
Defined.











End Processor.
